(** * sqlite_performance_demo: a shallow embedding of [main.c]

    The harness times a few ways to INSERT and UPDATE rows of one SQLite
    table.  The C functions of [main.c] are embedded as programs of a small
    state-and-exit monad over an abstract SQLite connection; the SQLite
    library, [rand], [clock] and the console are the environment.

    - Part 1: C data (doubles, formatted text, result codes).
    - Part 2: the environment interface and the program monad.
    - Part 3: the functions of [main.c].
    - Part 4: two environments: a relational model of the [Test] table and
      a scripted connection that replays given result codes.
    - Part 5: the properties.
    - Part 6: further properties of the functions: the order of their
      calls, where they read the clock, what they print, use and store,
      and what they do with keys that are too long or already in the
      table. *)

From Stdlib Require Import ZArith Ascii String Uint63 PrimFloat OrderedTypeEx.
From stdpp Require Import gmap strings list pretty.

Open Scope Z_scope.

(** ** Part 1: C data *)

(** A C [double] is an IEEE binary64 number: Rocq's primitive [float].

    [float_of_Z z] is [(double)z] for an integer [z] of at most 63 bits. *)
Definition float_of_Z (z : Z) : float :=
  match z with
  | Z0 => 0%float
  | Zpos _ => PrimFloat.of_uint63 (Uint63.of_Z z)
  | Zneg _ => (- PrimFloat.of_uint63 (Uint63.of_Z (Z.opp z)))%float
  end.

(** [#define RAND_DOUBLE_LIMIT 100.0] *)
Definition RAND_DOUBLE_LIMIT : float := 100%float.

(** [#define DB_FILE_PATH "test.db"] (MEMORY_MODE is not defined). *)
Definition DB_FILE_PATH : string := "test.db".

(** [#define DASHES "----------------------------------------"] *)
Definition DASHES : string := "----------------------------------------".

(** The value of [NUM_EXECUTIONS] in the source. *)
Definition NUM_EXECUTIONS_source : Z := 10000000.

(** The body of [rand_double] on the value [r] returned by [rand()]:
    [(double)rand() / (RAND_MAX / RAND_DOUBLE_LIMIT)]. *)
Definition rand_double_of (RAND_MAX r : Z) : float :=
  (float_of_Z r / (float_of_Z RAND_MAX / RAND_DOUBLE_LIMIT))%float.

(** Arguments of a printf-style call. *)
Inductive arg : Type :=
| AStr (s : string)
| AInt (z : Z)
| ADbl (d : float).

(** A formatted text that is handed on as a whole (a console line, an SQL
    statement): the format as written in the source, escapes included, and
    the arguments it is applied to. *)
Record text : Type := Fmt { fmt : string; fmt_args : list arg }.

(** [sprintf(buf, format, i)] for a format whose only directive is [%d]:
    the decimal representation of [i] replaces the directive. *)
Fixpoint sprintf_d (format : string) (i : Z) : string :=
  match format with
  | String "%"%char (String "d"%char rest) => pretty i +:+ sprintf_d rest i
  | String c rest => String c (sprintf_d rest i)
  | EmptyString => EmptyString
  end.

(** SQLite result codes ([sqlite3.h]). *)
Definition SQLITE_OK : Z := 0.
Definition SQLITE_ERROR : Z := 1.
Definition SQLITE_BUSY : Z := 5.
Definition SQLITE_CANTOPEN : Z := 14.
Definition SQLITE_CONSTRAINT : Z := 19.
Definition SQLITE_MISMATCH : Z := 20.
Definition SQLITE_MISUSE : Z := 21.
Definition SQLITE_RANGE : Z := 25.
Definition SQLITE_ROW : Z := 100.
Definition SQLITE_DONE : Z := 101.

(** [typedef struct test_t]: a row of the test table.  [key] is a
    [char[25]] in C, so it holds at most 24 characters there. *)
Record test_t : Type := Test_t {
  rowid : Z;
  key : string;
  num1 : float;
  num2 : float;
  num3 : float;
  num4 : float
}.

(** Capacity of the [key] buffers ([char key[25]]). *)
Definition KEY_SIZE : nat := 25.

(** ** Part 2: environment and program monad *)

(** A prepared statement handle: the SQL it was compiled from and the
    identifier the connection gave it. *)
Record sqlite3_stmt : Type := Stmt { stmt_sql : text; stmt_id : nat }.

(** The calls into SQLite that return a result code. *)
Inductive api_call : Type :=
| Open (path : string)
| Close
| Exec (sql : text)
| Prepare (sql : text)
| BindText (st : sqlite3_stmt) (idx : Z) (s : string)
| BindDouble (st : sqlite3_stmt) (idx : Z) (d : float)
| BindInt64 (st : sqlite3_stmt) (idx : Z) (n : Z)
| Step (st : sqlite3_stmt)
| ClearBindings (st : sqlite3_stmt)
| Reset (st : sqlite3_stmt)
| Finalize (st : sqlite3_stmt).

(** What a run does to its environment, in order: the calls into SQLite
    with their result codes, the reads of a column and of the clock with
    the values they return, and the console. *)
Inductive event : Type :=
| Call (c : api_call) (rc : Z)
| Errmsg (msg : string)
| ColumnText (st : sqlite3_stmt) (col : Z) (s : option string)
| ColumnDouble (st : sqlite3_stmt) (col : Z) (d : float)
| ColumnInt64 (st : sqlite3_stmt) (col : Z) (n : Z)
| Clock (t : Z)
| Remove (path : string)
| Printf (t : text)
| Getchar.

(** The SQLite connection [_db] together with the database file, as a
    state machine.  Every operation takes the state and returns the result
    of the call and the next state. *)
Class Sqlite3 (S : Type) : Type := {
  sq_remove : string -> S -> S;
  sq_open : string -> S -> Z * S;
  sq_close : S -> Z * S;
  sq_exec : text -> S -> Z * S;
  sq_prepare : text -> S -> Z * nat * S;
  sq_bind_text : nat -> Z -> string -> S -> Z * S;
  sq_bind_double : nat -> Z -> float -> S -> Z * S;
  sq_bind_int64 : nat -> Z -> Z -> S -> Z * S;
  sq_step : nat -> S -> Z * S;
  sq_column_text : nat -> Z -> S -> option string;
  sq_column_double : nat -> Z -> S -> float;
  sq_column_int64 : nat -> Z -> S -> Z;
  sq_clear_bindings : nat -> S -> Z * S;
  sq_reset : nat -> S -> Z * S;
  sq_finalize : nat -> S -> Z * S;
  sq_errmsg : S -> string
}.

(** Build configuration and C library.  [NUM_EXECUTIONS] is the row count
    (10000000 in the source); [RAND_MAX] and [CLOCKS_PER_SEC] come from
    the C library headers; [rand_seq k] is the value of the [k]-th call of
    [rand()] in a process that never calls [srand] (the C standard makes
    this the sequence of [srand(1)]); [text_real d] is the number SQLite
    reads in an SQL text where [sprintf] has rendered [d] with [%f]. *)
Class Env : Type := {
  NUM_EXECUTIONS : nat;
  RAND_MAX : Z;
  CLOCKS_PER_SEC : Z;
  rand_seq : nat -> Z;
  text_real : float -> float
}.

(** How a C function ends.  [Undefined] stands for undefined behaviour:
    C gives the rest of such a run no meaning, and a build may do anything
    from there on (abort, or go on with overwritten memory), so the model
    follows the run no further.  The state paired with [Undefined] is the
    one in which the offending call was made; it says nothing about what a
    build leaves behind. *)
Inductive outcome (A : Type) : Type :=
| Done (a : A)          (* it returned [a] *)
| Exit (status : Z)     (* [exit(status)] ended the process *)
| Undefined             (* a write past a buffer, or a NULL source *)
| Timeout.              (* the model's loop bound was reached *)
Arguments Done {A} a.
Arguments Exit {A} status.
Arguments Undefined {A}.
Arguments Timeout {A}.

Section Program.
Context {Conn : Type} {SQ : Sqlite3 Conn} {E : Env}.

(** The state of a run: the connection, the number of [rand()] calls made
    so far, the values the next calls of [clock()] return, and the events
    so far. *)
Record world : Type := World {
  w_db : Conn;
  w_rand : nat;
  w_clock : list Z;
  w_out : list event
}.

Definition prog (A : Type) : Type := world -> outcome A * world.

Definition ret {A} (a : A) : prog A := fun w => (Done a, w).

Definition bind {A B} (p : prog A) (k : A -> prog B) : prog B := fun w =>
  match p w with
  | (Done a, w') => k a w'
  | (Exit c, w') => (Exit c, w')
  | (Undefined, w') => (Undefined, w')
  | (Timeout, w') => (Timeout, w')
  end.

Notation "x <- p ;; k" := (bind p (fun x => k))
  (at level 100, p at next level, right associativity).
Notation "p ;; k" := (bind p (fun _ => k))
  (at level 100, right associativity).

Definition emit (e : event) (w : world) : world :=
  World (w_db w) (w_rand w) (w_clock w) (w_out w ++ [e]).

Definition set_db (s : Conn) (w : world) : world :=
  World s (w_rand w) (w_clock w) (w_out w).

(** [if (c) { p }] *)
Definition when (c : bool) (p : prog unit) : prog unit :=
  if c then p else ret tt.

(** [for (int i = i0; i < i0 + n; ++i) body(i)].  The bound of the loops
    of [main.c] is the [int] constant [NUM_EXECUTIONS], so [i] never
    leaves the range of [int]. *)
Fixpoint for_loop (i0 n : nat) (body : nat -> prog unit) : prog unit :=
  match n with
  | O => ret tt
  | S n' => body i0 ;; for_loop (S i0) n' body
  end.

(** [while (cond) body], cut off after [fuel] evaluations of [cond]. *)
Fixpoint while_loop (fuel : nat) (cond : prog bool) (body : prog unit) : prog unit :=
  match fuel with
  | O => fun w => (Timeout, w)
  | S fuel' =>
      c <- cond ;;
      if c then body ;; while_loop fuel' cond body else ret tt
  end.

(** *** The C library *)

Definition printf (format : string) (args : list arg) : prog unit := fun w =>
  (Done tt, emit (Printf (Fmt format args)) w).

Definition getchar : prog unit := fun w => (Done tt, emit Getchar w).

Definition exit (status : Z) : prog unit := fun w => (Exit status, w).

Definition remove (path : string) : prog unit := fun w =>
  (Done tt, emit (Remove path) (set_db (sq_remove path (w_db w)) w)).

(** [clock()]; it returns -1 when the processor time is not available. *)
Definition clock : prog Z := fun w =>
  match w_clock w with
  | [] => (Done (-1), emit (Clock (-1)) w)
  | t :: ts => (Done t, emit (Clock t) (World (w_db w) (w_rand w) ts (w_out w)))
  end.

Definition rand : prog Z := fun w =>
  (Done (rand_seq (w_rand w)), World (w_db w) (S (w_rand w)) (w_clock w) (w_out w)).

(** Writing the string [s] and its terminating NUL into a [char[25]]:
    with more than 24 characters the write goes past the end of the
    array. *)
Definition write_key (s : string) : prog string := fun w =>
  if (String.length s <? KEY_SIZE)%nat then (Done s, w) else (Undefined, w).

(** [sprintf(key, format, i)] *)
Definition sprintf_key (format : string) (i : nat) : prog string :=
  write_key (sprintf_d format (Z.of_nat i)).

(** [strcpy(row.key, src)], undefined for a NULL source and for one that
    does not fit [row.key]. *)
Definition strcpy_key (src : option string) : prog string :=
  match src with
  | Some s => write_key s
  | None => fun w => (Undefined, w)
  end.

(** *** The SQLite API, on the connection [_db] *)

Definition api (c : api_call) (op : Conn -> Z * Conn) : prog Z := fun w =>
  let '(rc, s) := op (w_db w) in (Done rc, emit (Call c rc) (set_db s w)).

Definition sqlite3_open (path : string) : prog Z :=
  api (Open path) (sq_open path).
Definition sqlite3_close : prog Z :=
  api Close sq_close.
Definition sqlite3_exec (sql : text) : prog Z :=
  api (Exec sql) (sq_exec sql).
Definition sqlite3_prepare_v3 (sql : text) : prog (Z * sqlite3_stmt) := fun w =>
  let '(rc, id, s) := sq_prepare sql (w_db w) in
  (Done (rc, Stmt sql id), emit (Call (Prepare sql) rc) (set_db s w)).
Definition sqlite3_bind_text (st : sqlite3_stmt) (idx : Z) (s : string) : prog Z :=
  api (BindText st idx s) (sq_bind_text (stmt_id st) idx s).
Definition sqlite3_bind_double (st : sqlite3_stmt) (idx : Z) (d : float) : prog Z :=
  api (BindDouble st idx d) (sq_bind_double (stmt_id st) idx d).
Definition sqlite3_bind_int64 (st : sqlite3_stmt) (idx : Z) (n : Z) : prog Z :=
  api (BindInt64 st idx n) (sq_bind_int64 (stmt_id st) idx n).
Definition sqlite3_step (st : sqlite3_stmt) : prog Z :=
  api (Step st) (sq_step (stmt_id st)).
Definition sqlite3_clear_bindings (st : sqlite3_stmt) : prog Z :=
  api (ClearBindings st) (sq_clear_bindings (stmt_id st)).
Definition sqlite3_reset (st : sqlite3_stmt) : prog Z :=
  api (Reset st) (sq_reset (stmt_id st)).
Definition sqlite3_finalize (st : sqlite3_stmt) : prog Z :=
  api (Finalize st) (sq_finalize (stmt_id st)).
Definition sqlite3_column_text (st : sqlite3_stmt) (col : Z) : prog (option string) := fun w =>
  let r := sq_column_text (stmt_id st) col (w_db w) in
  (Done r, emit (ColumnText st col r) w).
Definition sqlite3_column_double (st : sqlite3_stmt) (col : Z) : prog float := fun w =>
  let d := sq_column_double (stmt_id st) col (w_db w) in
  (Done d, emit (ColumnDouble st col d) w).
Definition sqlite3_column_int64 (st : sqlite3_stmt) (col : Z) : prog Z := fun w =>
  let n := sq_column_int64 (stmt_id st) col (w_db w) in
  (Done n, emit (ColumnInt64 st col n) w).
Definition sqlite3_errmsg : prog string := fun w =>
  let m := sq_errmsg (w_db w) in (Done m, emit (Errmsg m) w).

(** ** Part 3: the functions of [main.c] *)

(** The SQL texts of the source. *)
Definition sql_create : text :=
  Fmt "CREATE TABLE IF NOT EXISTS Test(key TEXT, num1 FLOAT, num2 FLOAT, num3 FLOAT, num4 FLOAT, PRIMARY KEY(key) );" [].
Definition sql_begin : text := Fmt "BEGIN TRANSACTION;" [].
Definition sql_commit : text := Fmt "COMMIT TRANSACTION;" [].
Definition sql_insert_values (k : string) (n1 n2 n3 n4 : float) : text :=
  Fmt "INSERT INTO Test(key, num1, num2, num3, num4) VALUES('%s', %f, %f, %f, %f);"
      [AStr k; ADbl n1; ADbl n2; ADbl n3; ADbl n4].
Definition sql_insert : text :=
  Fmt "INSERT INTO Test(key, num1, num2, num3, num4) VALUES(?, ?, ?, ?, ?);" [].
Definition sql_select_key : text :=
  Fmt "SELECT key, num1, num2, num3, num4 FROM Test ORDER BY key;" [].
Definition sql_update_key : text :=
  Fmt "UPDATE Test SET num1 = ?, num2 = ?, num3 = ?, num4 = ? WHERE key = ?;" [].
Definition sql_select_rowid : text :=
  Fmt "SELECT _rowid_, num1, num2, num3, num4 FROM Test ORDER BY _rowid_;" [].
Definition sql_update_rowid : text :=
  Fmt "UPDATE Test SET num1 = ?, num2 = ?, num3 = ?, num4 = ? WHERE _rowid_ = ?;" [].

Definition die_db_error : prog unit :=
  msg <- sqlite3_errmsg ;;
  printf "SQLite Error - %s\n" [AStr msg] ;;
  printf "PRESS ANY KEY TO EXIT.\n" [] ;;
  getchar ;;
  exit (-1).

Definition open_database : prog unit :=
  remove DB_FILE_PATH ;;
  rc <- sqlite3_open DB_FILE_PATH ;;
  when (negb (rc =? SQLITE_OK)) die_db_error.

Definition close_database : prog unit :=
  rc <- sqlite3_close ;;
  when (negb (rc =? SQLITE_OK)) die_db_error.

Definition setup_test : prog unit :=
  rc <- sqlite3_exec sql_create ;;
  when (negb (rc =? SQLITE_OK)) die_db_error.

Definition rand_double : prog float :=
  r <- rand ;;
  ret (rand_double_of RAND_MAX r).

(** The loop bodies are definitions of their own, so that lemmas can name
    them; [i] is the loop variable. *)
Definition insert_rows_body (i : nat) : prog unit :=
  key_ <- sprintf_key "%d" i ;;
  n1 <- rand_double ;;
  n2 <- rand_double ;;
  n3 <- rand_double ;;
  n4 <- rand_double ;;
  rc <- sqlite3_exec (sql_insert_values key_ n1 n2 n3 n4) ;;
  when (negb (rc =? SQLITE_OK)) die_db_error.

Definition insert_rows : prog unit :=
  for_loop 0 NUM_EXECUTIONS insert_rows_body.

Definition insert_rows_xact_body (i : nat) : prog unit :=
  key_ <- sprintf_key "K-%d" i ;;
  n1 <- rand_double ;;
  n2 <- rand_double ;;
  n3 <- rand_double ;;
  n4 <- rand_double ;;
  rc <- sqlite3_exec (sql_insert_values key_ n1 n2 n3 n4) ;;
  when (negb (rc =? SQLITE_OK)) die_db_error.

Definition insert_rows_xact : prog unit :=
  rc <- sqlite3_exec sql_begin ;;
  when (negb (rc =? SQLITE_OK)) die_db_error ;;
  for_loop 0 NUM_EXECUTIONS insert_rows_xact_body ;;
  rc <- sqlite3_exec sql_commit ;;
  when (negb (rc =? SQLITE_OK)) die_db_error.

Definition insert_rows_xact_prepared_body (stmt : sqlite3_stmt) (i : nat) : prog unit :=
  key_ <- sprintf_key "K-%d" i ;;
  n1 <- rand_double ;;
  n2 <- rand_double ;;
  n3 <- rand_double ;;
  n4 <- rand_double ;;
  sqlite3_bind_text stmt 1 key_ ;;
  sqlite3_bind_double stmt 2 n1 ;;
  sqlite3_bind_double stmt 3 n2 ;;
  sqlite3_bind_double stmt 4 n3 ;;
  sqlite3_bind_double stmt 5 n4 ;;
  rc <- sqlite3_step stmt ;;
  when (negb (rc =? SQLITE_DONE)) die_db_error ;;
  sqlite3_clear_bindings stmt ;;
  sqlite3_reset stmt ;;
  ret tt.

Definition insert_rows_xact_prepared : prog unit :=
  rc <- sqlite3_exec sql_begin ;;
  when (negb (rc =? SQLITE_OK)) die_db_error ;;
  r <- sqlite3_prepare_v3 sql_insert ;;
  let '(rc, stmt) := r in
  when (negb (rc =? SQLITE_OK)) die_db_error ;;
  for_loop 0 NUM_EXECUTIONS (insert_rows_xact_prepared_body stmt) ;;
  rc <- sqlite3_exec sql_commit ;;
  when (negb (rc =? SQLITE_OK)) die_db_error ;;
  sqlite3_finalize stmt ;;
  ret tt.

Definition setup_update_test : prog unit :=
  setup_test ;;
  insert_rows_xact_prepared.

(** The condition of the two [while] loops:
    [(rc = sqlite3_step(sel_stmt)) == SQLITE_ROW]. *)
Definition select_next (sel_stmt : sqlite3_stmt) : prog bool :=
  rc <- sqlite3_step sel_stmt ;;
  ret (rc =? SQLITE_ROW).

(** [row.rowid] is never assigned in [update_rows_pk]; the model puts 0
    there, and nothing reads it. *)
Definition update_rows_pk_body (sel_stmt up_stmt : sqlite3_stmt) : prog unit :=
  tmp_key <- sqlite3_column_text sel_stmt 0 ;;
  key_ <- strcpy_key tmp_key ;;
  n1 <- sqlite3_column_double sel_stmt 1 ;;
  n2 <- sqlite3_column_double sel_stmt 2 ;;
  n3 <- sqlite3_column_double sel_stmt 3 ;;
  n4 <- sqlite3_column_double sel_stmt 4 ;;
  let row := Test_t 0 key_ (n1 + 1) (n2 + 1) (n3 + 1) (n4 + 1) in
  sqlite3_bind_double up_stmt 1 (num1 row) ;;
  sqlite3_bind_double up_stmt 2 (num2 row) ;;
  sqlite3_bind_double up_stmt 3 (num3 row) ;;
  sqlite3_bind_double up_stmt 4 (num4 row) ;;
  sqlite3_bind_text up_stmt 5 (key row) ;;
  up_rc <- sqlite3_step up_stmt ;;
  when (negb (up_rc =? SQLITE_DONE)) die_db_error ;;
  sqlite3_reset up_stmt ;;
  sqlite3_clear_bindings up_stmt ;;
  ret tt.

Definition update_rows_pk (fuel : nat) : prog unit :=
  rc <- sqlite3_exec sql_begin ;;
  when (negb (rc =? SQLITE_OK)) die_db_error ;;
  r <- sqlite3_prepare_v3 sql_select_key ;;
  let '(rc, sel_stmt) := r in
  when (negb (rc =? SQLITE_OK)) die_db_error ;;
  r <- sqlite3_prepare_v3 sql_update_key ;;
  let '(rc, up_stmt) := r in
  when (negb (rc =? SQLITE_OK)) die_db_error ;;
  while_loop fuel (select_next sel_stmt) (update_rows_pk_body sel_stmt up_stmt) ;;
  rc <- sqlite3_exec sql_commit ;;
  when (negb (rc =? SQLITE_OK)) die_db_error ;;
  sqlite3_finalize sel_stmt ;;
  sqlite3_finalize up_stmt ;;
  ret tt.

(** [row.key] is never assigned in [update_rows_rowid]; the model puts
    the empty string there, and nothing reads it. *)
Definition update_rows_rowid_body (sel_stmt up_stmt : sqlite3_stmt) : prog unit :=
  id <- sqlite3_column_int64 sel_stmt 0 ;;
  n1 <- sqlite3_column_double sel_stmt 1 ;;
  n2 <- sqlite3_column_double sel_stmt 2 ;;
  n3 <- sqlite3_column_double sel_stmt 3 ;;
  n4 <- sqlite3_column_double sel_stmt 4 ;;
  let row := Test_t id "" (n1 + 1) (n2 + 1) (n3 + 1) (n4 + 1) in
  sqlite3_bind_double up_stmt 1 (num1 row) ;;
  sqlite3_bind_double up_stmt 2 (num2 row) ;;
  sqlite3_bind_double up_stmt 3 (num3 row) ;;
  sqlite3_bind_double up_stmt 4 (num4 row) ;;
  sqlite3_bind_int64 up_stmt 5 (rowid row) ;;
  up_rc <- sqlite3_step up_stmt ;;
  when (negb (up_rc =? SQLITE_DONE)) die_db_error ;;
  sqlite3_reset up_stmt ;;
  sqlite3_clear_bindings up_stmt ;;
  ret tt.

Definition update_rows_rowid (fuel : nat) : prog unit :=
  rc <- sqlite3_exec sql_begin ;;
  when (negb (rc =? SQLITE_OK)) die_db_error ;;
  r <- sqlite3_prepare_v3 sql_select_rowid ;;
  let '(rc, sel_stmt) := r in
  when (negb (rc =? SQLITE_OK)) die_db_error ;;
  r <- sqlite3_prepare_v3 sql_update_rowid ;;
  let '(rc, up_stmt) := r in
  when (negb (rc =? SQLITE_OK)) die_db_error ;;
  while_loop fuel (select_next sel_stmt) (update_rows_rowid_body sel_stmt up_stmt) ;;
  rc <- sqlite3_exec sql_commit ;;
  when (negb (rc =? SQLITE_OK)) die_db_error ;;
  sqlite3_finalize sel_stmt ;;
  sqlite3_finalize up_stmt ;;
  ret tt.

(** The format of a result line of the report. *)
Definition report_format : string := "%30s %12.2f %12.2f\n".

Definition time_test_execution (test_name : string) (fun_ : prog unit)
    (setup_fun : option (prog unit)) : prog unit :=
  open_database ;;
  match setup_fun with Some f => f | None => ret tt end ;;
  start <- clock ;;
  fun_ ;;
  end_ <- clock ;;
  close_database ;;
  let time_ms := (float_of_Z (end_ - start) / float_of_Z CLOCKS_PER_SEC)%float in
  printf report_format
    [AStr test_name; ADbl time_ms;
     ADbl (float_of_Z (Z.of_nat NUM_EXECUTIONS) / time_ms)%float].

(** [fuel] bounds the two [while] loops of the update functions. *)
Definition main (fuel : nat) : prog unit :=
  printf "SQLite Performance Demo\n" [] ;;
  printf "Testing with %d rows.\n\n" [AInt (Z.of_nat NUM_EXECUTIONS)] ;;
  printf "TESTING INSERTS\n" [] ;;
  printf "%-30s %-15s %-15s\n" [AStr "Test"; AStr "Time (sec)"; AStr "Rows/sec"] ;;
  printf "%.30s %.15s %.15s\n" [AStr DASHES; AStr DASHES; AStr DASHES] ;;
  printf "%30s %15s %15s\n" [AStr "Insert Rows (no xact)"; AStr "ommitted"; AStr "ommitted"] ;;
  time_test_execution "Insert Rows (xact)" insert_rows_xact (Some setup_test) ;;
  time_test_execution "Insert Rows (xact, prep)" insert_rows_xact_prepared (Some setup_test) ;;
  printf "\n" [] ;;
  printf "TESTING UPDATES\n" [] ;;
  printf "%-30s %-15s %-15s\n" [AStr "Test"; AStr "Time (sec)"; AStr "Rows/sec"] ;;
  printf "%.30s %.15s %.15s\n" [AStr DASHES; AStr DASHES; AStr DASHES] ;;
  time_test_execution "Update Rows PK" (update_rows_pk fuel) (Some setup_update_test) ;;
  time_test_execution "Update Rows ROWID" (update_rows_rowid fuel) (Some setup_update_test) ;;
  printf "\n\n" [] ;;
  printf "Tests completed.\n" [] ;;
  printf "PRESS ANY KEY TO EXIT\n" [] ;;
  getchar.

End Program.

Arguments world Conn : clear implicits.
Arguments prog Conn A : clear implicits.

(** ** Part 4: environments *)

(** *** A relational model of the connection

    The model knows the statements of the harness and one table, [Test].
    It follows the SQLite documentation for them: [key] is unique, a new
    row gets the largest rowid in use plus one, a SELECT walks the table in
    the order of its ORDER BY column and reads the row it stands on when a
    column is asked for, statements of an open transaction work on a copy
    that COMMIT writes back, [sqlite3_close] refuses while a statement is
    not finalized.  Cells hold what the harness binds, a text key and four
    reals; the step of an INSERT or UPDATE whose parameters are not all
    bound with these types is refused (SQLite would store NULL), and a
    bound double is stored as it is (SQLite would store a NaN as NULL; the
    harness binds none).  [remove] and [sqlite3_open] are only ever given
    [DB_FILE_PATH], so the model has one database file. *)

Inductive value : Type :=
| VText (s : string)
| VReal (d : float)
| VInt (n : Z).

Inductive stmt_kind : Type :=
| KCreate
| KBegin
| KCommit
| KInsertValues (k : string) (n1 n2 n3 n4 : float)
| KInsert
| KSelectKey
| KUpdateKey
| KSelectRowid
| KUpdateRowid.

(** Where a SELECT stands: before its first row, or on the row with the
    given key or rowid. *)
Inductive cursor : Type :=
| Before
| AtKey (k : string)
| AtRowid (n : Z).

Record stmt_state : Type := StmtState {
  st_kind : stmt_kind;
  st_binds : gmap Z value;
  st_pos : cursor
}.

Record db : Type := Db {
  db_open : bool;                          (* [_db] is an open connection *)
  db_disk : option (list test_t);          (* committed rows; [None]: no table *)
  db_txn : option (option (list test_t));  (* rows as the open transaction sees them *)
  db_stmts : gmap nat stmt_state;          (* statements not yet finalized *)
  db_next : nat;                           (* next statement identifier *)
  db_err : string                          (* message of the last error *)
}.

Section Relational.
Context {E : Env}.

Definition parse_sql (q : text) : option stmt_kind :=
  match fmt_args q with
  | [] =>
      if String.eqb (fmt q) (fmt sql_create) then Some KCreate
      else if String.eqb (fmt q) (fmt sql_begin) then Some KBegin
      else if String.eqb (fmt q) (fmt sql_commit) then Some KCommit
      else if String.eqb (fmt q) (fmt sql_insert) then Some KInsert
      else if String.eqb (fmt q) (fmt sql_select_key) then Some KSelectKey
      else if String.eqb (fmt q) (fmt sql_update_key) then Some KUpdateKey
      else if String.eqb (fmt q) (fmt sql_select_rowid) then Some KSelectRowid
      else if String.eqb (fmt q) (fmt sql_update_rowid) then Some KUpdateRowid
      else None
  | [AStr k; ADbl n1; ADbl n2; ADbl n3; ADbl n4] =>
      if String.eqb (fmt q) (fmt (sql_insert_values "" 0 0 0 0))
      then Some (KInsertValues k (text_real n1) (text_real n2) (text_real n3) (text_real n4))
      else None
  | _ => None
  end.

(** Number of [?] parameters. *)
Definition nparams (k : stmt_kind) : Z :=
  match k with
  | KInsert | KUpdateKey | KUpdateRowid => 5
  | _ => 0
  end.

(** The rows the next statement sees. *)
Definition view (d : db) : option (list test_t) :=
  match db_txn d with
  | Some t => t
  | None => db_disk d
  end.

Definition set_view (t : option (list test_t)) (d : db) : db :=
  match db_txn d with
  | Some _ => Db (db_open d) (db_disk d) (Some t) (db_stmts d) (db_next d) (db_err d)
  | None => Db (db_open d) t None (db_stmts d) (db_next d) (db_err d)
  end.

Definition set_err (m : string) (d : db) : db :=
  Db (db_open d) (db_disk d) (db_txn d) (db_stmts d) (db_next d) m.

Definition set_stmts (m : gmap nat stmt_state) (d : db) : db :=
  Db (db_open d) (db_disk d) (db_txn d) m (db_next d) (db_err d).

Definition has_key (k : string) (rows : list test_t) : bool :=
  existsb (fun r => String.eqb (key r) k) rows.

(** The rowid of a new row: one more than the largest in use, 1 in an
    empty table. *)
Definition next_rowid (rows : list test_t) : Z :=
  match rows with
  | [] => 1
  | r :: rs => 1 + foldr (fun r' m => Z.max (rowid r') m) (rowid r) rs
  end.

Definition set_nums (n1 n2 n3 n4 : float) (r : test_t) : test_t :=
  Test_t (rowid r) (key r) n1 n2 n3 n4.

(** The smallest element of [ks] that is greater than [pos] (any element
    when [pos] is [None]). *)
Definition next_after {K} (ltb : K -> K -> bool) (pos : option K) (ks : list K) : option K :=
  foldr (fun k best =>
           if match pos with Some p => ltb p k | None => true end
           then match best with
                | Some b => if ltb b k then Some b else Some k
                | None => Some k
                end
           else best) None ks.

Definition pos_key (c : cursor) : option string :=
  match c with AtKey k => Some k | _ => None end.

Definition pos_rowid (c : cursor) : option Z :=
  match c with AtRowid n => Some n | _ => None end.

(** The row a cursor stands on. *)
Definition current_row (c : cursor) (rows : list test_t) : option test_t :=
  match c with
  | Before => None
  | AtKey k => List.find (fun r => String.eqb (key r) k) rows
  | AtRowid n => List.find (fun r => rowid r =? n) rows
  end.

Definition rel_insert (k : string) (n1 n2 n3 n4 : float) (d : db) : Z * db :=
  match view d with
  | None => (SQLITE_ERROR, set_err "no such table: Test" d)
  | Some rows =>
      if has_key k rows
      then (SQLITE_CONSTRAINT, set_err "UNIQUE constraint failed: Test.key" d)
      else (SQLITE_OK, set_view (Some (rows ++ [Test_t (next_rowid rows) k n1 n2 n3 n4])) d)
  end.

(** Running a statement that has no parameters and returns no rows. *)
Definition rel_run (k : stmt_kind) (d : db) : Z * db :=
  match k with
  | KCreate =>
      match view d with
      | None => (SQLITE_OK, set_view (Some []) d)
      | Some _ => (SQLITE_OK, d)
      end
  | KBegin =>
      match db_txn d with
      | Some _ => (SQLITE_ERROR, set_err "cannot start a transaction within a transaction" d)
      | None => (SQLITE_OK, Db (db_open d) (db_disk d) (Some (db_disk d)) (db_stmts d) (db_next d) (db_err d))
      end
  | KCommit =>
      match db_txn d with
      | Some t => (SQLITE_OK, Db (db_open d) t None (db_stmts d) (db_next d) (db_err d))
      | None => (SQLITE_ERROR, set_err "cannot commit - no transaction is active" d)
      end
  | KInsertValues k n1 n2 n3 n4 => rel_insert k n1 n2 n3 n4 d
  | _ => (SQLITE_MISUSE, set_err "statement not supported by sqlite3_exec in this model" d)
  end.

Definition rel_remove (path : string) (d : db) : db :=
  Db (db_open d) None (db_txn d) (db_stmts d) (db_next d) (db_err d).

(** [sqlite3_open] makes [_db] a new connection to the file. *)
Definition rel_open (path : string) (d : db) : Z * db :=
  (SQLITE_OK, Db true (db_disk d) None ∅ 0 "not an error").

Definition rel_close (d : db) : Z * db :=
  if db_open d then
    if decide (db_stmts d = ∅)
    then (SQLITE_OK, Db false (db_disk d) None ∅ (db_next d) (db_err d))
    else (SQLITE_BUSY, set_err "unable to close due to unfinalized statements or unfinished backups" d)
  else (SQLITE_OK, d).

Definition rel_exec (q : text) (d : db) : Z * db :=
  if db_open d then
    match parse_sql q with
    | Some k => rel_run k d
    | None => (SQLITE_ERROR, set_err "syntax error" d)
    end
  else (SQLITE_MISUSE, d).

Definition rel_prepare (q : text) (d : db) : Z * nat * db :=
  if db_open d then
    match parse_sql q with
    | Some k =>
        match k, view d with
        | (KInsert | KSelectKey | KUpdateKey | KSelectRowid | KUpdateRowid | KInsertValues _ _ _ _ _), None =>
            (SQLITE_ERROR, O, set_err "no such table: Test" d)
        | _, _ =>
            (SQLITE_OK, db_next d,
             Db (db_open d) (db_disk d) (db_txn d)
                (<[db_next d := StmtState k ∅ Before]> (db_stmts d)) (S (db_next d)) (db_err d))
        end
    | None => (SQLITE_ERROR, O, set_err "syntax error" d)
    end
  else (SQLITE_MISUSE, O, d).

Definition rel_bind (id : nat) (idx : Z) (v : value) (d : db) : Z * db :=
  match db_stmts d !! id with
  | Some st =>
      if (1 <=? idx) && (idx <=? nparams (st_kind st))
      then (SQLITE_OK, set_stmts (<[id := StmtState (st_kind st) (<[idx := v]> (st_binds st)) (st_pos st)]> (db_stmts d)) d)
      else (SQLITE_RANGE, set_err "column index out of range" d)
  | None => (SQLITE_MISUSE, d)
  end.

Definition set_pos (id : nat) (st : stmt_state) (c : cursor) (d : db) : db :=
  set_stmts (<[id := StmtState (st_kind st) (st_binds st) c]> (db_stmts d)) d.

Definition rel_step (id : nat) (d : db) : Z * db :=
  match db_stmts d !! id with
  | None => (SQLITE_MISUSE, d)
  | Some st =>
      let b := st_binds st in
      match st_kind st with
      | KInsert =>
          match b !! 1, b !! 2, b !! 3, b !! 4, b !! 5 with
          | Some (VText k), Some (VReal n1), Some (VReal n2), Some (VReal n3), Some (VReal n4) =>
              let '(rc, d') := rel_insert k n1 n2 n3 n4 d in
              (if rc =? SQLITE_OK then SQLITE_DONE else rc, d')
          | _, _, _, _, _ => (SQLITE_MISMATCH, set_err "datatype mismatch" d)
          end
      | KUpdateKey =>
          match view d, b !! 1, b !! 2, b !! 3, b !! 4, b !! 5 with
          | Some rows, Some (VReal n1), Some (VReal n2), Some (VReal n3), Some (VReal n4), Some (VText k) =>
              (SQLITE_DONE,
               set_view (Some (map (fun r => if String.eqb (key r) k then set_nums n1 n2 n3 n4 r else r) rows)) d)
          | None, _, _, _, _, _ => (SQLITE_ERROR, set_err "no such table: Test" d)
          | _, _, _, _, _, _ => (SQLITE_MISMATCH, set_err "datatype mismatch" d)
          end
      | KUpdateRowid =>
          match view d, b !! 1, b !! 2, b !! 3, b !! 4, b !! 5 with
          | Some rows, Some (VReal n1), Some (VReal n2), Some (VReal n3), Some (VReal n4), Some (VInt n) =>
              (SQLITE_DONE,
               set_view (Some (map (fun r => if rowid r =? n then set_nums n1 n2 n3 n4 r else r) rows)) d)
          | None, _, _, _, _, _ => (SQLITE_ERROR, set_err "no such table: Test" d)
          | _, _, _, _, _, _ => (SQLITE_MISMATCH, set_err "datatype mismatch" d)
          end
      | KSelectKey =>
          match view d with
          | Some rows =>
              match next_after String.ltb (pos_key (st_pos st)) (map key rows) with
              | Some k => (SQLITE_ROW, set_pos id st (AtKey k) d)
              | None => (SQLITE_DONE, set_pos id st Before d)
              end
          | None => (SQLITE_ERROR, set_err "no such table: Test" d)
          end
      | KSelectRowid =>
          match view d with
          | Some rows =>
              match next_after Z.ltb (pos_rowid (st_pos st)) (map rowid rows) with
              | Some n => (SQLITE_ROW, set_pos id st (AtRowid n) d)
              | None => (SQLITE_DONE, set_pos id st Before d)
              end
          | None => (SQLITE_ERROR, set_err "no such table: Test" d)
          end
      | k =>
          let '(rc, d') := rel_run k d in
          (if rc =? SQLITE_OK then SQLITE_DONE else rc, d')
      end
  end.

(** The row under the cursor of statement [id]. *)
Definition rel_row (id : nat) (d : db) : option test_t :=
  match db_stmts d !! id, view d with
  | Some st, Some rows => current_row (st_pos st) rows
  | _, _ => None
  end.

Definition rel_column_text (id : nat) (col : Z) (d : db) : option string :=
  match db_stmts d !! id, rel_row id d with
  | Some st, Some r =>
      match st_kind st with
      | KSelectKey => if col =? 0 then Some (key r) else None
      | _ => None
      end
  | _, _ => None
  end.

Definition rel_column_double (id : nat) (col : Z) (d : db) : float :=
  match rel_row id d with
  | Some r =>
      if col =? 1 then num1 r
      else if col =? 2 then num2 r
      else if col =? 3 then num3 r
      else if col =? 4 then num4 r
      else 0%float
  | None => 0%float
  end.

Definition rel_column_int64 (id : nat) (col : Z) (d : db) : Z :=
  match db_stmts d !! id, rel_row id d with
  | Some st, Some r =>
      match st_kind st with
      | KSelectRowid => if col =? 0 then rowid r else 0
      | _ => 0
      end
  | _, _ => 0
  end.

Definition rel_clear_bindings (id : nat) (d : db) : Z * db :=
  match db_stmts d !! id with
  | Some st => (SQLITE_OK, set_stmts (<[id := StmtState (st_kind st) ∅ (st_pos st)]> (db_stmts d)) d)
  | None => (SQLITE_MISUSE, d)
  end.

Definition rel_reset (id : nat) (d : db) : Z * db :=
  match db_stmts d !! id with
  | Some st => (SQLITE_OK, set_pos id st Before d)
  | None => (SQLITE_MISUSE, d)
  end.

Definition rel_finalize (id : nat) (d : db) : Z * db :=
  match db_stmts d !! id with
  | Some st => (SQLITE_OK, set_stmts (delete id (db_stmts d)) d)
  | None => (SQLITE_MISUSE, d)
  end.

#[export] Instance rel_sqlite3 : Sqlite3 db := {
  sq_remove := rel_remove;
  sq_open := rel_open;
  sq_close := rel_close;
  sq_exec := rel_exec;
  sq_prepare := rel_prepare;
  sq_bind_text id idx s := rel_bind id idx (VText s);
  sq_bind_double id idx v := rel_bind id idx (VReal v);
  sq_bind_int64 id idx n := rel_bind id idx (VInt n);
  sq_step := rel_step;
  sq_column_text := rel_column_text;
  sq_column_double := rel_column_double;
  sq_column_int64 := rel_column_int64;
  sq_clear_bindings := rel_clear_bindings;
  sq_reset := rel_reset;
  sq_finalize := rel_finalize;
  sq_errmsg := db_err
}.

End Relational.

(** *** A scripted connection

    It answers every call that returns a result code with the next code of
    a given list ([SQLITE_MISUSE] once the list is used up) and has no
    data: it shows what the harness does with any sequence of results. *)

Definition scripted_reply (s : list Z) : Z * list Z :=
  match s with
  | [] => (SQLITE_MISUSE, [])
  | rc :: s' => (rc, s')
  end.

#[export] Instance scripted_sqlite3 : Sqlite3 (list Z) := {
  sq_remove _ s := s;
  sq_open _ := scripted_reply;
  sq_close := scripted_reply;
  sq_exec _ := scripted_reply;
  sq_prepare _ s := let '(rc, s') := scripted_reply s in (rc, O, s');
  sq_bind_text _ _ _ := scripted_reply;
  sq_bind_double _ _ _ := scripted_reply;
  sq_bind_int64 _ _ _ := scripted_reply;
  sq_step _ := scripted_reply;
  sq_column_text _ _ _ := Some "K-0"%string;
  sq_column_double _ _ _ := 0%float;
  sq_column_int64 _ _ _ := 0;
  sq_clear_bindings _ := scripted_reply;
  sq_reset _ := scripted_reply;
  sq_finalize _ := scripted_reply;
  sq_errmsg _ := "scripted failure"%string
}.

(** *** A small build for examples

    Three rows, and the constants and generator of the Microsoft C runtime:
    [RAND_MAX] is 32767, [CLOCKS_PER_SEC] is 1000, and [rand()] is the
    linear congruential generator [seed = seed * 214013 + 2531011] that
    returns bits 16 to 30 of the seed. *)

Fixpoint msvc_seed (k : nat) : Z :=
  match k with
  | O => 1
  | S k' => (msvc_seed k' * 214013 + 2531011) mod 2 ^ 32
  end.

Definition small_env : Env := {|
  NUM_EXECUTIONS := 3;
  RAND_MAX := 32767;
  CLOCKS_PER_SEC := 1000;
  rand_seq k := (msvc_seed (S k) / 2 ^ 16) mod 2 ^ 15;
  text_real d := d
|}.

(** A world before the process has done anything. *)
Definition start {Conn : Type} (c : Conn) (clocks : list Z) : world Conn :=
  World c 0 clocks [].

(** No database file, no connection. *)
Definition no_db : db := Db false None None ∅ 0 "".

(** ** Part 5: properties *)

(** *** Keys *)

(** The three insert functions. *)
Inductive strategy : Type :=
| InsertRows
| InsertRowsXact
| InsertRowsXactPrepared.

(** The format of the [sprintf(key, ...)] of each insert function. *)
Definition key_format (s : strategy) : string :=
  match s with
  | InsertRows => "%d"
  | InsertRowsXact => "K-%d"
  | InsertRowsXactPrepared => "K-%d"
  end.

(** The text before the number in that format. *)
Definition key_prefix (s : strategy) : string :=
  match s with
  | InsertRows => ""
  | InsertRowsXact => "K-"
  | InsertRowsXactPrepared => "K-"
  end.

(** The key the loop of an insert function writes for index [i]. *)
Definition generated_key (s : strategy) (i : nat) : string :=
  sprintf_d (key_format s) (Z.of_nat i).

Definition strategy_prog {Conn : Type} {SQ : Sqlite3 Conn} {E : Env} (s : strategy) : prog Conn unit :=
  match s with
  | InsertRows => insert_rows
  | InsertRowsXact => insert_rows_xact
  | InsertRowsXactPrepared => insert_rows_xact_prepared
  end.

Lemma append_cons (c : ascii) (s t : string) : String c s +:+ t = String c (s +:+ t).
Proof. reflexivity. Qed.

Lemma append_empty_r (s : string) : s +:+ "" = s.
Proof. induction s as [|c s IH]; [done|]. by rewrite append_cons, IH. Qed.

Lemma length_append (s t : string) :
  String.length (s +:+ t) = (String.length s + String.length t)%nat.
Proof. induction s as [|c s IH]; [done|]. rewrite append_cons. simpl. by rewrite IH. Qed.

Lemma generated_key_prefix (s : strategy) (i : nat) :
  generated_key s i = key_prefix s +:+ pretty (Z.of_nat i).
Proof.
  destruct s; unfold generated_key; simpl;
    by rewrite ?append_cons, append_empty_r.
Qed.

Lemma generated_key_inj (s : strategy) (i j : nat) :
  generated_key s i = generated_key s j -> i = j.
Proof.
  rewrite !generated_key_prefix. intros H%(inj (String.app _)).
  apply Nat2Z.inj. by apply (inj pretty).
Qed.

Lemma generated_keys_NoDup (s : strategy) (i0 n : nat) :
  NoDup (map (generated_key s) (seq i0 n)).
Proof.
  apply NoDup_fmap_2_strong; [|apply NoDup_seq].
  intros i j _ _. apply generated_key_inj.
Qed.

(** The decimal representation of a number below [10 ^ k] has at most
    [k] digits. *)
Lemma pretty_N_go_length (k : nat) : forall (n : N) (s : string),
  (n < 10 ^ N.of_nat k)%N ->
  (String.length (pretty_N_go n s) <= k + String.length s)%nat.
Proof.
  induction k as [|k IH]; intros n s Hn.
  - assert (n = 0%N) as -> by (simpl in Hn; lia). by rewrite pretty_N_go_0.
  - destruct (decide (n = 0%N)) as [->|Hpos].
    + rewrite pretty_N_go_0. lia.
    + rewrite pretty_N_go_step by lia.
      etrans; [apply IH|simpl; lia].
      apply N.Div0.div_lt_upper_bound.
      rewrite Nat2N.inj_succ, N.pow_succ_r' in Hn. lia.
Qed.

Lemma pretty_nat_length (k i : nat) :
  (0 < k)%nat -> Z.of_nat i < 10 ^ Z.of_nat k ->
  (String.length (pretty (Z.of_nat i)) <= k)%nat.
Proof.
  intros Hk Hi. destruct i as [|i]; [simpl; lia|].
  change (Z.of_nat (S i)) with (Z.pos (Pos.of_succ_nat i)) in *.
  unfold pretty, pretty_Z, pretty_positive, pretty, pretty_N.
  rewrite decide_False by done.
  etrans; [apply (pretty_N_go_length k)|simpl; lia].
  apply N2Z.inj_lt. rewrite N2Z.inj_pow, nat_N_Z. exact Hi.
Qed.

Lemma generated_key_length (s : strategy) (k i : nat) :
  (0 < k)%nat -> Z.of_nat i < 10 ^ Z.of_nat k ->
  (String.length (generated_key s i) <= 2 + k)%nat.
Proof.
  intros Hk Hi. rewrite generated_key_prefix, length_append.
  pose proof (pretty_nat_length k i Hk Hi). destruct s; simpl; lia.
Qed.

(** *** Which keys a run hands to the connection

    These lemmas hold for every connection: they look only at the calls
    the program makes. *)

(** The key of a row that a call gives to SQLite: the [%s] argument of an
    executed INSERT text, or the text bound to parameter 1. *)
Definition sent_key (e : event) : option string :=
  match e with
  | Call (Exec (Fmt _ (AStr k :: _))) _ => Some k
  | Call (BindText _ 1 k) _ => Some k
  | _ => None
  end.

Definition sent_keys (t : list event) : list string := omap sent_key t.

Lemma sent_keys_snoc (t : list event) (e : event) :
  sent_keys (t ++ [e])
  = sent_keys t ++ match sent_key e with Some k => [k] | None => [] end.
Proof.
  unfold sent_keys. rewrite omap_app. simpl. by destruct (sent_key e).
Qed.

Section Keys.
Context {Conn : Type} {SQ : Sqlite3 Conn} {E : Env}.

(** [sends f i0 n p]: the keys [p] sends are [f i0, f (i0+1), ...], at
    most [n] of them, and exactly [n] when [p] returns. *)
Definition sends {A} (f : nat -> string) (i0 n : nat) (p : prog Conn A) : Prop :=
  forall w, exists m, (m <= n)%nat /\
    sent_keys (w_out (snd (p w))) = sent_keys (w_out w) ++ map f (seq i0 m) /\
    (forall a, fst (p w) = Done a -> m = n).

Lemma sends_silent {A} f i0 (p : prog Conn A) :
  (forall w, sent_keys (w_out (snd (p w))) = sent_keys (w_out w)) ->
  sends f i0 0 p.
Proof.
  intros Hp w. exists O. rewrite Hp. simpl. by rewrite app_nil_r.
Qed.

Lemma sends_one {A} f i0 (p : prog Conn A) :
  (forall w, sent_keys (w_out (snd (p w))) = sent_keys (w_out w) ++ [f i0]) ->
  sends f i0 1 p.
Proof. intros Hp w. exists 1%nat. rewrite Hp. done. Qed.

Lemma sends_bind {A B} f i0 n n' (p : prog Conn A) (k : A -> prog Conn B) :
  sends f i0 n p ->
  (forall a, sends f (i0 + n) n' (k a)) ->
  sends f i0 (n + n') (bind p k).
Proof.
  intros Hp Hk w. unfold bind.
  destruct (Hp w) as (m & Hm & Hout & Hdone).
  destruct (p w) as [[a| | |] w1]; simpl in *;
    try (exists m; split; [lia|]; split; [done|]; intros; discriminate).
  specialize (Hdone a eq_refl) as ->.
  destruct (Hk a w1) as (m' & Hm' & Hout' & Hdone').
  exists (n + m')%nat. split; [lia|]. split.
  - rewrite Hout', Hout, seq_app, map_app. by rewrite app_assoc.
  - intros b Hb. by rewrite (Hdone' b Hb).
Qed.

Lemma sends_bind_silent {A B} f i0 n (p : prog Conn A) (k : A -> prog Conn B) :
  sends f i0 0 p ->
  (forall a, sends f i0 n (k a)) ->
  sends f i0 n (bind p k).
Proof.
  intros Hp Hk. apply (sends_bind f i0 0 n); [done|].
  intros a. rewrite Nat.add_0_r. apply Hk.
Qed.

Lemma sends_bind_then_silent {A B} f i0 n (p : prog Conn A) (k : A -> prog Conn B) :
  sends f i0 n p ->
  (forall a, sends f (i0 + n) 0 (k a)) ->
  sends f i0 n (bind p k).
Proof.
  intros Hp Hk. pose proof (sends_bind f i0 n 0 p k Hp Hk) as H.
  by rewrite Nat.add_0_r in H.
Qed.

Lemma sends_ret {A} f i0 (a : A) : sends f i0 0 (ret a).
Proof. by apply sends_silent. Qed.

Lemma sends_api f i0 c op :
  (forall rc, sent_key (Call c rc) = None) ->
  sends f i0 0 (api c op).
Proof.
  intros Hc. apply sends_silent. intros w. unfold api.
  destruct (op (w_db w)) as [rc s]; simpl.
  by rewrite sent_keys_snoc, Hc, app_nil_r.
Qed.

Lemma sends_api_key f i0 c op :
  (forall rc, sent_key (Call c rc) = Some (f i0)) ->
  sends f i0 1 (api c op).
Proof.
  intros Hc. apply sends_one. intros w. unfold api.
  destruct (op (w_db w)) as [rc s]; simpl.
  by rewrite sent_keys_snoc, Hc.
Qed.

Lemma sends_prepare f i0 q : sends f i0 0 (sqlite3_prepare_v3 q).
Proof.
  apply sends_silent. intros w. unfold sqlite3_prepare_v3.
  destruct (sq_prepare q (w_db w)) as [[rc id] s]; simpl.
  by rewrite sent_keys_snoc, app_nil_r.
Qed.

Lemma sends_die f i0 : sends f i0 0 die_db_error.
Proof.
  apply sends_silent. intros w. simpl.
  by rewrite !sent_keys_snoc, !app_nil_r.
Qed.

Lemma sends_when f i0 c : sends f i0 0 (when c die_db_error).
Proof. destruct c; [apply sends_die|apply sends_ret]. Qed.

Lemma sends_rand_double f i0 : sends f i0 0 rand_double.
Proof. by apply sends_silent. Qed.

Lemma sends_sprintf_key {B} f i0 n format i (k : string -> prog Conn B) :
  sends f i0 n (k (sprintf_d format (Z.of_nat i))) ->
  sends f i0 n (bind (sprintf_key format i) k).
Proof.
  intros Hk w. unfold bind, sprintf_key, write_key.
  destruct (_ <? _)%nat; [apply Hk|].
  exists O. simpl. rewrite app_nil_r. split; [lia|]. split; [done|]. intros; discriminate.
Qed.

Lemma sends_for_loop f (body : nat -> prog Conn unit) n : forall i0,
  (forall i, sends f i 1 (body i)) ->
  sends f i0 n (for_loop i0 n body).
Proof.
  induction n as [|n IH]; intros i0 Hbody; simpl.
  - apply sends_ret.
  - apply (sends_bind f i0 1 n); [apply Hbody|].
    intros _. rewrite Nat.add_1_r. by apply IH.
Qed.

Ltac sends_silent_call :=
  first [ apply sends_ret | apply sends_when | apply sends_rand_double
        | apply sends_prepare | apply sends_die
        | apply sends_api; intros; reflexivity ].

Ltac sends_go :=
  repeat first
    [ sends_silent_call
    | apply sends_sprintf_key
    | apply sends_bind_silent; [solve [sends_silent_call]|intros]
    | match goal with r : (Z * sqlite3_stmt)%type |- _ => destruct r end ].

(** The keys an insert function sends are the generated keys, in order. *)
Lemma strategy_sends (s : strategy) :
  sends (generated_key s) 0 NUM_EXECUTIONS (strategy_prog s).
Proof.
  destruct s; simpl.
  - unfold insert_rows. apply sends_for_loop. intros i. unfold insert_rows_body. sends_go.
    apply sends_bind_then_silent; [by apply sends_api_key|intros; sends_go].
  - unfold insert_rows_xact. sends_go.
    apply sends_bind_then_silent; [|intros; sends_go].
    apply sends_for_loop. intros i. unfold insert_rows_xact_body. sends_go.
    apply sends_bind_then_silent; [by apply sends_api_key|intros; sends_go].
  - unfold insert_rows_xact_prepared. sends_go.
    apply sends_bind_then_silent; [|intros; sends_go].
    apply sends_for_loop. intros i. unfold insert_rows_xact_prepared_body. sends_go.
    apply sends_bind_then_silent; [by apply sends_api_key|intros; sends_go].
Qed.

(** When an insert function returns, it has sent the key of every index
    below [NUM_EXECUTIONS] once, in order; when it does not, those of the
    indices up to the one it stopped at. *)
Lemma strategy_sent_keys (s : strategy) (w : world Conn) :
  exists m, (m <= NUM_EXECUTIONS)%nat /\
    sent_keys (w_out (snd (strategy_prog s w)))
    = sent_keys (w_out w) ++ map (generated_key s) (seq 0 m) /\
    (fst (strategy_prog s w) = Done tt -> m = NUM_EXECUTIONS).
Proof.
  destruct (strategy_sends s w) as (m & Hm & Hout & Hdone).
  exists m. split; [done|]. split; [done|]. apply Hdone.
Qed.

End Keys.

(** *** The report lines *)

(** A result line of the report. *)
Definition is_report (e : event) : bool :=
  match e with
  | Printf t => String.eqb (fmt t) report_format
  | _ => false
  end.

(** The result line that [time_test_execution] prints for the clock
    readings [start] and [end_]. *)
Definition report_line {E : Env} (name : string) (start end_ : Z) : event :=
  let time_ms := (float_of_Z (end_ - start) / float_of_Z CLOCKS_PER_SEC)%float in
  Printf (Fmt report_format
              [AStr name; ADbl time_ms;
               ADbl (float_of_Z (Z.of_nat NUM_EXECUTIONS) / time_ms)%float]).

Section Report.
Context {Conn : Type} {SQ : Sqlite3 Conn} {E : Env}.

(** [emits P p]: every event [p] adds satisfies [P]. *)
Definition emits {A} (P : event -> Prop) (p : prog Conn A) : Prop :=
  forall w, Forall P (w_out w) -> Forall P (w_out (snd (p w))).

Lemma emits_ret {A} P (a : A) : emits P (ret a).
Proof. by intros w. Qed.

Lemma emits_bind {A B} P (p : prog Conn A) (k : A -> prog Conn B) :
  emits P p -> (forall a, emits P (k a)) -> emits P (bind p k).
Proof.
  intros Hp Hk w Hw. unfold bind. specialize (Hp w Hw).
  destruct (p w) as [[a| | |] w1]; simpl in *; try done. by apply Hk.
Qed.

Lemma emits_event {A} P (p : prog Conn A) :
  (forall w, w_out (snd (p w)) = w_out w \/
             exists e, P e /\ w_out (snd (p w)) = w_out w ++ [e]) ->
  emits P p.
Proof.
  intros Hp w Hw. destruct (Hp w) as [->|(e & He & ->)]; [done|].
  apply Forall_app. split; [done|]. by constructor.
Qed.

Lemma emits_api P c op : (forall rc, P (Call c rc)) -> emits P (api c op).
Proof.
  intros Hc. apply emits_event. intros w. right. unfold api.
  destruct (op (w_db w)) as [rc s]. by exists (Call c rc).
Qed.

Lemma emits_prepare P q :
  (forall rc, P (Call (Prepare q) rc)) -> emits P (sqlite3_prepare_v3 q).
Proof.
  intros Hc. apply emits_event. intros w. right. unfold sqlite3_prepare_v3.
  destruct (sq_prepare q (w_db w)) as [[rc id] s]. by exists (Call (Prepare q) rc).
Qed.

Lemma emits_printf P format args :
  P (Printf (Fmt format args)) -> emits P (printf format args).
Proof. intros HP. apply emits_event. intros w. right. by eexists. Qed.

Lemma emits_quiet {A} P (p : prog Conn A) :
  (forall w, w_out (snd (p w)) = w_out w) -> emits P p.
Proof. intros Hp. apply emits_event. intros w. by left. Qed.

Lemma emits_write_key P s : emits P (write_key s).
Proof. apply emits_quiet. intros w. unfold write_key. by destruct (_ <? _)%nat. Qed.

Lemma emits_clock P : (forall t, P (Clock t)) -> emits P clock.
Proof.
  intros HP. apply emits_event. intros w. right. unfold clock.
  destruct (w_clock w) as [|t ts]; by eexists.
Qed.


Lemma emits_while_loop P (cond : prog Conn bool) (body : prog Conn unit) fuel :
  emits P cond -> emits P body -> emits P (while_loop fuel cond body).
Proof.
  intros Hc Hb. induction fuel as [|fuel IH]; simpl; [by intros w|].
  apply emits_bind; [done|]. intros [|]; [|apply emits_ret].
  apply emits_bind; [done|]. by intros _.
Qed.







End Report.

(** *** Fatal errors *)

(** A statement that returns rows. *)
Definition is_select (q : text) : bool := String.prefix "SELECT" (fmt q).

(** A call whose result [main.c] compares with the success code, with a
    result that is not that code: anything but [SQLITE_OK] from open,
    close, exec and prepare, anything but [SQLITE_DONE] from the step of a
    statement that is not a SELECT. *)
Definition checked_failure (e : event) : bool :=
  match e with
  | Call (Open _) rc | Call Close rc | Call (Exec _) rc | Call (Prepare _) rc =>
      negb (rc =? SQLITE_OK)
  | Call (Step st) rc => negb (is_select (stmt_sql st)) && negb (rc =? SQLITE_DONE)
  | _ => false
  end.

(** What [die_db_error] does before it calls [exit(-1)]. *)
Definition die_events (msg : string) : list event :=
  [Errmsg msg;
   Printf (Fmt "SQLite Error - %s\n" [AStr msg]);
   Printf (Fmt "PRESS ANY KEY TO EXIT.\n" []);
   Getchar].

Definition clean (t : list event) : Prop :=
  Forall (fun e => checked_failure e = false) t.

Lemma clean_cons e t : checked_failure e = false -> clean t -> clean (e :: t).
Proof. intros He Ht. by constructor. Qed.

Lemma clean_die_events msg : clean (die_events msg).
Proof. by repeat constructor. Qed.

(** A failure that stands between two clean stretches is at one place
    only. *)
Lemma failure_position (pre t0 post d : list event) (e e' : event) :
  pre ++ e :: post = t0 ++ e' :: d ->
  clean t0 -> clean d -> checked_failure e = true ->
  pre = t0 /\ e = e' /\ post = d.
Proof.
  revert t0. induction pre as [|x pre IH]; intros [|y t0] Heq Ht0 Hd He; simpl in *.
  - by injection Heq as -> ->.
  - injection Heq as -> _. apply Forall_cons in Ht0 as [Hy _]. congruence.
  - injection Heq as -> Heq. exfalso.
    assert (e ∈ d) as Hin by (rewrite <- Heq; apply elem_of_app; right; left).
    unfold clean in Hd. rewrite Forall_forall in Hd. specialize (Hd e Hin). congruence.
  - injection Heq as -> Heq. apply Forall_cons in Ht0 as [_ Ht0].
    destruct (IH t0 Heq Ht0 Hd He) as (-> & -> & ->). done.
Qed.

Section Fatal.
Context {Conn : Type} {SQ : Sqlite3 Conn} {E : Env}.

(** [fatal_ok p]: [p] ends the process only through [die_db_error] right
    after a checked failure, with status -1, and it goes on after no
    checked failure. *)
Definition fatal_ok {A} (p : prog Conn A) : Prop :=
  forall w, exists t, w_out (snd (p w)) = w_out w ++ t /\
    match fst (p w) with
    | Exit c =>
        c = -1 /\ exists t0 e msg,
          t = t0 ++ e :: die_events msg /\ clean t0 /\ checked_failure e = true
    | _ => clean t
    end.

Lemma fatal_ext {A} (p q : prog Conn A) :
  (forall w, p w = q w) -> fatal_ok p -> fatal_ok q.
Proof. intros Heq Hp w. rewrite <- Heq. apply Hp. Qed.

Lemma bind_assoc {A B C} (p : prog Conn A) (f : A -> prog Conn B)
    (k : B -> prog Conn C) (w : world Conn) :
  bind (bind p f) k w = bind p (fun a => bind (f a) k) w.
Proof. unfold bind. by destruct (p w) as [[a| | |] w1]. Qed.

Lemma fatal_ret {A} (a : A) : fatal_ok (ret a).
Proof. intros w. exists []. simpl. split; [by rewrite app_nil_r|constructor]. Qed.

Lemma fatal_bind {A B} (p : prog Conn A) (k : A -> prog Conn B) :
  fatal_ok p -> (forall a, fatal_ok (k a)) -> fatal_ok (bind p k).
Proof.
  intros Hp Hk w. unfold bind. destruct (Hp w) as (t1 & Hout1 & Ho1).
  destruct (p w) as [[a| | |] w1]; simpl in *; try by exists t1.
  destruct (Hk a w1) as (t2 & Hout2 & Ho2). exists (t1 ++ t2).
  split; [by rewrite Hout2, Hout1, app_assoc|].
  destruct (fst (k a w1)); try by apply Forall_app.
  destruct Ho2 as (-> & t0 & e & msg & -> & Ht0 & He). split; [done|].
  exists (t1 ++ t0), e, msg. split; [by rewrite app_assoc|]. split; [|done].
  by apply Forall_app.
Qed.

(** A step that adds at most one event, not a checked failure, and
    returns. *)
Lemma fatal_event {A} (p : prog Conn A) :
  (forall w, (exists a, fst (p w) = Done a) /\
             (w_out (snd (p w)) = w_out w \/
              exists e, checked_failure e = false /\ w_out (snd (p w)) = w_out w ++ [e])) ->
  fatal_ok p.
Proof.
  intros Hp w. destruct (Hp w) as [[a Ha] [Hout|(e & He & Hout)]]; rewrite Ha.
  - exists []. rewrite app_nil_r. split; [done|constructor].
  - exists [e]. split; [done|]. by repeat constructor.
Qed.

Lemma fatal_api c op :
  (forall rc, checked_failure (Call c rc) = false) -> fatal_ok (api c op).
Proof.
  intros Hc. apply fatal_event. intros w. unfold api.
  destruct (op (w_db w)) as [rc s]; simpl. split; [by eexists|].
  right. by exists (Call c rc).
Qed.

Lemma fatal_undefined_or {A} (c : bool) (a : A) :
  fatal_ok (fun w : world Conn => if c then (Done a, w) else (Undefined, w)).
Proof.
  intros w. exists []. rewrite app_nil_r. destruct c; simpl; by split; [|constructor].
Qed.

Lemma fatal_write_key s : fatal_ok (write_key s).
Proof. apply fatal_undefined_or. Qed.

Lemma fatal_strcpy_key o : fatal_ok (strcpy_key o).
Proof.
  destruct o; [apply fatal_write_key|].
  intros w. exists []. rewrite app_nil_r. by split; [|constructor].
Qed.

Lemma fatal_timeout : fatal_ok (fun w : world Conn => (@Timeout unit, w)).
Proof. intros w. exists []. rewrite app_nil_r. by split; [|constructor]. Qed.

Lemma die_db_error_run (w : world Conn) :
  die_db_error w
  = (Exit (-1), World (w_db w) (w_rand w) (w_clock w)
                      (w_out w ++ die_events (sq_errmsg (w_db w)))).
Proof.
  unfold die_db_error, bind, sqlite3_errmsg, printf, getchar, exit, emit; simpl.
  by rewrite <- !app_assoc.
Qed.

Lemma bind_ret_l {A B} (a : A) (k : A -> prog Conn B) (w : world Conn) :
  bind (ret a) k w = k a w.
Proof. reflexivity. Qed.

Lemma bind_die {B} (k : unit -> prog Conn B) (w : world Conn) :
  bind die_db_error k w
  = (Exit (-1), World (w_db w) (w_rand w) (w_clock w)
                      (w_out w ++ die_events (sq_errmsg (w_db w)))).
Proof. unfold bind at 1. by rewrite die_db_error_run. Qed.

Lemma bind_api {B} c op (k : Z -> prog Conn B) (w : world Conn) :
  bind (api c op) k w
  = let '(rc, s) := op (w_db w) in k rc (emit (Call c rc) (set_db s w)).
Proof. unfold bind, api. by destruct (op (w_db w)). Qed.

Lemma bind_prepare {B} q (k : Z * sqlite3_stmt -> prog Conn B) (w : world Conn) :
  bind (sqlite3_prepare_v3 q) k w
  = let '(rc, id, s) := sq_prepare q (w_db w) in
    k (rc, Stmt q id) (emit (Call (Prepare q) rc) (set_db s w)).
Proof. unfold bind, sqlite3_prepare_v3. by destruct (sq_prepare q (w_db w)) as [[rc id] s]. Qed.

(** A checked call followed by the rest [k] of the function: the call
    [p] adds the event [e]; on success the rest runs, on failure
    [die_db_error] does. *)
Lemma fatal_checked_call {B} (e : event) (ok : bool) (k : unit -> prog Conn B)
    (w w1 : world Conn) :
  w_out w1 = w_out w ++ [e] ->
  checked_failure e = negb ok ->
  (forall u, fatal_ok (k u)) ->
  exists t, w_out (snd (bind (when (negb ok) die_db_error) k w1)) = w_out w ++ t /\
    match fst (bind (when (negb ok) die_db_error) k w1) with
    | Exit c =>
        c = -1 /\ exists t0 e msg,
          t = t0 ++ e :: die_events msg /\ clean t0 /\ checked_failure e = true
    | _ => clean t
    end.
Proof.
  intros Hw1 He Hk. destruct ok; unfold when; cbn [negb] in *.
  - rewrite bind_ret_l. destruct (Hk tt w1) as (t & Hout & Ho).
    exists (e :: t). split; [by rewrite Hout, Hw1, <- app_assoc|].
    destruct (fst (k tt w1)); try by apply clean_cons.
    destruct Ho as (-> & t0 & e' & msg & -> & Ht0 & He'). split; [done|].
    exists (e :: t0), e', msg. split; [done|]. split; [|done]. by apply clean_cons.
  - rewrite bind_die. cbn [fst snd w_out].
    exists ([] ++ e :: die_events (sq_errmsg (w_db w1))). split.
    + by rewrite Hw1, <- app_assoc.
    + split; [done|]. exists [], e, (sq_errmsg (w_db w1)).
      split; [done|]. split; [constructor|done].
Qed.

(** The pattern [rc = call; if (rc != ok) die_db_error();] and the rest
    of the function. *)
Lemma fatal_check_then {B} c op ok (k : unit -> prog Conn B) :
  (forall rc, checked_failure (Call c rc) = negb (rc =? ok)) ->
  (forall u, fatal_ok (k u)) ->
  fatal_ok (bind (api c op) (fun rc => bind (when (negb (rc =? ok)) die_db_error) k)).
Proof.
  intros Hc Hk w. rewrite bind_api. destruct (op (w_db w)) as [rc s].
  by apply (fatal_checked_call (Call c rc)).
Qed.

(** The same pattern at the end of a function. *)
Lemma fatal_check c op ok :
  (forall rc, checked_failure (Call c rc) = negb (rc =? ok)) ->
  fatal_ok (bind (api c op) (fun rc => when (negb (rc =? ok)) die_db_error)).
Proof.
  intros Hc.
  apply (fatal_ext (bind (api c op)
           (fun rc => bind (when (negb (rc =? ok)) die_db_error) (fun _ => ret tt)))).
  - intros w. rewrite !bind_api. destruct (op (w_db w)) as [rc s].
    unfold bind. by destruct (when _ _ _) as [[[]| | |] w1].
  - apply fatal_check_then; [done|]. intros _. apply fatal_ret.
Qed.

(** The pattern for [sqlite3_prepare_v3], whose statement the rest of the
    function uses. *)
Lemma fatal_prepare_then {B} q (k : sqlite3_stmt -> unit -> prog Conn B) :
  (forall id u, fatal_ok (k (Stmt q id) u)) ->
  fatal_ok (bind (sqlite3_prepare_v3 q) (fun r =>
              let '(rc, st) := r in
              bind (when (negb (rc =? SQLITE_OK)) die_db_error) (k st))).
Proof.
  intros Hk w. rewrite bind_prepare. destruct (sq_prepare q (w_db w)) as [[rc id] s].
  apply (fatal_checked_call (Call (Prepare q) rc)); [done|done|]. intros u. apply Hk.
Qed.

Lemma fatal_for_loop (body : nat -> prog Conn unit) n : forall i0,
  (forall i, fatal_ok (body i)) -> fatal_ok (for_loop i0 n body).
Proof.
  induction n as [|n IH]; intros i0 Hbody; simpl; [apply fatal_ret|].
  apply fatal_bind; [apply Hbody|]. intros _. by apply IH.
Qed.

Lemma fatal_while_loop (cond : prog Conn bool) (body : prog Conn unit) fuel :
  fatal_ok cond -> fatal_ok body -> fatal_ok (while_loop fuel cond body).
Proof.
  intros Hc Hb. induction fuel as [|fuel IH]; simpl; [apply fatal_timeout|].
  apply fatal_bind; [done|]. intros [|]; [|apply fatal_ret].
  apply fatal_bind; [done|]. by intros _.
Qed.

Ltac fatal_call :=
  first [ apply fatal_ret | apply fatal_write_key | apply fatal_strcpy_key
        | apply fatal_api; intros; reflexivity
        | apply fatal_event; intros; split; [by eexists|];
          first [ by left | right; eexists; split; [|reflexivity]; reflexivity ] ].

Lemma fatal_clock : fatal_ok clock.
Proof.
  apply fatal_event. intros w. unfold clock.
  destruct (w_clock w); (split; [by eexists|]);
    right; eexists; (split; [|reflexivity]); reflexivity.
Qed.

Ltac fatal_go :=
  unfold insert_rows_body, insert_rows_xact_body, insert_rows_xact_prepared_body,
    update_rows_pk_body, update_rows_rowid_body, select_next;
  unfold sqlite3_exec, sqlite3_open, sqlite3_close, sqlite3_step,
    sqlite3_bind_text, sqlite3_bind_double, sqlite3_bind_int64,
    sqlite3_clear_bindings, sqlite3_reset, sqlite3_finalize,
    rand_double, rand, sprintf_key, insert_rows_body, insert_rows_xact_body,
    insert_rows_xact_prepared_body, update_rows_pk_body, update_rows_rowid_body,
    select_next;
  repeat lazymatch goal with
  | |- fatal_ok (bind (api _ _) (fun rc => bind (when (negb (rc =? _)) die_db_error) _)) =>
      apply fatal_check_then; [intros; reflexivity|intros]
  | |- fatal_ok (bind (api _ _) (fun rc => when (negb (rc =? _)) die_db_error)) =>
      apply fatal_check; intros; reflexivity
  | |- fatal_ok (bind (sqlite3_prepare_v3 _) _) =>
      apply fatal_prepare_then; intros
  | |- fatal_ok (bind _ _) => apply fatal_bind; [|intros]
  | |- fatal_ok (for_loop _ _ _) => apply fatal_for_loop; intros; cbv beta
  | |- fatal_ok (while_loop _ _ _) => apply fatal_while_loop
  | |- fatal_ok clock => apply fatal_clock
  | |- fatal_ok _ => fatal_call
  end.

Lemma fatal_setup_test : fatal_ok setup_test.
Proof. unfold setup_test. fatal_go. Qed.

Lemma fatal_insert_rows : fatal_ok insert_rows.
Proof. unfold insert_rows. fatal_go. Qed.

Lemma fatal_insert_rows_xact : fatal_ok insert_rows_xact.
Proof. unfold insert_rows_xact. fatal_go. Qed.

Lemma fatal_insert_rows_xact_prepared : fatal_ok insert_rows_xact_prepared.
Proof. unfold insert_rows_xact_prepared. fatal_go. Qed.

Lemma fatal_update_rows_pk fuel : fatal_ok (update_rows_pk fuel).
Proof. unfold update_rows_pk. fatal_go. Qed.

Lemma fatal_update_rows_rowid fuel : fatal_ok (update_rows_rowid fuel).
Proof. unfold update_rows_rowid. fatal_go. Qed.

Lemma fatal_time_test_execution name (fun_ : prog Conn unit) setup_fun :
  fatal_ok fun_ ->
  (forall f, setup_fun = Some f -> fatal_ok f) ->
  fatal_ok (time_test_execution name fun_ setup_fun).
Proof.
  intros Hfun Hsetup. unfold time_test_execution, open_database, close_database.
  apply fatal_bind; [fatal_go|intros _].
  apply fatal_bind; [destruct setup_fun; [by apply Hsetup|apply fatal_ret]|intros _].
  apply fatal_bind; [apply fatal_clock|intros start_].
  apply fatal_bind; [done|intros _].
  apply fatal_bind; [apply fatal_clock|intros end_].
  apply fatal_bind; [fatal_go|intros _].
  fatal_call.
Qed.

Lemma fatal_main fuel : fatal_ok (main fuel).
Proof.
  unfold main.
  repeat lazymatch goal with
  | |- fatal_ok (bind _ _) => apply fatal_bind; [|intros _]
  | |- fatal_ok (time_test_execution _ _ _) =>
      apply fatal_time_test_execution; [|intros f [= <-]]
  | |- fatal_ok setup_test => apply fatal_setup_test
  | |- fatal_ok setup_update_test => unfold setup_update_test
  | |- fatal_ok insert_rows_xact => apply fatal_insert_rows_xact
  | |- fatal_ok insert_rows_xact_prepared => apply fatal_insert_rows_xact_prepared
  | |- fatal_ok (update_rows_pk _) => apply fatal_update_rows_pk
  | |- fatal_ok (update_rows_rowid _) => apply fatal_update_rows_rowid
  | |- fatal_ok _ => fatal_call
  end.
Qed.

End Fatal.

(** *** Two runs *)

(** An event that shows a time: a reading of the clock or a result line
    of the report. *)
Definition timing (e : event) : bool :=
  match e with
  | Clock _ => true
  | _ => is_report e
  end.

(** The events of a run without the clock readings and the result lines
    of the report, which show the measured times. *)
Definition data (t : list event) : list event :=
  List.filter (fun e => negb (timing e)) t.

Lemma data_app (t u : list event) : data (t ++ u) = data t ++ data u.
Proof. apply List.filter_app. Qed.

Lemma data_snoc (t : list event) (e : event) :
  data (t ++ [e]) = data t ++ (if timing e then [] else [e]).
Proof. unfold data. rewrite List.filter_app. simpl. by destruct (timing e). Qed.

Section Twin.
Context {Conn : Type} {SQ : Sqlite3 Conn} {E : Env}.

(** Two worlds that differ at most in the clock, in the readings taken
    from it and in the result lines printed so far. *)
Definition same_data (w1 w2 : world Conn) : Prop :=
  w_db w1 = w_db w2 /\ w_rand w1 = w_rand w2 /\ data (w_out w1) = data (w_out w2).

Definition same_outcome {A} (R : A -> A -> Prop) (o1 o2 : outcome A) : Prop :=
  match o1, o2 with
  | Done a, Done b => R a b
  | Exit c, Exit c' => c = c'
  | Undefined, Undefined => True
  | Timeout, Timeout => True
  | _, _ => False
  end.

(** [twin R p1 p2]: from worlds with the same data, [p1] and [p2] end the
    same way, with results related by [R], in worlds with the same data. *)
Definition twin {A} (R : A -> A -> Prop) (p1 p2 : prog Conn A) : Prop :=
  forall w1 w2, same_data w1 w2 ->
    same_outcome R (fst (p1 w1)) (fst (p2 w2)) /\ same_data (snd (p1 w1)) (snd (p2 w2)).

Definition det {A} (p : prog Conn A) : Prop := twin eq p p.

Lemma twin_bind {A B} (R : A -> A -> Prop) (R' : B -> B -> Prop)
    (p1 p2 : prog Conn A) (k1 k2 : A -> prog Conn B) :
  twin R p1 p2 ->
  (forall a b, R a b -> twin R' (k1 a) (k2 b)) ->
  twin R' (bind p1 k1) (bind p2 k2).
Proof.
  intros Hp Hk w1 w2 Hw. unfold bind. destruct (Hp w1 w2 Hw) as [Ho Hw'].
  destruct (p1 w1) as [[a| | |] w1'], (p2 w2) as [[b| | |] w2']; simpl in *; try done.
  by apply Hk.
Qed.

Lemma twin_det {A} (p : prog Conn A) : det p -> twin eq p p.
Proof. done. Qed.

Lemma det_bind {A B} (p : prog Conn A) (k : A -> prog Conn B) :
  det p -> (forall a, det (k a)) -> det (bind p k).
Proof. intros Hp Hk. apply (twin_bind eq); [done|]. intros a b <-. apply Hk. Qed.

Lemma det_ret {A} (a : A) : det (ret a).
Proof. by intros w1 w2 Hw. Qed.

(** A step that returns, whose result, connection and event depend on
    the connection and the number of [rand()] calls only, and that leaves
    the clock alone. *)
Lemma det_step {A} (p : prog Conn A)
    (f : Conn -> nat -> A * Conn * nat * list event) :
  (forall w, p w = (Done (f (w_db w) (w_rand w)).1.1.1,
                    World (f (w_db w) (w_rand w)).1.1.2 (f (w_db w) (w_rand w)).1.2
                          (w_clock w) (w_out w ++ (f (w_db w) (w_rand w)).2))) ->
  det p.
Proof.
  intros Hp w1 w2 (Hdb & Hr & Hout). rewrite (Hp w1), (Hp w2), Hdb, Hr.
  cbn [fst snd]. split; [done|]. split; [done|]. split; [done|].
  cbn [w_out]. by rewrite !data_app, Hout.
Qed.

Lemma det_api c op : det (api c op).
Proof.
  apply (det_step _ (fun d r => (fst (op d), snd (op d), r, [Call c (fst (op d))]))).
  intros w. unfold api. by destruct (op (w_db w)).
Qed.

Lemma det_prepare q : det (sqlite3_prepare_v3 q).
Proof.
  apply (det_step _ (fun d r =>
    ((sq_prepare q d).1.1, Stmt q (sq_prepare q d).1.2, (sq_prepare q d).2, r,
     [Call (Prepare q) (sq_prepare q d).1.1]))).
  intros w. unfold sqlite3_prepare_v3. by destruct (sq_prepare q (w_db w)) as [[rc id] s].
Qed.

Lemma det_quiet {A} (p : prog Conn A) (o : outcome A) :
  (forall w, p w = (o, w)) -> det p.
Proof.
  intros Hp w1 w2 Hw. rewrite (Hp w1), (Hp w2). split; [|done].
  by destruct o.
Qed.

Lemma det_write_key s : det (write_key s).
Proof.
  unfold write_key. destruct (_ <? _)%nat; [by apply (det_quiet _ (Done s))|by apply (det_quiet _ Undefined)].
Qed.

Lemma det_strcpy_key o : det (strcpy_key o).
Proof. destruct o; [apply det_write_key|by apply (det_quiet _ Undefined)]. Qed.

Lemma twin_clock : twin (fun _ _ => True) clock clock.
Proof.
  intros w1 w2 (Hdb & Hr & Hout). unfold clock.
  destruct (w_clock w1), (w_clock w2); cbn [fst snd]; (split; [done|]);
    (split; [done|]); (split; [done|]); cbn [emit w_out];
    rewrite !data_snoc; cbn [timing]; by rewrite Hout.
Qed.

(** Two result lines: neither is part of the data. *)
Lemma twin_report args1 args2 :
  twin eq (printf report_format args1) (printf report_format args2).
Proof.
  intros w1 w2 (Hdb & Hr & Hout). split; [done|]. split; [done|]. split; [done|].
  simpl. rewrite !data_snoc. simpl. by rewrite Hout, !app_nil_r.
Qed.

Lemma det_for_loop (body : nat -> prog Conn unit) n : forall i0,
  (forall i, det (body i)) -> det (for_loop i0 n body).
Proof.
  induction n as [|n IH]; intros i0 Hbody; simpl; [apply det_ret|].
  apply det_bind; [apply Hbody|]. intros _. by apply IH.
Qed.

Lemma det_while_loop (cond : prog Conn bool) (body : prog Conn unit) fuel :
  det cond -> det body -> det (while_loop fuel cond body).
Proof.
  intros Hc Hb. induction fuel as [|fuel IH]; simpl; [by apply (det_quiet _ Timeout)|].
  apply det_bind; [done|]. intros [|]; [|apply det_ret].
  apply det_bind; [done|]. by intros _.
Qed.

Lemma det_errmsg : det sqlite3_errmsg.
Proof. by apply (det_step _ (fun d r => (sq_errmsg d, d, r, [Errmsg (sq_errmsg d)]))). Qed.

Lemma det_printf format args : det (printf format args).
Proof. by apply (det_step _ (fun d r => (tt, d, r, [Printf (Fmt format args)]))). Qed.

Lemma det_getchar : det getchar.
Proof. by apply (det_step _ (fun d r => (tt, d, r, [Getchar]))). Qed.

Lemma det_remove path : det (remove path).
Proof. by apply (det_step _ (fun d r => (tt, sq_remove path d, r, [Remove path]))). Qed.

Lemma det_rand : det rand.
Proof.
  apply (det_step _ (fun d r => (rand_seq r, d, S r, []))).
  intros w. unfold rand. simpl. by rewrite app_nil_r.
Qed.

Lemma det_column_text st col : det (sqlite3_column_text st col).
Proof.
  by apply (det_step _ (fun d r =>
    (sq_column_text (stmt_id st) col d, d, r,
     [ColumnText st col (sq_column_text (stmt_id st) col d)]))).
Qed.

Lemma det_column_double st col : det (sqlite3_column_double st col).
Proof.
  by apply (det_step _ (fun d r =>
    (sq_column_double (stmt_id st) col d, d, r,
     [ColumnDouble st col (sq_column_double (stmt_id st) col d)]))).
Qed.

Lemma det_column_int64 st col : det (sqlite3_column_int64 st col).
Proof.
  by apply (det_step _ (fun d r =>
    (sq_column_int64 (stmt_id st) col d, d, r,
     [ColumnInt64 st col (sq_column_int64 (stmt_id st) col d)]))).
Qed.

Lemma det_exit status : det (exit status).
Proof. by apply (det_quiet _ (Exit status)). Qed.

Ltac det_call :=
  first [ apply det_ret | apply det_api | apply det_prepare | apply det_write_key
        | apply det_strcpy_key | apply det_errmsg | apply det_printf
        | apply det_getchar | apply det_remove | apply det_rand
        | apply det_column_text | apply det_column_double
        | apply det_column_int64 | apply det_exit ].

Ltac det_go :=
  unfold insert_rows_body, insert_rows_xact_body, insert_rows_xact_prepared_body,
    update_rows_pk_body, update_rows_rowid_body, select_next;
  unfold sqlite3_exec, sqlite3_open, sqlite3_close, sqlite3_step,
    sqlite3_bind_text, sqlite3_bind_double, sqlite3_bind_int64,
    sqlite3_clear_bindings, sqlite3_reset, sqlite3_finalize,
    rand_double, sprintf_key, die_db_error, insert_rows_body, insert_rows_xact_body,
    insert_rows_xact_prepared_body, update_rows_pk_body, update_rows_rowid_body,
    select_next;
  repeat lazymatch goal with
  | |- det (bind _ _) => apply det_bind; [|intros]
  | |- det (when ?c _) => destruct c; unfold when
  | |- det (for_loop _ _ _) => apply det_for_loop; intros; cbv beta
  | |- det (while_loop _ _ _) => apply det_while_loop
  | |- det (match ?r with pair _ _ => _ end) => destruct r
  | |- det _ => det_call
  end.

Lemma det_setup_test : det setup_test.
Proof. unfold setup_test. det_go. Qed.

Lemma det_insert_rows_xact : det insert_rows_xact.
Proof. unfold insert_rows_xact. det_go. Qed.

Lemma det_insert_rows_xact_prepared : det insert_rows_xact_prepared.
Proof. unfold insert_rows_xact_prepared. det_go. Qed.

Lemma det_update_rows_pk fuel : det (update_rows_pk fuel).
Proof. unfold update_rows_pk. det_go. Qed.

Lemma det_update_rows_rowid fuel : det (update_rows_rowid fuel).
Proof. unfold update_rows_rowid. det_go. Qed.

Lemma det_time_test_execution name (fun_ : prog Conn unit) setup_fun :
  det fun_ ->
  (forall f, setup_fun = Some f -> det f) ->
  det (time_test_execution name fun_ setup_fun).
Proof.
  intros Hfun Hsetup. unfold time_test_execution, open_database, close_database.
  apply det_bind; [det_go|intros _].
  apply det_bind; [destruct setup_fun; [by apply Hsetup|apply det_ret]|intros _].
  apply (twin_bind (fun _ _ => True)); [apply twin_clock|intros start1 start2 _].
  apply (twin_bind eq); [done|intros _ _ _].
  apply (twin_bind (fun _ _ => True)); [apply twin_clock|intros end1 end2 _].
  apply (twin_bind eq); [apply twin_det; det_go|intros _ _ _].
  apply twin_report.
Qed.

Lemma det_main fuel : det (main fuel).
Proof.
  unfold main.
  repeat lazymatch goal with
  | |- det (bind _ _) => apply det_bind; [|intros _]
  | |- det (time_test_execution _ _ _) =>
      apply det_time_test_execution; [|intros f [= <-]]
  | |- det setup_test => apply det_setup_test
  | |- det setup_update_test => unfold setup_update_test
  | |- det insert_rows_xact => apply det_insert_rows_xact
  | |- det insert_rows_xact_prepared => apply det_insert_rows_xact_prepared
  | |- det (update_rows_pk _) => apply det_update_rows_pk
  | |- det (update_rows_rowid _) => apply det_update_rows_rowid
  | |- det _ => det_call
  end.
Qed.

End Twin.

(** *** Walking a table in the order of a column *)

Lemma filter_length_le {A} (f g : A -> bool) (l : list A) :
  (forall x, x ∈ l -> f x = true -> g x = true) ->
  (length (List.filter f l) <= length (List.filter g l))%nat.
Proof.
  induction l as [|y l IH]; intros Hfg; [done|]. cbn [List.filter].
  assert (length (List.filter f l) <= length (List.filter g l))%nat as Hle.
  { apply IH. intros x Hx. apply Hfg. by right. }
  specialize (Hfg y (list_elem_of_here y l)).
  destruct (f y), (g y); cbn [length]; first [lia|by specialize (Hfg eq_refl)].
Qed.

Lemma filter_length_lt {A} (f g : A -> bool) (l : list A) (k : A) :
  k ∈ l -> f k = false -> g k = true ->
  (forall x, x ∈ l -> f x = true -> g x = true) ->
  (length (List.filter f l) < length (List.filter g l))%nat.
Proof.
  induction l as [|y l IH]; intros Hk Hfk Hgk Hfg; [by apply elem_of_nil in Hk|].
  cbn [List.filter].
  assert (forall x, x ∈ l -> f x = true -> g x = true) as Hfg'.
  { intros x Hx. apply Hfg. by right. }
  pose proof (filter_length_le f g l Hfg') as Hle.
  apply elem_of_cons in Hk as [<-|Hk].
  - rewrite Hfk, Hgk. cbn [length]. lia.
  - specialize (IH Hk Hfk Hgk Hfg'). specialize (Hfg y (list_elem_of_here y l)).
    destruct (f y), (g y); cbn [length]; first [lia|by specialize (Hfg eq_refl)].
Qed.

Section NextAfter.
Context {K : Type} {K_dec : EqDecision K} (ltb : K -> K -> bool).
Hypothesis ltb_irrefl : forall a, ltb a a = false.
Hypothesis ltb_trans : forall a b c, ltb a b = true -> ltb b c = true -> ltb a c = true.
Hypothesis ltb_total : forall a b, ltb a b = false -> ltb b a = false -> a = b.

(** [k] comes after the position [pos]. *)
Definition after (pos : option K) (k : K) : bool :=
  match pos with Some p => ltb p k | None => true end.

Lemma next_after_cons pos k ks :
  next_after ltb pos (k :: ks)
  = if after pos k
    then match next_after ltb pos ks with
         | Some b => if ltb b k then Some b else Some k
         | None => Some k
         end
    else next_after ltb pos ks.
Proof. reflexivity. Qed.

Lemma next_after_Some pos ks k :
  next_after ltb pos ks = Some k ->
  k ∈ ks /\ after pos k = true /\
  forall k', k' ∈ ks -> after pos k' = true -> ltb k' k = false.
Proof.
  revert k. induction ks as [|x ks IH]; intros k; [done|].
  rewrite next_after_cons. destruct (after pos x) eqn:Hx.
  - destruct (next_after ltb pos ks) as [b|] eqn:Hb.
    + destruct (IH b eq_refl) as (Hin & Hafter & Hmin).
      destruct (ltb b x) eqn:Hbx; intros [= <-].
      * split; [by right|]. split; [done|]. intros k' [->|Hk']%elem_of_cons Hk.
        -- destruct (ltb x b) eqn:Hxb; [|done].
           pose proof (ltb_trans _ _ _ Hbx Hxb) as Hbb. by rewrite ltb_irrefl in Hbb.
        -- by apply Hmin.
      * split; [by left|]. split; [done|]. intros k' [->|Hk']%elem_of_cons Hk.
        -- apply ltb_irrefl.
        -- destruct (ltb k' x) eqn:Hk'x; [|done].
           specialize (Hmin k' Hk' Hk).
           destruct (ltb x b) eqn:Hxb.
           ++ by rewrite (ltb_trans _ _ _ Hk'x Hxb) in Hmin.
           ++ by rewrite (ltb_total _ _ Hbx Hxb), Hk'x in Hmin.
    + intros [= <-]. split; [by left|]. split; [done|].
      intros k' [->|Hk']%elem_of_cons Hk; [apply ltb_irrefl|].
      exfalso. clear IH. induction ks as [|y ks IH]; [by apply elem_of_nil in Hk'|].
      rewrite next_after_cons in Hb. apply elem_of_cons in Hk' as [->|Hk'].
      * rewrite Hk in Hb. by destruct (next_after ltb pos ks) as [b|]; [destruct (ltb b y)|].
      * destruct (after pos y); [|by apply IH].
        by destruct (next_after ltb pos ks) as [b|]; [destruct (ltb b y)|].
  - intros Hk. destruct (IH k Hk) as (Hin & Hafter & Hmin).
    split; [by right|]. split; [done|]. intros k' [->|Hk']%elem_of_cons Hk''.
    + congruence.
    + by apply Hmin.
Qed.

Lemma next_after_None pos ks :
  next_after ltb pos ks = None -> forall k, k ∈ ks -> after pos k = false.
Proof.
  induction ks as [|x ks IH]; intros Hnone k Hk; [by apply elem_of_nil in Hk|].
  rewrite next_after_cons in Hnone. destruct (after pos x) eqn:Hx.
  - by destruct (next_after ltb pos ks) as [b|]; [destruct (ltb b x)|].
  - apply elem_of_cons in Hk as [->|Hk]; [done|by apply IH].
Qed.

(** Moving to the next element passes exactly that element. *)
Lemma after_next pos ks k k' :
  next_after ltb pos ks = Some k -> k' ∈ ks ->
  after (Some k) k' = after pos k' && negb (bool_decide (k' = k)).
Proof.
  intros Hnext Hk'. destruct (next_after_Some _ _ _ Hnext) as (Hin & Hafter & Hmin).
  simpl. case_bool_decide as Heq.
  - subst. rewrite ltb_irrefl. by rewrite andb_false_r.
  - rewrite andb_true_r. destruct (after pos k') eqn:Hk.
    + specialize (Hmin k' Hk' Hk). destruct (ltb k k') eqn:Hkk'; [done|].
      by destruct Heq; apply ltb_total.
    + destruct (ltb k k') eqn:Hkk'; [|done].
      destruct pos as [p|]; [|done]. simpl in *.
      by rewrite (ltb_trans _ _ _ Hafter Hkk') in Hk.
Qed.

(** The number of elements still to come. *)
Definition remaining (pos : option K) (ks : list K) : nat :=
  length (List.filter (after pos) ks).

Lemma remaining_next pos ks k :
  next_after ltb pos ks = Some k ->
  (remaining (Some k) ks < remaining pos ks)%nat.
Proof.
  intros Hnext. destruct (next_after_Some _ _ _ Hnext) as (Hin & Hafter & _).
  apply (filter_length_lt _ _ _ k); [done|apply ltb_irrefl|done|].
  intros k' Hk'. rewrite (after_next pos ks k k' Hnext Hk').
  by intros [? _]%andb_prop.
Qed.

End NextAfter.

(** The two orders: keys as byte strings, rowids as integers. *)

Lemma string_ltb_irrefl (a : string) : String.ltb a a = false.
Proof.
  unfold String.ltb. pose proof (String.compare_antisym a a) as H.
  by destruct (String.compare a a).
Qed.

Lemma string_ltb_trans (a b c : string) :
  String.ltb a b = true -> String.ltb b c = true -> String.ltb a c = true.
Proof.
  unfold String.ltb. intros Hab Hbc.
  destruct (String.compare a b) eqn:Hab'; try done.
  destruct (String.compare b c) eqn:Hbc'; try done.
  apply String_as_OT.cmp_lt in Hab', Hbc'.
  pose proof (String_as_OT.lt_trans _ _ _ Hab' Hbc') as Hac.
  apply String_as_OT.cmp_lt in Hac. unfold String_as_OT.cmp in Hac. by rewrite Hac.
Qed.

Lemma string_ltb_total (a b : string) :
  String.ltb a b = false -> String.ltb b a = false -> a = b.
Proof.
  unfold String.ltb. rewrite (String.compare_antisym b a). intros Hab Hba.
  destruct (String.compare a b) eqn:Hc; try done.
  by apply String.compare_eq_iff.
Qed.

Lemma Z_ltb_trans (a b c : Z) : (a <? b) = true -> (b <? c) = true -> (a <? c) = true.
Proof. rewrite !Z.ltb_lt. lia. Qed.

Lemma Z_ltb_total (a b : Z) : (a <? b) = false -> (b <? a) = false -> a = b.
Proof. rewrite !Z.ltb_ge. lia. Qed.

(** *** Runs on the relational model

    Each lemma gives the state after one call, for a connection that is
    open; [k] is the rest of the function. *)

Section RelRuns.
Context {E : Env}.

Lemma run_write_key {B} s (k : string -> prog db B) w :
  (String.length s < KEY_SIZE)%nat -> bind (write_key s) k w = k s w.
Proof.
  intros Hs. unfold bind, write_key.
  by rewrite (proj2 (Nat.ltb_lt _ _) Hs).
Qed.

Lemma run_rand_double {B} (k : float -> prog db B) d r clk out :
  bind rand_double k (World d r clk out)
  = k (rand_double_of RAND_MAX (rand_seq r)) (World d (S r) clk out).
Proof. reflexivity. Qed.

Lemma run_when_ok {B} (k : unit -> prog db B) w :
  bind (when false die_db_error) k w = k tt w.
Proof. reflexivity. Qed.

Lemma run_exec_create {B} (k : Z -> prog db B) disk stmts next err r clk out :
  bind (sqlite3_exec sql_create) k (World (Db true disk None stmts next err) r clk out)
  = k SQLITE_OK
      (World (Db true (Some (default [] disk)) None stmts next err) r clk
             (out ++ [Call (Exec sql_create) SQLITE_OK])).
Proof. unfold sqlite3_exec. rewrite bind_api. by destruct disk. Qed.

Lemma run_exec_begin {B} (k : Z -> prog db B) disk stmts next err r clk out :
  bind (sqlite3_exec sql_begin) k (World (Db true disk None stmts next err) r clk out)
  = k SQLITE_OK
      (World (Db true disk (Some disk) stmts next err) r clk
             (out ++ [Call (Exec sql_begin) SQLITE_OK])).
Proof. unfold sqlite3_exec. by rewrite bind_api. Qed.

Lemma run_exec_commit {B} (k : Z -> prog db B) disk t stmts next err r clk out :
  bind (sqlite3_exec sql_commit) k (World (Db true disk (Some t) stmts next err) r clk out)
  = k SQLITE_OK
      (World (Db true t None stmts next err) r clk
             (out ++ [Call (Exec sql_commit) SQLITE_OK])).
Proof. unfold sqlite3_exec. by rewrite bind_api. Qed.

(** An executed INSERT text, outside and inside a transaction. *)
Lemma run_exec_insert_values {B} (k : Z -> prog db B) key_ n1 n2 n3 n4
    rows stmts next err r clk out :
  has_key key_ rows = false ->
  bind (sqlite3_exec (sql_insert_values key_ n1 n2 n3 n4)) k
       (World (Db true (Some rows) None stmts next err) r clk out)
  = k SQLITE_OK
      (World (Db true
                (Some (rows ++ [Test_t (next_rowid rows) key_ (text_real n1)
                                       (text_real n2) (text_real n3) (text_real n4)]))
                None stmts next err) r clk
             (out ++ [Call (Exec (sql_insert_values key_ n1 n2 n3 n4)) SQLITE_OK])).
Proof.
  intros Hkey. unfold sqlite3_exec. rewrite bind_api.
  cbn [sq_exec rel_sqlite3 w_db]. unfold rel_exec. cbn [db_open].
  change (parse_sql (sql_insert_values key_ n1 n2 n3 n4))
    with (Some (KInsertValues key_ (text_real n1) (text_real n2) (text_real n3) (text_real n4))).
  cbn [rel_run]. unfold rel_insert. cbn [view db_txn db_disk]. by rewrite Hkey.
Qed.

Lemma run_exec_insert_values_txn {B} (k : Z -> prog db B) key_ n1 n2 n3 n4
    disk rows stmts next err r clk out :
  has_key key_ rows = false ->
  bind (sqlite3_exec (sql_insert_values key_ n1 n2 n3 n4)) k
       (World (Db true disk (Some (Some rows)) stmts next err) r clk out)
  = k SQLITE_OK
      (World (Db true disk
                (Some (Some (rows ++ [Test_t (next_rowid rows) key_ (text_real n1)
                                             (text_real n2) (text_real n3) (text_real n4)])))
                stmts next err) r clk
             (out ++ [Call (Exec (sql_insert_values key_ n1 n2 n3 n4)) SQLITE_OK])).
Proof.
  intros Hkey. unfold sqlite3_exec. rewrite bind_api.
  cbn [sq_exec rel_sqlite3 w_db]. unfold rel_exec. cbn [db_open].
  change (parse_sql (sql_insert_values key_ n1 n2 n3 n4))
    with (Some (KInsertValues key_ (text_real n1) (text_real n2) (text_real n3) (text_real n4))).
  cbn [rel_run]. unfold rel_insert. cbn [view db_txn db_disk]. by rewrite Hkey.
Qed.

Lemma run_prepare {B} q kind (k : Z * sqlite3_stmt -> prog db B)
    disk rows stmts next err r clk out :
  parse_sql q = Some kind ->
  bind (sqlite3_prepare_v3 q) k
       (World (Db true disk (Some (Some rows)) stmts next err) r clk out)
  = k (SQLITE_OK, Stmt q next)
      (World (Db true disk (Some (Some rows))
                 (<[next := StmtState kind ∅ Before]> stmts) (S next) err) r clk
             (out ++ [Call (Prepare q) SQLITE_OK])).
Proof.
  intros Hq. rewrite bind_prepare.
  cbn [sq_prepare rel_sqlite3 w_db]. unfold rel_prepare. cbn [db_open]. rewrite Hq.
  by destruct kind.
Qed.

Lemma run_bind {B} c id idx v st (k : Z -> prog db B)
    disk txn stmts next err r clk out :
  stmts !! id = Some st ->
  1 <= idx <= nparams (st_kind st) ->
  bind (api c (rel_bind id idx v)) k (World (Db true disk txn stmts next err) r clk out)
  = k SQLITE_OK
      (World (Db true disk txn
                 (<[id := StmtState (st_kind st) (<[idx := v]> (st_binds st)) (st_pos st)]> stmts)
                 next err) r clk
             (out ++ [Call c SQLITE_OK])).
Proof.
  intros Hst Hidx. rewrite bind_api. cbn [w_db]. unfold rel_bind. cbn [db_stmts].
  rewrite Hst. by rewrite (proj2 (Z.leb_le _ _) (proj1 Hidx)), (proj2 (Z.leb_le _ _) (proj2 Hidx)).
Qed.

Lemma run_clear_bindings {B} q id st (k : Z -> prog db B)
    disk txn stmts next err r clk out :
  stmts !! id = Some st ->
  bind (sqlite3_clear_bindings (Stmt q id)) k (World (Db true disk txn stmts next err) r clk out)
  = k SQLITE_OK
      (World (Db true disk txn (<[id := StmtState (st_kind st) ∅ (st_pos st)]> stmts) next err)
             r clk (out ++ [Call (ClearBindings (Stmt q id)) SQLITE_OK])).
Proof.
  intros Hst. unfold sqlite3_clear_bindings. rewrite bind_api.
  cbn [sq_clear_bindings rel_sqlite3 w_db stmt_id]. unfold rel_clear_bindings.
  cbn [db_stmts]. by rewrite Hst.
Qed.

Lemma run_reset {B} q id st (k : Z -> prog db B)
    disk txn stmts next err r clk out :
  stmts !! id = Some st ->
  bind (sqlite3_reset (Stmt q id)) k (World (Db true disk txn stmts next err) r clk out)
  = k SQLITE_OK
      (World (Db true disk txn
                 (<[id := StmtState (st_kind st) (st_binds st) Before]> stmts) next err)
             r clk (out ++ [Call (Reset (Stmt q id)) SQLITE_OK])).
Proof.
  intros Hst. unfold sqlite3_reset. rewrite bind_api.
  cbn [sq_reset rel_sqlite3 w_db stmt_id]. unfold rel_reset.
  cbn [db_stmts]. by rewrite Hst.
Qed.

Lemma run_finalize {B} q id st (k : Z -> prog db B)
    disk txn stmts next err r clk out :
  stmts !! id = Some st ->
  bind (sqlite3_finalize (Stmt q id)) k (World (Db true disk txn stmts next err) r clk out)
  = k SQLITE_OK
      (World (Db true disk txn (delete id stmts) next err)
             r clk (out ++ [Call (Finalize (Stmt q id)) SQLITE_OK])).
Proof.
  intros Hst. unfold sqlite3_finalize. rewrite bind_api.
  cbn [sq_finalize rel_sqlite3 w_db stmt_id]. unfold rel_finalize.
  cbn [db_stmts]. by rewrite Hst.
Qed.

Lemma run_step_insert {B} q id b pos key_ n1 n2 n3 n4 (k : Z -> prog db B)
    disk rows stmts next err r clk out :
  stmts !! id = Some (StmtState KInsert b pos) ->
  b !! 1 = Some (VText key_) -> b !! 2 = Some (VReal n1) -> b !! 3 = Some (VReal n2) ->
  b !! 4 = Some (VReal n3) -> b !! 5 = Some (VReal n4) ->
  has_key key_ rows = false ->
  bind (sqlite3_step (Stmt q id)) k
       (World (Db true disk (Some (Some rows)) stmts next err) r clk out)
  = k SQLITE_DONE
      (World (Db true disk
                 (Some (Some (rows ++ [Test_t (next_rowid rows) key_ n1 n2 n3 n4])))
                 stmts next err) r clk
             (out ++ [Call (Step (Stmt q id)) SQLITE_DONE])).
Proof.
  intros Hst H1 H2 H3 H4 H5 Hkey. unfold sqlite3_step. rewrite bind_api.
  cbn [sq_step rel_sqlite3 w_db stmt_id]. unfold rel_step. cbn [db_stmts].
  rewrite Hst. cbn [st_kind st_binds]. rewrite H1, H2, H3, H4, H5.
  unfold rel_insert. cbn [view db_txn]. by rewrite Hkey.
Qed.

End RelRuns.

(** *** The insert loops on the relational model *)

(** A key that has been read from a statement fits the [key] buffer. *)
Definition key_read_ok (e : event) : bool :=
  match e with
  | ColumnText _ _ (Some s) => (String.length s <? KEY_SIZE)%nat
  | ColumnText _ _ None => false
  | _ => true
  end.

Lemma has_key_false (k : string) (rows : list test_t) :
  k ∉ map key rows -> has_key k rows = false.
Proof.
  intros Hk. unfold has_key. apply not_true_is_false. intros Hex.
  apply existsb_exists in Hex as (r & Hr & Heq). apply String.eqb_eq in Heq.
  apply Hk. rewrite <- Heq. apply list_elem_of_fmap. exists r. split; [done|].
  by apply list_elem_of_In.
Qed.

Lemma generated_key_fresh (s : strategy) (i : nat) (rows : list test_t) :
  map key rows = map (generated_key s) (seq 0 i) ->
  has_key (generated_key s i) rows = false.
Proof.
  intros Hrows. apply has_key_false. rewrite Hrows.
  intros (j & Hj & Hin)%list_elem_of_fmap. apply generated_key_inj in Hj as <-.
  apply elem_of_seq in Hin. lia.
Qed.

Section InsertLoop.
Context {E : Env}.
Variable s : strategy.
Variable W : list test_t -> nat -> list event -> world db.
Variable body : nat -> prog db unit.

Hypothesis body_ok : forall i rows r out,
  has_key (generated_key s i) rows = false ->
  (String.length (generated_key s i) < KEY_SIZE)%nat ->
  exists row evs,
    body i (W rows r out) = (Done tt, W (rows ++ [row]) (4 + r) (out ++ evs)) /\
    key row = generated_key s i /\ forallb key_read_ok evs = true.

Hypothesis body_overrun : forall i rows r out,
  ~ (String.length (generated_key s i) < KEY_SIZE)%nat ->
  body i (W rows r out) = (Undefined, W rows r out).

(** The loop adds one row per index, with the generated key, and stops
    only at a key that does not fit the buffer. *)
Lemma insert_loop n : forall i0 rows r out,
  map key rows = map (generated_key s) (seq 0 i0) ->
  exists o rows' r' evs,
    for_loop i0 n body (W rows r out) = (o, W rows' r' (out ++ evs)) /\
    forallb key_read_ok evs = true /\
    match o with
    | Done _ =>
        map key rows' = map (generated_key s) (seq 0 (i0 + n)) /\
        r' = (4 * n + r)%nat
    | Undefined =>
        exists i, (i0 <= i < i0 + n)%nat /\
          ~ (String.length (generated_key s i) < KEY_SIZE)%nat
    | _ => False
    end.
Proof.
  induction n as [|n IH]; intros i0 rows r out Hrows; cbn [for_loop].
  - exists (Done tt), rows, r, []. rewrite app_nil_r, Nat.add_0_r. by repeat split.
  - destruct (decide (String.length (generated_key s i0) < KEY_SIZE)%nat) as [Hlen|Hlen].
    + destruct (body_ok i0 rows r out (generated_key_fresh s i0 rows Hrows) Hlen)
        as (row & evs & Hbody & Hkey & Hevs).
      assert (map key (rows ++ [row]) = map (generated_key s) (seq 0 (S i0))) as Hrows'.
      { rewrite map_app, Hrows, seq_S, map_app. simpl. by rewrite Hkey. }
      destruct (IH (S i0) (rows ++ [row]) (4 + r)%nat (out ++ evs) Hrows')
        as (o & rows' & r' & evs' & Hloop & Hevs' & Ho).
      exists o, rows', r', (evs ++ evs'). unfold bind. rewrite Hbody, Hloop, app_assoc.
      split; [done|]. split; [by rewrite forallb_app, Hevs, Hevs'|].
      destruct o as [[]| | |]; try done.
      * destruct Ho as [Hk ->]. split; [by rewrite <- Nat.add_succ_comm|lia].
      * destruct Ho as (i & Hi & Hbad). exists i. split; [lia|done].
    + exists Undefined, rows, r, []. unfold bind. rewrite (body_overrun _ _ _ _ Hlen), app_nil_r.
      split; [done|]. split; [done|]. exists i0. split; [lia|done].
Qed.

End InsertLoop.

Section RelInsert.
Context {E : Env}.

Lemma run_write_key_overrun {B} s (k : string -> prog db B) w :
  ~ (String.length s < KEY_SIZE)%nat -> bind (write_key s) k w = (Undefined, w).
Proof.
  intros Hs. unfold bind, write_key.
  by rewrite (proj2 (Nat.ltb_nlt _ _) Hs).
Qed.

Ltac run_binds :=
  unfold sqlite3_bind_text, sqlite3_bind_double, sqlite3_bind_int64;
  cbn [sq_bind_text sq_bind_double sq_bind_int64 rel_sqlite3 stmt_id];
  repeat (erewrite run_bind; [|first [eassumption|apply lookup_insert_eq]|done];
          rewrite ?insert_insert_eq; cbn [st_kind st_binds st_pos]).

Lemma insert_rows_body_ok stmts next err clk i rows r out :
  has_key (generated_key InsertRows i) rows = false ->
  (String.length (generated_key InsertRows i) < KEY_SIZE)%nat ->
  exists row evs,
    insert_rows_body i (World (Db true (Some rows) None stmts next err) r clk out)
    = (Done tt, World (Db true (Some (rows ++ [row])) None stmts next err)
                      (4 + r) clk (out ++ evs)) /\
    key row = generated_key InsertRows i /\ forallb key_read_ok evs = true.
Proof.
  intros Hkey Hlen. eexists _, _. unfold insert_rows_body, sprintf_key.
  rewrite run_write_key by exact Hlen. rewrite !run_rand_double.
  rewrite run_exec_insert_values by exact Hkey.
  split; [reflexivity|]. by split.
Qed.

Lemma insert_rows_xact_body_ok disk stmts next err clk i rows r out :
  has_key (generated_key InsertRowsXact i) rows = false ->
  (String.length (generated_key InsertRowsXact i) < KEY_SIZE)%nat ->
  exists row evs,
    insert_rows_xact_body i (World (Db true disk (Some (Some rows)) stmts next err) r clk out)
    = (Done tt, World (Db true disk (Some (Some (rows ++ [row]))) stmts next err)
                      (4 + r) clk (out ++ evs)) /\
    key row = generated_key InsertRowsXact i /\ forallb key_read_ok evs = true.
Proof.
  intros Hkey Hlen. eexists _, _. unfold insert_rows_xact_body, sprintf_key.
  rewrite run_write_key by exact Hlen. rewrite !run_rand_double.
  rewrite run_exec_insert_values_txn by exact Hkey.
  split; [reflexivity|]. by split.
Qed.

Lemma insert_rows_xact_prepared_body_ok q id disk stmts next err clk i rows r out :
  stmts !! id = Some (StmtState KInsert ∅ Before) ->
  has_key (generated_key InsertRowsXactPrepared i) rows = false ->
  (String.length (generated_key InsertRowsXactPrepared i) < KEY_SIZE)%nat ->
  exists row evs,
    insert_rows_xact_prepared_body (Stmt q id) i
      (World (Db true disk (Some (Some rows)) stmts next err) r clk out)
    = (Done tt, World (Db true disk (Some (Some (rows ++ [row]))) stmts next err)
                      (4 + r) clk (out ++ evs)) /\
    key row = generated_key InsertRowsXactPrepared i /\ forallb key_read_ok evs = true.
Proof.
  intros Hst Hkey Hlen. eexists _, _. unfold insert_rows_xact_prepared_body, sprintf_key.
  rewrite run_write_key by exact Hlen. rewrite !run_rand_double.
  run_binds.
  erewrite run_step_insert; [|apply lookup_insert_eq|by simplify_map_eq..|exact Hkey].
  change (negb (SQLITE_DONE =? SQLITE_DONE)) with false. rewrite run_when_ok.
  erewrite run_clear_bindings by apply lookup_insert_eq.
  rewrite insert_insert_eq. cbn [st_kind st_binds st_pos].
  erewrite run_reset by apply lookup_insert_eq.
  rewrite insert_insert_eq. cbn [st_kind st_binds st_pos].
  rewrite (insert_id _ _ _ Hst). unfold ret. rewrite <- !app_assoc.
  split; [reflexivity|]. by split.
Qed.

Lemma insert_body_overrun (format : string) (s : strategy) (k : string -> prog db unit) i w :
  sprintf_d format (Z.of_nat i) = generated_key s i ->
  ~ (String.length (generated_key s i) < KEY_SIZE)%nat ->
  bind (sprintf_key format i) k w = (Undefined, w).
Proof.
  intros Hfmt Hlen. unfold sprintf_key. rewrite Hfmt. by apply run_write_key_overrun.
Qed.

(** What an insert function leaves behind on an open connection with an
    empty table and no transaction: when it returns, one committed row per
    index, with the generated keys in order; it stops early only at a key
    that does not fit the buffer. *)
Definition inserted (s : strategy) (r : nat) (clk : list Z) (err : string)
    (out : list event) (res : outcome unit * world db) : Prop :=
  (exists evs, w_out (snd res) = out ++ evs /\ forallb key_read_ok evs = true) /\
  match fst res with
  | Done _ =>
      exists rows stmts next,
        w_db (snd res) = Db true (Some rows) None stmts next err /\
        map key rows = map (generated_key s) (seq 0 NUM_EXECUTIONS) /\
        w_rand (snd res) = (4 * NUM_EXECUTIONS + r)%nat /\ w_clock (snd res) = clk
  | Undefined =>
      exists i, (i < NUM_EXECUTIONS)%nat /\
        ~ (String.length (generated_key s i) < KEY_SIZE)%nat
  | _ => False
  end.

Lemma insert_rows_run stmts next err r clk out :
  inserted InsertRows r clk err out
    (insert_rows (World (Db true (Some []) None stmts next err) r clk out)).
Proof.
  unfold insert_rows.
  destruct (insert_loop InsertRows
              (fun rows r out => World (Db true (Some rows) None stmts next err) r clk out)
              insert_rows_body) with (n := NUM_EXECUTIONS) (i0 := O) (rows := @nil test_t)
              (r := r) (out := out)
    as (o & rows' & r' & evs & Hloop & Hevs & Ho); [| |done|].
  { intros. by apply insert_rows_body_ok. }
  { intros. by apply (insert_body_overrun _ InsertRows). }
  rewrite Hloop. split; [by exists evs|]. cbn [fst snd].
  destruct o as [[]| | |]; try done.
  - destruct Ho as [Hk ->]. by exists rows', stmts, next.
  - destruct Ho as (i & Hi & Hbad). exists i. split; [lia|done].
Qed.

Lemma insert_rows_xact_run stmts next err r clk out :
  inserted InsertRowsXact r clk err out
    (insert_rows_xact (World (Db true (Some []) None stmts next err) r clk out)).
Proof.
  unfold insert_rows_xact. rewrite run_exec_begin.
  change (negb (SQLITE_OK =? SQLITE_OK)) with false. rewrite run_when_ok.
  destruct (insert_loop InsertRowsXact
              (fun rows r out => World (Db true (Some []) (Some (Some rows)) stmts next err) r clk out)
              insert_rows_xact_body) with (n := NUM_EXECUTIONS) (i0 := O) (rows := @nil test_t)
              (r := r) (out := out ++ [Call (Exec sql_begin) SQLITE_OK])
    as (o & rows' & r' & evs & Hloop & Hevs & Ho); [| |done|].
  { intros. by apply insert_rows_xact_body_ok. }
  { intros. by apply (insert_body_overrun _ InsertRowsXact). }
  unfold bind at 1. rewrite Hloop.
  destruct o as [[]| | |]; try done.
  - rewrite run_exec_commit. change (negb (SQLITE_OK =? SQLITE_OK)) with false.
    destruct Ho as [Hk ->]. split.
    + eexists. cbn [snd when ret w_out]. rewrite <- !app_assoc. split; [reflexivity|].
      cbn [app forallb key_read_ok andb]. by rewrite forallb_app, Hevs.
    + by exists rows', stmts, next.
  - split.
    + eexists. cbn [snd w_out]. rewrite <- !app_assoc. split; [reflexivity|].
      cbn [app forallb key_read_ok andb]. done.
    + destruct Ho as (i & Hi & Hbad). exists i. split; [lia|done].
Qed.

Lemma insert_rows_xact_prepared_run stmts next err r clk out :
  inserted InsertRowsXactPrepared r clk err out
    (insert_rows_xact_prepared (World (Db true (Some []) None stmts next err) r clk out)).
Proof.
  unfold insert_rows_xact_prepared. rewrite run_exec_begin.
  change (negb (SQLITE_OK =? SQLITE_OK)) with false. rewrite run_when_ok.
  erewrite run_prepare by reflexivity. cbv beta iota.
  change (negb (SQLITE_OK =? SQLITE_OK)) with false. rewrite run_when_ok.
  destruct (insert_loop InsertRowsXactPrepared
              (fun rows r out =>
                 World (Db true (Some []) (Some (Some rows))
                           (<[next := StmtState KInsert ∅ Before]> stmts) (S next) err)
                       r clk out)
              (insert_rows_xact_prepared_body (Stmt sql_insert next)))
    with (n := NUM_EXECUTIONS) (i0 := O) (rows := @nil test_t) (r := r)
         (out := (out ++ [Call (Exec sql_begin) SQLITE_OK])
                   ++ [Call (Prepare sql_insert) SQLITE_OK])
    as (o & rows' & r' & evs & Hloop & Hevs & Ho); [| |done|].
  { intros. apply insert_rows_xact_prepared_body_ok; [apply lookup_insert_eq|done..]. }
  { intros. by apply (insert_body_overrun _ InsertRowsXactPrepared). }
  unfold bind at 1. rewrite Hloop.
  destruct o as [[]| | |]; try done.
  - rewrite run_exec_commit. change (negb (SQLITE_OK =? SQLITE_OK)) with false.
    rewrite run_when_ok. erewrite run_finalize by apply lookup_insert_eq.
    destruct Ho as [Hk ->]. split.
    + eexists. cbn [snd ret w_out]. rewrite <- !app_assoc. split; [reflexivity|].
      cbn [app forallb key_read_ok andb]. by rewrite forallb_app, Hevs.
    + by eexists rows', _, _.
  - split.
    + eexists. cbn [snd w_out]. rewrite <- !app_assoc. split; [reflexivity|].
      cbn [app forallb key_read_ok andb]. done.
    + destruct Ho as (i & Hi & Hbad). exists i. split; [lia|done].
Qed.

Lemma strategy_run (s : strategy) stmts next err r clk out :
  inserted s r clk err out
    (strategy_prog s (World (Db true (Some []) None stmts next err) r clk out)).
Proof.
  destruct s; [apply insert_rows_run|apply insert_rows_xact_run
              |apply insert_rows_xact_prepared_run].
Qed.

End RelInsert.

(** *** The update loops on the relational model *)

(** The update both functions make to a row: [++row.num1] ... [++row.num4]. *)
Definition bump (r : test_t) : test_t :=
  set_nums (num1 r + 1) (num2 r + 1) (num3 r + 1) (num4 r + 1) r.

(** What every table satisfies: keys are unique and rowids are unique. *)
Definition valid_table (rows : list test_t) : Prop :=
  NoDup (map key rows) /\ NoDup (map rowid rows).

Lemma NoDup_map_inj {A B} (f : A -> B) (l : list A) (x y : A) :
  NoDup (map f l) -> x ∈ l -> y ∈ l -> f x = f y -> x = y.
Proof.
  induction l as [|a l IH]; intros Hnd Hx Hy Hf; [by apply elem_of_nil in Hx|].
  cbn [map] in Hnd. apply NoDup_cons in Hnd as [Ha Hnd].
  apply elem_of_cons in Hx as [->|Hx], Hy as [->|Hy]; [done| | |by apply IH].
  - destruct Ha. rewrite Hf. apply list_elem_of_fmap. by exists y.
  - destruct Ha. rewrite <- Hf. apply list_elem_of_fmap. by exists x.
Qed.

Section Walk.
Context {K : Type} {K_dec : EqDecision K} (ltb : K -> K -> bool) (col : test_t -> K).
Context (eqb : K -> K -> bool).
Hypothesis ltb_irrefl : forall a, ltb a a = false.
Hypothesis ltb_trans : forall a b c, ltb a b = true -> ltb b c = true -> ltb a c = true.
Hypothesis ltb_total : forall a b, ltb a b = false -> ltb b a = false -> a = b.
Hypothesis eqb_eq : forall a b, eqb a b = true <-> a = b.
Hypothesis col_set_nums : forall n1 n2 n3 n4 r, col (set_nums n1 n2 n3 n4 r) = col r.

(** The table while the cursor stands at [pos]: the rows up to [pos]
    have been updated, the others not yet. *)
Definition walked (pos : option K) (rows0 : list test_t) : list test_t :=
  map (fun r => if after ltb pos (col r) then r else bump r) rows0.

Lemma walked_col pos rows0 : map col (walked pos rows0) = map col rows0.
Proof.
  unfold walked. rewrite map_map. apply map_ext. intros r.
  destruct (after ltb pos (col r)); [done|apply col_set_nums].
Qed.

Lemma walked_start rows0 : walked None rows0 = rows0.
Proof. unfold walked. simpl. apply map_id. Qed.

(** The row the cursor reads after a step is the original one. *)
Lemma walked_find pos rows0 k :
  NoDup (map col rows0) ->
  next_after ltb pos (map col (walked pos rows0)) = Some k ->
  exists r0, r0 ∈ rows0 /\ col r0 = k /\
    List.find (fun r => eqb (col r) k) (walked pos rows0) = Some r0.
Proof.
  intros Hnd Hnext. rewrite walked_col in Hnext.
  destruct (next_after_Some ltb ltb_irrefl ltb_trans ltb_total _ _ _ Hnext)
    as (Hin & Hafter & _).
  apply list_elem_of_fmap in Hin as (r0 & -> & Hr0). exists r0. split; [done|]. split; [done|].
  clear Hnext. unfold walked. induction rows0 as [|a rows0 IH]; [by apply elem_of_nil in Hr0|].
  cbn [map List.find]. cbn [map] in Hnd. apply NoDup_cons in Hnd as [Ha Hnd].
  assert (col (if after ltb pos (col a) then a else bump a) = col a) as ->
    by (destruct (after ltb pos (col a)); [done|apply col_set_nums]).
  destruct (eqb (col a) (col r0)) eqn:Heq.
  - apply eqb_eq in Heq. apply elem_of_cons in Hr0 as [->|Hr0]; [by rewrite Hafter|].
    destruct Ha. rewrite Heq. apply list_elem_of_fmap. by exists r0.
  - apply elem_of_cons in Hr0 as [->|Hr0]; [|by apply IH].
    by rewrite (proj2 (eqb_eq _ _) eq_refl) in Heq.
Qed.

(** Updating the rows with the column value [k] moves the table on. *)
Lemma walked_update pos rows0 k r0 :
  NoDup (map col rows0) ->
  next_after ltb pos (map col (walked pos rows0)) = Some k ->
  r0 ∈ rows0 -> col r0 = k ->
  map (fun r => if eqb (col r) k
                then set_nums (num1 r0 + 1) (num2 r0 + 1) (num3 r0 + 1) (num4 r0 + 1) r
                else r)
      (walked pos rows0)
  = walked (Some k) rows0.
Proof.
  intros Hnd Hnext Hr0 Hk. rewrite walked_col in Hnext.
  destruct (next_after_Some ltb ltb_irrefl ltb_trans ltb_total _ _ _ Hnext)
    as (_ & Hafter & _).
  unfold walked. rewrite map_map. apply map_ext_in. intros r Hr%list_elem_of_In.
  assert (col r ∈ map col rows0) as Hcol by (apply list_elem_of_fmap; by exists r).
  rewrite (after_next ltb ltb_irrefl ltb_trans ltb_total pos _ k (col r) Hnext Hcol).
  assert (col (if after ltb pos (col r) then r else bump r) = col r) as ->
    by (destruct (after ltb pos (col r)); [done|apply col_set_nums]).
  case_bool_decide as Heq.
  - rewrite (proj2 (eqb_eq _ _) Heq), andb_false_r.
    assert (r = r0) as -> by (apply (NoDup_map_inj col rows0); congruence).
    rewrite Hk, Hafter. done.
  - rewrite andb_true_r. destruct (eqb (col r) k) eqn:Heqb; [|done].
    by apply eqb_eq in Heqb.
Qed.

(** At the end of the walk every row has been updated. *)
Lemma walked_end pos rows0 :
  next_after ltb pos (map col (walked pos rows0)) = None ->
  walked pos rows0 = map bump rows0.
Proof.
  intros Hnext. rewrite walked_col in Hnext.
  unfold walked. apply map_ext_in. intros r Hr%list_elem_of_In.
  rewrite (next_after_None ltb pos _ Hnext (col r)); [done|].
  apply list_elem_of_fmap. by exists r.
Qed.

End Walk.

Section RelUpdateRuns.
Context {E : Env}.

Lemma run_select_next_key {B} q sel b pos (k : bool -> prog db B)
    disk rows stmts next err r clk out :
  stmts !! sel = Some (StmtState KSelectKey b pos) ->
  bind (select_next (Stmt q sel)) k
       (World (Db true disk (Some (Some rows)) stmts next err) r clk out)
  = match next_after String.ltb (pos_key pos) (map key rows) with
    | Some key_ =>
        k true (World (Db true disk (Some (Some rows))
                          (<[sel := StmtState KSelectKey b (AtKey key_)]> stmts) next err)
                      r clk (out ++ [Call (Step (Stmt q sel)) SQLITE_ROW]))
    | None =>
        k false (World (Db true disk (Some (Some rows))
                           (<[sel := StmtState KSelectKey b Before]> stmts) next err)
                       r clk (out ++ [Call (Step (Stmt q sel)) SQLITE_DONE]))
    end.
Proof.
  intros Hst. unfold select_next, sqlite3_step. rewrite bind_assoc, bind_api.
  cbn [sq_step rel_sqlite3 w_db stmt_id]. unfold rel_step. cbn [db_stmts].
  rewrite Hst. cbn [st_kind st_binds st_pos view db_txn].
  by destruct (next_after String.ltb (pos_key pos) (map key rows)).
Qed.

Lemma run_select_next_rowid {B} q sel b pos (k : bool -> prog db B)
    disk rows stmts next err r clk out :
  stmts !! sel = Some (StmtState KSelectRowid b pos) ->
  bind (select_next (Stmt q sel)) k
       (World (Db true disk (Some (Some rows)) stmts next err) r clk out)
  = match next_after Z.ltb (pos_rowid pos) (map rowid rows) with
    | Some n =>
        k true (World (Db true disk (Some (Some rows))
                          (<[sel := StmtState KSelectRowid b (AtRowid n)]> stmts) next err)
                      r clk (out ++ [Call (Step (Stmt q sel)) SQLITE_ROW]))
    | None =>
        k false (World (Db true disk (Some (Some rows))
                           (<[sel := StmtState KSelectRowid b Before]> stmts) next err)
                       r clk (out ++ [Call (Step (Stmt q sel)) SQLITE_DONE]))
    end.
Proof.
  intros Hst. unfold select_next, sqlite3_step. rewrite bind_assoc, bind_api.
  cbn [sq_step rel_sqlite3 w_db stmt_id]. unfold rel_step. cbn [db_stmts].
  rewrite Hst. cbn [st_kind st_binds st_pos view db_txn].
  by destruct (next_after Z.ltb (pos_rowid pos) (map rowid rows)).
Qed.

Lemma run_column_text {B} q sel b pos r0 (k : option string -> prog db B)
    disk rows stmts next err r clk out :
  stmts !! sel = Some (StmtState KSelectKey b pos) ->
  current_row pos rows = Some r0 ->
  bind (sqlite3_column_text (Stmt q sel) 0) k
       (World (Db true disk (Some (Some rows)) stmts next err) r clk out)
  = k (Some (key r0))
      (World (Db true disk (Some (Some rows)) stmts next err) r clk
             (out ++ [ColumnText (Stmt q sel) 0 (Some (key r0))])).
Proof.
  intros Hst Hrow. unfold bind at 1, sqlite3_column_text.
  cbn [sq_column_text rel_sqlite3 w_db stmt_id]. unfold rel_column_text, rel_row.
  cbn [db_stmts view db_txn]. rewrite Hst. cbn [st_pos st_kind]. rewrite Hrow.
  cbn [st_pos st_kind]. reflexivity.
Qed.

Lemma run_column_double {B} q sel kind b pos r0 col (k : float -> prog db B)
    disk rows stmts next err r clk out :
  stmts !! sel = Some (StmtState kind b pos) ->
  current_row pos rows = Some r0 ->
  bind (sqlite3_column_double (Stmt q sel) col) k
       (World (Db true disk (Some (Some rows)) stmts next err) r clk out)
  = let d := if col =? 1 then num1 r0
             else if col =? 2 then num2 r0
             else if col =? 3 then num3 r0
             else if col =? 4 then num4 r0 else 0%float in
    k d (World (Db true disk (Some (Some rows)) stmts next err) r clk
               (out ++ [ColumnDouble (Stmt q sel) col d])).
Proof.
  intros Hst Hrow. unfold bind at 1, sqlite3_column_double.
  cbn [sq_column_double rel_sqlite3 w_db stmt_id]. unfold rel_column_double, rel_row.
  cbn [db_stmts view db_txn]. rewrite Hst. cbn [st_pos st_kind]. rewrite Hrow.
  cbn [st_pos st_kind]. reflexivity.
Qed.

Lemma run_column_int64 {B} q sel b pos r0 (k : Z -> prog db B)
    disk rows stmts next err r clk out :
  stmts !! sel = Some (StmtState KSelectRowid b pos) ->
  current_row pos rows = Some r0 ->
  bind (sqlite3_column_int64 (Stmt q sel) 0) k
       (World (Db true disk (Some (Some rows)) stmts next err) r clk out)
  = k (rowid r0)
      (World (Db true disk (Some (Some rows)) stmts next err) r clk
             (out ++ [ColumnInt64 (Stmt q sel) 0 (rowid r0)])).
Proof.
  intros Hst Hrow. unfold bind at 1, sqlite3_column_int64.
  cbn [sq_column_int64 rel_sqlite3 w_db stmt_id]. unfold rel_column_int64, rel_row.
  cbn [db_stmts view db_txn]. rewrite Hst. cbn [st_pos st_kind]. rewrite Hrow.
  cbn [st_pos st_kind]. reflexivity.
Qed.

Lemma run_step_update_key {B} q up b pos n1 n2 n3 n4 key_ (k : Z -> prog db B)
    disk rows stmts next err r clk out :
  stmts !! up = Some (StmtState KUpdateKey b pos) ->
  b !! 1 = Some (VReal n1) -> b !! 2 = Some (VReal n2) -> b !! 3 = Some (VReal n3) ->
  b !! 4 = Some (VReal n4) -> b !! 5 = Some (VText key_) ->
  bind (sqlite3_step (Stmt q up)) k
       (World (Db true disk (Some (Some rows)) stmts next err) r clk out)
  = k SQLITE_DONE
      (World (Db true disk
                 (Some (Some (map (fun r' => if String.eqb (key r') key_
                                             then set_nums n1 n2 n3 n4 r' else r') rows)))
                 stmts next err) r clk
             (out ++ [Call (Step (Stmt q up)) SQLITE_DONE])).
Proof.
  intros Hst H1 H2 H3 H4 H5. unfold sqlite3_step. rewrite bind_api.
  cbn [sq_step rel_sqlite3 w_db stmt_id]. unfold rel_step. cbn [db_stmts].
  rewrite Hst. cbn [st_kind st_binds view db_txn]. by rewrite H1, H2, H3, H4, H5.
Qed.

Lemma run_step_update_rowid {B} q up b pos n1 n2 n3 n4 n (k : Z -> prog db B)
    disk rows stmts next err r clk out :
  stmts !! up = Some (StmtState KUpdateRowid b pos) ->
  b !! 1 = Some (VReal n1) -> b !! 2 = Some (VReal n2) -> b !! 3 = Some (VReal n3) ->
  b !! 4 = Some (VReal n4) -> b !! 5 = Some (VInt n) ->
  bind (sqlite3_step (Stmt q up)) k
       (World (Db true disk (Some (Some rows)) stmts next err) r clk out)
  = k SQLITE_DONE
      (World (Db true disk
                 (Some (Some (map (fun r' => if rowid r' =? n
                                             then set_nums n1 n2 n3 n4 r' else r') rows)))
                 stmts next err) r clk
             (out ++ [Call (Step (Stmt q up)) SQLITE_DONE])).
Proof.
  intros Hst H1 H2 H3 H4 H5. unfold sqlite3_step. rewrite bind_api.
  cbn [sq_step rel_sqlite3 w_db stmt_id]. unfold rel_step. cbn [db_stmts].
  rewrite Hst. cbn [st_kind st_binds view db_txn]. by rewrite H1, H2, H3, H4, H5.
Qed.

End RelUpdateRuns.

Section RelUpdatePk.
Context {E : Env}.
Variables (disk : option (list test_t)) (m : gmap nat stmt_state).
Variables (sel up next : nat) (err : string) (r : nat) (clk : list Z).
Hypothesis Hup : m !! up = Some (StmtState KUpdateKey ∅ Before).
Hypothesis Hne : sel ≠ up.
Variable rows0 : list test_t.
Hypothesis Hnd : NoDup (map key rows0).

(** The world inside the loop of [update_rows_pk]: the transaction is
    open, the SELECT stands at [pos], the UPDATE has no bindings. *)
Definition Wpk (pos : cursor) (rows : list test_t) (out : list event) : world db :=
  World (Db true disk (Some (Some rows)) (<[sel := StmtState KSelectKey ∅ pos]> m) next err)
        r clk out.

Ltac run_binds :=
  unfold sqlite3_bind_text, sqlite3_bind_double, sqlite3_bind_int64;
  cbn [sq_bind_text sq_bind_double sq_bind_int64 rel_sqlite3 stmt_id];
  repeat (erewrite run_bind;
          [|first [apply lookup_insert_eq|rewrite lookup_insert_ne by done; exact Hup]|done];
          rewrite ?insert_insert_eq; cbn [st_kind st_binds st_pos]).

Lemma pk_body_ok k r0 rows out :
  current_row (AtKey k) rows = Some r0 -> key r0 = k ->
  (String.length k < KEY_SIZE)%nat ->
  exists evs,
    update_rows_pk_body (Stmt sql_select_key sel) (Stmt sql_update_key up)
      (Wpk (AtKey k) rows out)
    = (Done tt,
       Wpk (AtKey k)
           (map (fun r' => if String.eqb (key r') k
                           then set_nums (num1 r0 + 1) (num2 r0 + 1) (num3 r0 + 1) (num4 r0 + 1) r'
                           else r') rows)
           (out ++ evs)) /\
    forallb key_read_ok evs = true.
Proof.
  intros Hrow Hk Hlen. eexists. unfold update_rows_pk_body, Wpk.
  erewrite run_column_text; [|apply lookup_insert_eq|exact Hrow].
  unfold strcpy_key. rewrite run_write_key by (by rewrite Hk).
  do 4 (erewrite run_column_double; [|apply lookup_insert_eq|exact Hrow]).
  cbv zeta. cbn [Z.eqb Pos.eqb num1 num2 num3 num4 key].
  run_binds.
  erewrite run_step_update_key; [|apply lookup_insert_eq|by simplify_map_eq..].
  change (negb (SQLITE_DONE =? SQLITE_DONE)) with false. rewrite run_when_ok.
  erewrite run_reset by apply lookup_insert_eq.
  rewrite insert_insert_eq. cbn [st_kind st_binds st_pos].
  erewrite run_clear_bindings by apply lookup_insert_eq.
  rewrite insert_insert_eq. cbn [st_kind st_binds st_pos].
  rewrite insert_id by (by rewrite lookup_insert_ne).
  unfold ret. rewrite <- !app_assoc, Hk. split; [reflexivity|].
  cbn [app forallb key_read_ok andb]. rewrite andb_true_r.
  by apply Nat.ltb_lt.
Qed.

Lemma pk_body_undefined k r0 rows out :
  current_row (AtKey k) rows = Some r0 -> key r0 = k ->
  ~ (String.length k < KEY_SIZE)%nat ->
  fst (update_rows_pk_body (Stmt sql_select_key sel) (Stmt sql_update_key up)
         (Wpk (AtKey k) rows out)) = Undefined.
Proof.
  intros Hrow Hk Hlen. unfold update_rows_pk_body, Wpk.
  erewrite run_column_text; [|apply lookup_insert_eq|exact Hrow].
  unfold strcpy_key. by rewrite run_write_key_overrun by (by rewrite Hk).
Qed.

Lemma pk_loop fuel : forall pos rows out,
  rows = walked String.ltb key (pos_key pos) rows0 ->
  exists o w',
    while_loop fuel (select_next (Stmt sql_select_key sel))
      (update_rows_pk_body (Stmt sql_select_key sel) (Stmt sql_update_key up))
      (Wpk pos rows out) = (o, w') /\
    match o with
    | Done _ =>
        exists evs, w' = Wpk Before (map bump rows0) (out ++ evs) /\
                    forallb key_read_ok evs = true
    | Undefined => exists k, k ∈ map key rows0 /\ ~ (String.length k < KEY_SIZE)%nat
    | Timeout => (fuel <= remaining String.ltb (pos_key pos) (map key rows0))%nat
    | Exit _ => False
    end.
Proof.
  induction fuel as [|fuel IH]; intros pos rows out Hrows.
  { eexists Timeout, _. split; [reflexivity|]. lia. }
  cbn [while_loop]. unfold Wpk at 1.
  erewrite run_select_next_key by apply lookup_insert_eq.
  destruct (next_after String.ltb (pos_key pos) (map key rows)) as [k|] eqn:Hnext;
    rewrite insert_insert_eq.
  - rewrite Hrows in Hnext.
    destruct (walked_find String.ltb key String.eqb string_ltb_irrefl string_ltb_trans
                string_ltb_total String.eqb_eq (fun _ _ _ _ _ => eq_refl)
                (pos_key pos) rows0 k Hnd Hnext) as (r0 & Hr0 & Hk & Hfind).
    rewrite <- Hrows in Hfind.
    pose proof Hnext as Hnext'. rewrite (walked_col String.ltb key) in Hnext'
      by (intros; reflexivity).
    fold (Wpk (AtKey k) rows (out ++ [Call (Step (Stmt sql_select_key sel)) SQLITE_ROW])).
    destruct (decide (String.length k < KEY_SIZE)%nat) as [Hlen|Hlen].
    + destruct (pk_body_ok k r0 rows (out ++ [Call (Step (Stmt sql_select_key sel)) SQLITE_ROW])
                  Hfind Hk Hlen) as (evs & Hbody & Hevs).
      unfold bind at 1. rewrite Hbody.
      rewrite Hrows,
        (walked_update String.ltb key String.eqb string_ltb_irrefl string_ltb_trans
           string_ltb_total String.eqb_eq (fun _ _ _ _ _ => eq_refl)
           (pos_key pos) rows0 k r0 Hnd Hnext Hr0 Hk).
      destruct (IH (AtKey k) (walked String.ltb key (Some k) rows0)
                  ((out ++ [Call (Step (Stmt sql_select_key sel)) SQLITE_ROW]) ++ evs) eq_refl)
        as (o & w' & Hloop & Ho).
      exists o, w'. split; [exact Hloop|].
      destruct o as [[]| | |]; try done.
      * destruct Ho as (evs' & -> & Hevs'). eexists. rewrite <- !app_assoc.
        split; [reflexivity|]. cbn [app forallb key_read_ok andb].
        by rewrite forallb_app, Hevs, Hevs'.
      * pose proof (remaining_next String.ltb string_ltb_irrefl string_ltb_trans
                      string_ltb_total (pos_key pos) (map key rows0) k Hnext') as Hlt.
        cbn [pos_key] in Ho. lia.
    + pose proof (pk_body_undefined k r0 rows
                    (out ++ [Call (Step (Stmt sql_select_key sel)) SQLITE_ROW])
                    Hfind Hk Hlen) as Hundef.
      unfold bind at 1.
      destruct (update_rows_pk_body _ _ _) as [o w']. cbn [fst] in Hundef. subst o.
      eexists Undefined, _. split; [reflexivity|]. exists k. split; [|done].
      rewrite <- Hk. apply list_elem_of_fmap. by exists r0.
  - eexists (Done tt), _. split; [reflexivity|].
    exists [Call (Step (Stmt sql_select_key sel)) SQLITE_DONE]. split; [|done].
    unfold Wpk. rewrite Hrows in Hnext |- *.
    by rewrite (walked_end String.ltb key (fun _ _ _ _ _ => eq_refl) (pos_key pos) rows0 Hnext).
Qed.

End RelUpdatePk.

Section RelUpdateRowid.
Context {E : Env}.
Variables (disk : option (list test_t)) (m : gmap nat stmt_state).
Variables (sel up next : nat) (err : string) (r : nat) (clk : list Z).
Hypothesis Hup : m !! up = Some (StmtState KUpdateRowid ∅ Before).
Hypothesis Hne : sel ≠ up.
Variable rows0 : list test_t.
Hypothesis Hnd : NoDup (map rowid rows0).

(** The world inside the loop of [update_rows_rowid]. *)
Definition Wrowid (pos : cursor) (rows : list test_t) (out : list event) : world db :=
  World (Db true disk (Some (Some rows)) (<[sel := StmtState KSelectRowid ∅ pos]> m) next err)
        r clk out.

Ltac run_binds :=
  unfold sqlite3_bind_text, sqlite3_bind_double, sqlite3_bind_int64;
  cbn [sq_bind_text sq_bind_double sq_bind_int64 rel_sqlite3 stmt_id];
  repeat (erewrite run_bind;
          [|first [apply lookup_insert_eq|rewrite lookup_insert_ne by done; exact Hup]|done];
          rewrite ?insert_insert_eq; cbn [st_kind st_binds st_pos]).

Lemma rowid_body_ok n r0 rows out :
  current_row (AtRowid n) rows = Some r0 -> rowid r0 = n ->
  exists evs,
    update_rows_rowid_body (Stmt sql_select_rowid sel) (Stmt sql_update_rowid up)
      (Wrowid (AtRowid n) rows out)
    = (Done tt,
       Wrowid (AtRowid n)
           (map (fun r' => if rowid r' =? n
                           then set_nums (num1 r0 + 1) (num2 r0 + 1) (num3 r0 + 1) (num4 r0 + 1) r'
                           else r') rows)
           (out ++ evs)) /\
    forallb key_read_ok evs = true.
Proof.
  intros Hrow Hn. eexists. unfold update_rows_rowid_body, Wrowid.
  erewrite run_column_int64; [|apply lookup_insert_eq|exact Hrow].
  do 4 (erewrite run_column_double; [|apply lookup_insert_eq|exact Hrow]).
  cbv zeta. cbn [Z.eqb Pos.eqb num1 num2 num3 num4 rowid].
  run_binds.
  erewrite run_step_update_rowid; [|apply lookup_insert_eq|by simplify_map_eq..].
  change (negb (SQLITE_DONE =? SQLITE_DONE)) with false. rewrite run_when_ok.
  erewrite run_reset by apply lookup_insert_eq.
  rewrite insert_insert_eq. cbn [st_kind st_binds st_pos].
  erewrite run_clear_bindings by apply lookup_insert_eq.
  rewrite insert_insert_eq. cbn [st_kind st_binds st_pos].
  rewrite insert_id by (by rewrite lookup_insert_ne).
  unfold ret. rewrite <- !app_assoc, Hn. by split.
Qed.

Lemma rowid_loop fuel : forall pos rows out,
  rows = walked Z.ltb rowid (pos_rowid pos) rows0 ->
  exists o w',
    while_loop fuel (select_next (Stmt sql_select_rowid sel))
      (update_rows_rowid_body (Stmt sql_select_rowid sel) (Stmt sql_update_rowid up))
      (Wrowid pos rows out) = (o, w') /\
    match o with
    | Done _ =>
        exists evs, w' = Wrowid Before (map bump rows0) (out ++ evs) /\
                    forallb key_read_ok evs = true
    | Timeout => (fuel <= remaining Z.ltb (pos_rowid pos) (map rowid rows0))%nat
    | _ => False
    end.
Proof.
  induction fuel as [|fuel IH]; intros pos rows out Hrows.
  { eexists Timeout, _. split; [reflexivity|]. lia. }
  cbn [while_loop]. unfold Wrowid at 1.
  erewrite run_select_next_rowid by apply lookup_insert_eq.
  destruct (next_after Z.ltb (pos_rowid pos) (map rowid rows)) as [n|] eqn:Hnext;
    rewrite insert_insert_eq.
  - rewrite Hrows in Hnext.
    destruct (walked_find Z.ltb rowid Z.eqb Z.ltb_irrefl Z_ltb_trans
                Z_ltb_total Z.eqb_eq (fun _ _ _ _ _ => eq_refl)
                (pos_rowid pos) rows0 n Hnd Hnext) as (r0 & Hr0 & Hn & Hfind).
    rewrite <- Hrows in Hfind.
    pose proof Hnext as Hnext'. rewrite (walked_col Z.ltb rowid) in Hnext'
      by (intros; reflexivity).
    fold (Wrowid (AtRowid n) rows (out ++ [Call (Step (Stmt sql_select_rowid sel)) SQLITE_ROW])).
    destruct (rowid_body_ok n r0 rows (out ++ [Call (Step (Stmt sql_select_rowid sel)) SQLITE_ROW])
                Hfind Hn) as (evs & Hbody & Hevs).
    unfold bind at 1. rewrite Hbody.
    rewrite Hrows,
      (walked_update Z.ltb rowid Z.eqb Z.ltb_irrefl Z_ltb_trans
         Z_ltb_total Z.eqb_eq (fun _ _ _ _ _ => eq_refl)
         (pos_rowid pos) rows0 n r0 Hnd Hnext Hr0 Hn).
    destruct (IH (AtRowid n) (walked Z.ltb rowid (Some n) rows0)
                ((out ++ [Call (Step (Stmt sql_select_rowid sel)) SQLITE_ROW]) ++ evs) eq_refl)
      as (o & w' & Hloop & Ho).
    exists o, w'. split; [exact Hloop|].
    destruct o as [[]| | |]; try done.
    + destruct Ho as (evs' & -> & Hevs'). eexists. rewrite <- !app_assoc.
      split; [reflexivity|]. cbn [app forallb key_read_ok andb].
      by rewrite forallb_app, Hevs, Hevs'.
    + pose proof (remaining_next Z.ltb Z.ltb_irrefl Z_ltb_trans
                    Z_ltb_total (pos_rowid pos) (map rowid rows0) n Hnext') as Hlt.
      cbn [pos_rowid] in Ho. lia.
  - eexists (Done tt), _. split; [reflexivity|].
    exists [Call (Step (Stmt sql_select_rowid sel)) SQLITE_DONE]. split; [|done].
    unfold Wrowid. rewrite Hrows in Hnext |- *.
    by rewrite (walked_end Z.ltb rowid (fun _ _ _ _ _ => eq_refl) (pos_rowid pos) rows0 Hnext).
Qed.

End RelUpdateRowid.

Lemma remaining_all {K} (ltb : K -> K -> bool) (ks : list K) :
  remaining ltb None ks = length ks.
Proof.
  unfold remaining. induction ks as [|k ks IH]; [done|]. simpl. by rewrite IH.
Qed.

Section RelUpdate.
Context {E : Env}.

(** What an update function leaves behind on an open connection with the
    table [rows0] and no transaction: when it returns, every row of the
    committed table has been updated once. *)
Definition updated (undefined : Prop) (rows0 : list test_t) (r : nat) (clk : list Z)
    (err : string) (out : list event) (fuel : nat) (res : outcome unit * world db) : Prop :=
  match fst res with
  | Done _ =>
      exists stmts next evs,
        snd res = World (Db true (Some (map bump rows0)) None stmts next err)
                        r clk (out ++ evs) /\
        forallb key_read_ok evs = true
  | Undefined => undefined
  | Timeout => (fuel <= length rows0)%nat
  | Exit _ => False
  end.

Lemma update_rows_pk_run fuel rows0 stmts next err r clk out :
  NoDup (map key rows0) ->
  updated (exists k, k ∈ map key rows0 /\ ~ (String.length k < KEY_SIZE)%nat)
    rows0 r clk err out fuel
    (update_rows_pk fuel (World (Db true (Some rows0) None stmts next err) r clk out)).
Proof.
  intros Hnd. unfold update_rows_pk. rewrite run_exec_begin.
  change (negb (SQLITE_OK =? SQLITE_OK)) with false. rewrite run_when_ok.
  erewrite run_prepare by reflexivity. cbv beta iota.
  change (negb (SQLITE_OK =? SQLITE_OK)) with false. rewrite run_when_ok.
  erewrite run_prepare by reflexivity. cbv beta iota.
  change (negb (SQLITE_OK =? SQLITE_OK)) with false. rewrite run_when_ok.
  rewrite insert_insert_ne by lia.
  set (m := <[S next := StmtState KUpdateKey ∅ Before]> stmts).
  destruct (pk_loop (Some rows0) m next (S next) (S (S next)) err r clk
              (lookup_insert_eq _ _ _) (Nat.neq_succ_diag_r next) rows0 Hnd fuel Before rows0
              ((out ++ [Call (Exec sql_begin) SQLITE_OK] ++ [Call (Prepare sql_select_key) SQLITE_OK])
                 ++ [Call (Prepare sql_update_key) SQLITE_OK]))
    as (o & w' & Hloop & Ho).
  { symmetry. apply walked_start. }
  unfold Wpk in Hloop. rewrite <- !app_assoc in Hloop |- *.
  unfold bind at 1. cbn [app] in Hloop |- *. rewrite Hloop. unfold updated.
  destruct o as [[]| | |]; cbn [fst]; try done.
  - destruct Ho as (evs & -> & Hevs). unfold Wpk.
    rewrite run_exec_commit. change (negb (SQLITE_OK =? SQLITE_OK)) with false.
    rewrite run_when_ok.
    erewrite run_finalize by apply lookup_insert_eq.
    erewrite run_finalize by (rewrite lookup_delete_ne by lia; rewrite lookup_insert_ne by lia;
                              apply lookup_insert_eq).
    eexists _, _, _. cbn [fst snd ret]. rewrite <- !app_assoc. split; [reflexivity|].
    cbn [app forallb key_read_ok andb]. rewrite forallb_app, Hevs. done.
  - cbn [pos_key pos_rowid] in Ho. by rewrite remaining_all, length_map in Ho.
Qed.


End RelUpdate.

(** *** The table after inserts and updates *)

(** The two update functions. *)
Inductive update_strategy : Type :=
| UpdateRowsPk
| UpdateRowsRowid.

Definition update_prog {Conn : Type} {SQ : Sqlite3 Conn}
    (u : update_strategy) (fuel : nat) : prog Conn unit :=
  match u with
  | UpdateRowsPk => update_rows_pk fuel
  | UpdateRowsRowid => update_rows_rowid fuel
  end.

(** The state a strategy starts in: the connection is open, no
    transaction is going on, and the committed table holds [rows]. *)
Definition table_state (w : world db) (rows : list test_t) : Prop :=
  db_open (w_db w) = true /\ db_txn (w_db w) = None /\ db_disk (w_db w) = Some rows.

(** The committed table after a run. *)
Definition table_after (res : outcome unit * world db) : option (list test_t) :=
  db_disk (w_db (snd res)).


(** Every key of the table fits the [key] buffer of [update_rows_pk]. *)
Definition keys_fit (rows : list test_t) : Prop :=
  Forall (fun r => (String.length (key r) < KEY_SIZE)%nat) rows.

Lemma table_state_inv (w : world db) (rows : list test_t) :
  table_state w rows ->
  exists stmts next err r clk out,
    w = World (Db true (Some rows) None stmts next err) r clk out.
Proof.
  destruct w as [[o disk txn stmts next err] r clk out].
  intros (Ho & Htxn & Hdisk). simpl in *. subst. by eexists _, _, _, _, _, _.
Qed.



Lemma strategy_prog_run {E : Env} (s : strategy) (w : world db) :
  table_state w [] ->
  match fst (strategy_prog s w) with
  | Done _ =>
      exists rows, table_state (snd (strategy_prog s w)) rows /\
        map key rows = map (generated_key s) (seq 0 NUM_EXECUTIONS) /\
        (exists evs, w_out (snd (strategy_prog s w)) = w_out w ++ evs /\
                     forallb key_read_ok evs = true)
  | Undefined =>
      exists i, (i < NUM_EXECUTIONS)%nat /\
        ~ (String.length (generated_key s i) < KEY_SIZE)%nat
  | _ => False
  end.
Proof.
  intros (stmts & next & err & r & clk & out & ->)%table_state_inv.
  destruct (strategy_run s stmts next err r clk out) as [Hevs Hrun].
  destruct (strategy_prog s _) as [[[]| | |] w']; cbn [fst snd] in *; try done.
  destruct Hrun as (rows & stmts' & next' & Hdb & Hkeys & _). exists rows.
  split; [|done]. unfold table_state. by rewrite Hdb.
Qed.



(** C3: started on an empty table, an insert function that runs to
    completion leaves exactly [NUM_EXECUTIONS] rows in the table; and it
    does run to completion when every generated key fits the buffer, which
    is so for every row count up to 10^22. *)
Theorem insert_leaves_n_rows {E : Env} (s : strategy) (w : world db) :
  table_state w [] ->
  (fst (strategy_prog s w) = Done tt ->
     exists rows, table_after (strategy_prog s w) = Some rows /\
       length rows = NUM_EXECUTIONS) /\
  (Z.of_nat NUM_EXECUTIONS <= 10 ^ 22 -> fst (strategy_prog s w) = Done tt).
Proof.
  intros Hstate. pose proof (strategy_prog_run s w Hstate) as Hrun. split.
  - intros Hdone. rewrite Hdone in Hrun. destruct Hrun as (rows & Hst & Hkeys & _).
    exists rows. split; [apply Hst|].
    by rewrite <- (length_map key), Hkeys, length_map, length_seq.
  - intros Hn. destruct (fst (strategy_prog s w)) as [[]| | |]; try done.
    destruct Hrun as (i & Hi & Hbad). destruct Hbad.
    pose proof (generated_key_length s 22 i) as Hlen. unfold KEY_SIZE.
    assert (String.length (generated_key s i) <= 2 + 22)%nat; [|lia].
    apply Hlen; lia.
Qed.

(** *** The generated keys *)

(** C4: within one run of an insert function the keys generated for the
    indices 0 .. N-1 are pairwise distinct: the key is an injective
    function of the index, and the keys a run hands to SQLite are the
    generated keys of the indices from 0 on, each once, all
    [NUM_EXECUTIONS] of them when the run completes. *)
Theorem generated_keys_pairwise_distinct {Conn : Type} {SQ : Sqlite3 Conn} {E : Env}
    (s : strategy) (w : world Conn) :
  (forall i j, generated_key s i = generated_key s j -> i = j) /\
  exists ks,
    sent_keys (w_out (snd (strategy_prog s w))) = sent_keys (w_out w) ++ ks /\
    NoDup ks /\
    (fst (strategy_prog s w) = Done tt ->
       ks = map (generated_key s) (seq 0 NUM_EXECUTIONS)).
Proof.
  split; [apply generated_key_inj|].
  destruct (strategy_sent_keys s w) as (m & Hm & Hout & Hdone).
  exists (map (generated_key s) (seq 0 m)). split; [done|].
  split; [apply generated_keys_NoDup|]. intros Hd. by rewrite (Hdone Hd).
Qed.

(** C5, amended: the key generated for index [i] is a fixed prefix
    followed by the decimal representation of [i]; the prefix is fixed per
    insert function: it is empty in [insert_rows] and ["K-"] in
    [insert_rows_xact] and [insert_rows_xact_prepared]. *)
Theorem generated_key_is_prefix_then_decimal {Conn : Type} {SQ : Sqlite3 Conn} {E : Env}
    (s : strategy) (w : world Conn) :
  (key_prefix InsertRows = "" /\ key_prefix InsertRowsXact = "K-" /\
   key_prefix InsertRowsXactPrepared = "K-") /\
  (forall i, generated_key s i = key_prefix s +:+ pretty (Z.of_nat i)) /\
  exists m, (m <= NUM_EXECUTIONS)%nat /\
    sent_keys (w_out (snd (strategy_prog s w)))
    = sent_keys (w_out w) ++ map (fun i => key_prefix s +:+ pretty (Z.of_nat i)) (seq 0 m) /\
    (fst (strategy_prog s w) = Done tt -> m = NUM_EXECUTIONS).
Proof.
  split; [done|]. split; [apply generated_key_prefix|].
  destruct (strategy_sent_keys s w) as (m & Hm & Hout & Hdone).
  exists m. split; [done|]. split; [|done].
  rewrite Hout. f_equal. apply map_ext. intros i. apply generated_key_prefix.
Qed.

(** *** The range of [rand_double] *)

(** [p] holds for [n] consecutive integers from [r] on. *)
Fixpoint all_from (n : nat) (r : Z) (p : Z -> bool) : bool :=
  match n with
  | O => true
  | S n' => p r && all_from n' (r + 1) p
  end.

Lemma all_from_spec (n : nat) (p : Z -> bool) : forall r0,
  all_from n r0 p = true -> forall r, r0 <= r < r0 + Z.of_nat n -> p r = true.
Proof.
  induction n as [|n IH]; intros r0 Hall r Hr; [lia|].
  cbn [all_from] in Hall. apply andb_prop in Hall as [Hp Hall].
  destruct (decide (r = r0)) as [->|Hne]; [done|].
  apply (IH (r0 + 1)); [done|lia].
Qed.

(** The value of [RAND_MAX] in the Microsoft C runtime, the smallest the
    C standard allows. *)
Definition RAND_MAX_min : Z := 32767.

(** What [rand_double] returns for [r] when [RAND_MAX] is 32767: a number
    from 0 to 100.0, below 100.0 exactly when [r] is below [RAND_MAX]. *)
Definition rand_double_in_range (r : Z) : bool :=
  let v := rand_double_of RAND_MAX_min r in
  (0 <=? v)%float && (v <=? RAND_DOUBLE_LIMIT)%float &&
  Bool.eqb (v <? RAND_DOUBLE_LIMIT)%float (r <? RAND_MAX_min).

(** C6, amended: for every value [r] of the generator with
    [0 <= r <= RAND_MAX], here with [RAND_MAX] = 32767, the value
    [r / (RAND_MAX / 100.0)] of [rand_double], computed in binary64, lies
    in the closed interval from 0 to 100.0; it is below 100.0 for
    [r < RAND_MAX] and is 100.0 for [r = RAND_MAX]. *)
Theorem rand_double_closed_interval (r : Z) :
  0 <= r <= RAND_MAX_min ->
  let v := rand_double_of RAND_MAX_min r in
  (0 <=? v)%float = true /\ (v <=? RAND_DOUBLE_LIMIT)%float = true /\
  ((v <? RAND_DOUBLE_LIMIT)%float = true <-> r < RAND_MAX_min) /\
  (r = RAND_MAX_min -> v = RAND_DOUBLE_LIMIT).
Proof.
  intros Hr v.
  assert (rand_double_in_range r = true) as Hin.
  { apply (all_from_spec (Z.to_nat 32768) rand_double_in_range 0).
    - vm_compute. reflexivity.
    - unfold RAND_MAX_min in Hr. rewrite Z2Nat.id; lia. }
  unfold rand_double_in_range in Hin. fold v in Hin.
  apply andb_prop in Hin as [[H0 H100]%andb_prop Hlt].
  split; [done|]. split; [done|]. split.
  - apply Bool.eqb_prop in Hlt. rewrite Hlt. apply Z.ltb_lt.
  - intros ->. subst v. vm_compute. reflexivity.
Qed.

(** *** Failures that end the process *)

(** C7 says that every failing call ends the process.  The code does so
    for the calls the claim names, which the next theorem shows for every
    connection; it does not for the step of a SELECT, whose result the two
    update functions leave unexamined. *)

(** The calls that C7 lists, where the code does what the claim says:
    whenever [sqlite3_open], [sqlite3_close], [sqlite3_exec] or
    [sqlite3_prepare_v3] returns anything but [SQLITE_OK], or the step of
    an INSERT or UPDATE statement returns anything but [SQLITE_DONE], the
    program fetches SQLite's last error message, prints it, prompts the
    user, reads a character and ends the process with status -1; it makes
    no call to SQLite after the failed one, so nothing is retried.  The
    step of a SELECT is not among them. *)
Theorem checked_failure_is_fatal {Conn : Type} {SQ : Sqlite3 Conn} {E : Env}
    (fuel : nat) (w : world Conn) (pre post : list event) (e : event) :
  w_out (snd (main fuel w)) = w_out w ++ pre ++ e :: post ->
  checked_failure e = true ->
  fst (main fuel w) = Exit (-1) /\ exists msg, post = die_events msg.
Proof.
  intros Hout He. destruct (fatal_main fuel w) as (t & Ht & Ho).
  rewrite Ht in Hout. apply app_inv_head in Hout. subst t.
  destruct (fst (main fuel w)) as [[]|c| |].
  - unfold clean in Ho. rewrite Forall_app, Forall_cons in Ho.
    destruct Ho as (_ & Hbad & _). congruence.
  - destruct Ho as (-> & t0 & e' & msg & Heq & Ht0 & He').
    destruct (failure_position pre t0 post (die_events msg) e e' Heq Ht0
                (clean_die_events msg) He) as (_ & _ & ->).
    split; [done|]. by exists msg.
  - unfold clean in Ho. rewrite Forall_app, Forall_cons in Ho.
    destruct Ho as (_ & Hbad & _). congruence.
  - unfold clean in Ho. rewrite Forall_app, Forall_cons in Ho.
    destruct Ho as (_ & Hbad & _). congruence.
Qed.

(** *** The rate in the report *)


(** *** The key buffers *)

Section KeyBuffers.
Context {E : Env}.

Lemma run_open_database {B} (k : unit -> prog db B) d r clk out :
  bind open_database k (World d r clk out)
  = k tt (World (Db true None None ∅ 0 "not an error") r clk
                (out ++ [Remove DB_FILE_PATH; Call (Open DB_FILE_PATH) SQLITE_OK])).
Proof.
  transitivity
    (k tt (World (Db true None None ∅ 0 "not an error") r clk
                 ((out ++ [Remove DB_FILE_PATH]) ++ [Call (Open DB_FILE_PATH) SQLITE_OK])));
    [reflexivity|by rewrite <- app_assoc].
Qed.

(** The update scenario up to the end of [update_rows_pk]: from any
    state, opening the database, filling the table and updating by key
    runs to completion, and every key read fits the buffer, when the
    generated keys do. *)
Lemma update_pk_scenario_run (fuel : nat) (w : world db) :
  (forall i, (i < NUM_EXECUTIONS)%nat ->
     (String.length (generated_key InsertRowsXactPrepared i) < KEY_SIZE)%nat) ->
  (NUM_EXECUTIONS < fuel)%nat ->
  let res := bind open_database (fun _ => bind setup_update_test (fun _ => update_rows_pk fuel)) w in
  fst res = Done tt /\
  exists evs, w_out (snd res) = w_out w ++ evs /\ forallb key_read_ok evs = true.
Proof.
  intros Hfit Hfuel. destruct w as [d r clk out]. cbv zeta.
  match goal with
  | |- fst ?X = _ /\ _ =>
      assert (exists w' evs, X = (Done tt, w') /\ w_out w' = out ++ evs /\
                             forallb key_read_ok evs = true)
        as (w' & evs & -> & Hout & Hevs)
  end; [|split; [done|by exists evs]].
  rewrite run_open_database. unfold setup_update_test, setup_test.
  rewrite !bind_assoc. rewrite run_exec_create.
  change (negb (SQLITE_OK =? SQLITE_OK)) with false.
  rewrite run_when_ok. cbn [default].
  set (out1 := (out ++ _) ++ _).
  pose proof (insert_rows_xact_prepared_run ∅ 0 "not an error" r clk out1) as [Hevs Hrun].
  unfold bind at 1.
  destruct (insert_rows_xact_prepared _) as [[[]| | |] w1]; cbn [fst snd] in *; try done.
  - destruct Hrun as (rows & stmts & next & Hdb & Hkeys & Hr & Hclk).
    destruct Hevs as (evs1 & Hout1 & Hevs1).
    destruct w1 as [d1 r1 clk1 o1]. cbn [w_db w_rand w_clock w_out] in *. subst d1 r1 clk1 o1.
    assert (NoDup (map key rows)) as Hnd by (rewrite Hkeys; apply generated_keys_NoDup).
    pose proof (update_rows_pk_run fuel rows stmts next "not an error"
                  (4 * NUM_EXECUTIONS + r) clk (out1 ++ evs1) Hnd) as Hup.
    unfold updated in Hup.
    destruct (update_rows_pk fuel _) as [[[]| | |] w2]; cbn [fst snd] in *.
    + destruct Hup as (stmts' & next' & evs2 & -> & Hevs2). eexists _, _.
      split; [reflexivity|]. subst out1. cbn [w_out]. rewrite <- !app_assoc.
      split; [reflexivity|].
      cbn [app forallb key_read_ok andb]. by rewrite forallb_app, Hevs1, Hevs2.
    + done.
    + destruct Hup as (k & Hk & Hlen). destruct Hlen. rewrite Hkeys in Hk.
      apply list_elem_of_fmap in Hk as (i & -> & Hi). apply Hfit.
      apply elem_of_seq in Hi. lia.
    + assert (length rows = NUM_EXECUTIONS)
        by (by rewrite <- (length_map key), Hkeys, length_map, length_seq).
      lia.
  - destruct Hrun as (i & Hi & Hbad). by destruct Hbad; apply Hfit.
Qed.

End KeyBuffers.

(** C9: with the configured row count of 10,000,000 (or any smaller
    one), every key an insert function generates has at most 24
    characters, so the [sprintf] into the 25-byte [key] buffer stays in
    bounds and the insert function runs to completion on an empty table;
    and every key [update_rows_pk] reads back from the table that
    [setup_update_test] has filled has at most 24 characters, so its
    [strcpy] into the 25-byte [row.key] stays in bounds too. *)
Theorem keys_fit_the_buffers {E : Env} :
  Z.of_nat NUM_EXECUTIONS <= NUM_EXECUTIONS_source ->
  (forall s i, (i < NUM_EXECUTIONS)%nat -> (String.length (generated_key s i) <= 24)%nat) /\
  (forall s (w : world db), table_state w [] -> fst (strategy_prog s w) = Done tt) /\
  (forall fuel (w : world db), (NUM_EXECUTIONS < fuel)%nat ->
     let res := bind open_database
                  (fun _ => bind setup_update_test (fun _ => update_rows_pk fuel)) w in
     fst res = Done tt /\
     exists evs, w_out (snd res) = w_out w ++ evs /\
       forall st col o, ColumnText st col o ∈ evs ->
         exists k, o = Some k /\ (String.length k <= 24)%nat).
Proof.
  intros Hn.
  assert (forall s i, (i < NUM_EXECUTIONS)%nat ->
            (String.length (generated_key s i) <= 24)%nat) as Hfit.
  { intros s i Hi. pose proof (generated_key_length s 7 i) as Hlen.
    unfold NUM_EXECUTIONS_source in Hn.
    assert (String.length (generated_key s i) <= 2 + 7)%nat; [|lia].
    apply Hlen; lia. }
  split; [exact Hfit|]. split.
  - intros s w Hw. pose proof (strategy_prog_run s w Hw) as Hrun.
    destruct (fst (strategy_prog s w)) as [[]| | |]; try done.
    destruct Hrun as (i & Hi & Hbad). destruct Hbad.
    specialize (Hfit s i Hi). unfold KEY_SIZE. lia.
  - intros fuel w Hfuel.
    destruct (update_pk_scenario_run fuel w) as (Hdone & evs & Hout & Hevs); [|done|].
    { intros i Hi. specialize (Hfit InsertRowsXactPrepared i Hi). unfold KEY_SIZE. lia. }
    split; [done|]. exists evs. split; [done|]. intros st col o Hin.
    rewrite forallb_forall in Hevs. apply list_elem_of_In in Hin.
    specialize (Hevs _ Hin). cbn [key_read_ok] in Hevs.
    destruct o as [k|]; [|done]. exists k. split; [done|].
    apply Nat.ltb_lt in Hevs. unfold KEY_SIZE in Hevs. lia.
Qed.

(** *** Two executions *)

Lemma same_outcome_eq {A} (o1 o2 : outcome A) : same_outcome eq o1 o2 -> o1 = o2.
Proof. destruct o1, o2; simpl; try done; by intros ->. Qed.

Lemma run_printf {Conn : Type} {B} format args (k : unit -> prog Conn B) d r clk out :
  bind (printf format args) k (World d r clk out)
  = k tt (World d r clk (out ++ [Printf (Fmt format args)])).
Proof. reflexivity. Qed.

(** On the relational model a run of [main] does not depend on the
    database file it finds: [open_database] removes it. *)
Lemma main_removes_old_file {E : Env} (fuel : nat) (d : db) r clk out :
  main fuel (World d r clk out) = main fuel (World no_db r clk out).
Proof.
  unfold main. rewrite !run_printf.
  unfold time_test_execution at 1 5.
  rewrite !(bind_assoc open_database), !run_open_database. reflexivity.
Qed.

(** C10: the program never seeds the generator, so every execution draws
    the sequence [rand_seq] from its start, and two complete executions
    make the same calls to SQLite with the same row data, end the same way
    and leave the same table, whatever the clock shows and, on the
    relational model, whatever database file they find.  Only the clock
    readings and the result lines of the report, which show the measured
    times, may differ. *)
Theorem two_executions_same_data {E : Env} (fuel : nat) (clocks1 clocks2 : list Z) :
  (forall (Conn : Type) (SQ : Sqlite3 Conn) (c : Conn),
     let r1 := main fuel (start c clocks1) in
     let r2 := main fuel (start c clocks2) in
     fst r1 = fst r2 /\ data (w_out (snd r1)) = data (w_out (snd r2)) /\
     w_rand (snd r1) = w_rand (snd r2) /\ w_db (snd r1) = w_db (snd r2)) /\
  (forall d1 d2 : db,
     let r1 := main fuel (start d1 clocks1) in
     let r2 := main fuel (start d2 clocks2) in
     fst r1 = fst r2 /\ data (w_out (snd r1)) = data (w_out (snd r2)) /\
     w_rand (snd r1) = w_rand (snd r2) /\ w_db (snd r1) = w_db (snd r2)).
Proof.
  assert (forall (Conn : Type) (SQ : Sqlite3 Conn) (c : Conn),
     let r1 := main fuel (start c clocks1) in
     let r2 := main fuel (start c clocks2) in
     fst r1 = fst r2 /\ data (w_out (snd r1)) = data (w_out (snd r2)) /\
     w_rand (snd r1) = w_rand (snd r2) /\ w_db (snd r1) = w_db (snd r2)) as Hsame.
  { intros Conn SQ c r1 r2.
    destruct (det_main fuel (start c clocks1) (start c clocks2)) as [Ho (Hdb & Hr & Hout)];
      [by repeat split|].
    split; [by apply same_outcome_eq|]. by repeat split. }
  split; [exact Hsame|]. intros d1 d2. unfold start.
  rewrite (main_removes_old_file fuel d1), (main_removes_old_file fuel d2).
  apply (Hsame db _ no_db).
Qed.

(** *** Examples, witnesses and counterexamples

    They run the functions on the relational model or on the scripted
    connection, with the small build of three rows. *)

Section Examples.
Local Existing Instance small_env.

(** The fixture of the specification's scenario. *)
Definition fixture3 : list test_t :=
  [Test_t 1 "K-0" 1 1 1 1; Test_t 2 "K-1" 2 2 2 2; Test_t 3 "K-2" 3 3 3 3].

(** An open connection whose table holds [rows]. *)
Definition with_table (rows : list test_t) : world db :=
  World (Db true (Some rows) None ∅ 0 "") 0 [] [].

Lemma fixture3_valid : valid_table fixture3.
Proof. split; apply (bool_decide_unpack _); vm_compute; exact I. Defined.

Lemma with_table_state (rows : list test_t) : table_state (with_table rows) rows.
Proof. by repeat split. Defined.

Example scenario_update_rows_pk :
  update_rows_pk 10 (with_table fixture3)
  = (Done tt,
     World (Db true
              (Some [Test_t 1 "K-0" 2 2 2 2; Test_t 2 "K-1" 3 3 3 3; Test_t 3 "K-2" 4 4 4 4])
              None ∅ 2 "") 0 []
           (w_out (snd (update_rows_pk 10 (with_table fixture3))))).
Proof. vm_compute. reflexivity. Qed.

Example scenario_update_rows_rowid :
  table_after (update_rows_rowid 10 (with_table fixture3))
  = Some [Test_t 1 "K-0" 2 2 2 2; Test_t 2 "K-1" 3 3 3 3; Test_t 3 "K-2" 4 4 4 4].
Proof. vm_compute. reflexivity. Qed.

Example scenario_insert_keys :
  map key (default [] (table_after (insert_rows_xact_prepared (with_table []))))
  = ["K-0"; "K-1"; "K-2"]%string.
Proof. vm_compute. reflexivity. Qed.



Lemma insert_leaves_n_rows_witness :
  exists rows,
    table_after (strategy_prog InsertRowsXactPrepared (with_table [])) = Some rows /\
    length rows = 3%nat.
Proof.
  refine (proj1 (insert_leaves_n_rows InsertRowsXactPrepared (with_table [])
                   (with_table_state [])) _).
  vm_compute. reflexivity.
Defined.

(** C5 as stated fails: [insert_rows] writes the bare number and the two
    other functions write ["K-"] before it, so no one prefix serves all
    three. *)
Lemma no_common_key_prefix :
  sent_keys (w_out (snd (insert_rows (with_table [])))) = ["0"; "1"; "2"]%string /\
  sent_keys (w_out (snd (insert_rows_xact (with_table [])))) = ["K-0"; "K-1"; "K-2"]%string /\
  ~ exists prefix : string,
      forall s i, generated_key s i = prefix +:+ pretty (Z.of_nat i).
Proof.
  split; [vm_compute; reflexivity|]. split; [vm_compute; reflexivity|].
  intros (prefix & Hprefix).
  pose proof (Hprefix InsertRows O) as H0. pose proof (Hprefix InsertRowsXact O) as H1.
  rewrite <- H0 in H1. vm_compute in H1. discriminate.
Qed.

Lemma rand_double_closed_interval_witness :
  let v := rand_double_of RAND_MAX_min 41 in
  (0 <=? v)%float = true /\ (v <=? RAND_DOUBLE_LIMIT)%float = true /\
  ((v <? RAND_DOUBLE_LIMIT)%float = true <-> 41 < RAND_MAX_min) /\
  (41 = RAND_MAX_min -> v = RAND_DOUBLE_LIMIT).
Proof. apply (rand_double_closed_interval 41). vm_compute. split; discriminate. Defined.

(** A build whose generator returns [RAND_MAX]. *)
Definition top_env : Env := {|
  NUM_EXECUTIONS := 1;
  RAND_MAX := RAND_MAX_min;
  CLOCKS_PER_SEC := 1000;
  rand_seq _ := RAND_MAX_min;
  text_real d := d
|}.

(** C6 as stated fails: for [r = RAND_MAX] the result is 100.0 itself,
    with the [RAND_MAX] of the Microsoft runtime and with that of
    glibc. *)
Lemma rand_double_reaches_limit :
  rand_double_of 32767 32767 = 100%float /\
  (rand_double_of 32767 32767 <? 100)%float = false /\
  rand_double_of 2147483647 2147483647 = 100%float /\
  fst (@rand_double db top_env (start no_db [])) = Done 100%float.
Proof. repeat split; vm_compute; reflexivity. Qed.

(** The bounds depend on how the two divisions round for the [RAND_MAX]
    at hand: with a [RAND_MAX] of 32778 the result for [r = RAND_MAX] would
    be the next double above 100.0. *)
Example rand_double_rounding_depends_on_RAND_MAX :
  (rand_double_of 32778 32778 <=? RAND_DOUBLE_LIMIT)%float = false.
Proof. vm_compute. reflexivity. Qed.

Lemma checked_failure_is_fatal_witness :
  fst (main 10 (start [SQLITE_CANTOPEN] [])) = Exit (-1) /\
  exists msg, die_events "scripted failure" = die_events msg.
Proof.
  apply (checked_failure_is_fatal 10 (start [SQLITE_CANTOPEN] [])
           (take 7 (w_out (snd (main 10 (start [SQLITE_CANTOPEN] [])))))
           (die_events "scripted failure")
           (Call (Open DB_FILE_PATH) SQLITE_CANTOPEN));
    vm_compute; reflexivity.
Defined.

(** The results of the bind, clear-bindings, reset and finalize calls are
    not looked at anywhere: [sqlite3_bind_text] returns [SQLITE_RANGE] and
    [insert_rows_xact_prepared] goes on to the end. *)
Example bind_result_is_not_examined :
  let res := @insert_rows_xact_prepared _ _ top_env
               (start [0; 0; SQLITE_RANGE; 0; 0; 0; 0; SQLITE_DONE; 0; 0; 0; 0] []) in
  fst res = Done tt /\
  w_out (snd res) !! 2%nat
  = Some (Call (BindText (Stmt sql_insert 0) 1 "K-0") SQLITE_RANGE).
Proof. split; vm_compute; reflexivity. Qed.

(** The result codes of a run of [setup_update_test] on a connection that
    was just opened, and those of a run of [main] in which everything
    succeeds but the first step of the SELECT of [update_rows_pk]. *)
Definition fixture_script : list Z :=
  [0; 0; 0; 0] ++ concat (replicate 3 [0; 0; 0; 0; 0; SQLITE_DONE; 0; 0]) ++ [0; 0].

Definition failing_select_script : list Z :=
  [0; 0; 0; 0; 0; 0; 0; 0] ++ fixture_script ++ [0]
  ++ fixture_script ++ [0; 0; 0; SQLITE_ERROR; 0; 0; 0; 0]
  ++ fixture_script ++ [0; 0; 0; SQLITE_DONE; 0; 0; 0; 0].

(** C7: the code does not do what the claim says where it steps a SELECT.
    The loops of [update_rows_pk] and [update_rows_rowid] end on any
    result of [sqlite3_step] but [SQLITE_ROW], and that result is never
    compared with [SQLITE_DONE].  When the step fails, at the first row
    or after some rows, the function prints no error message and does not
    end the process: it commits what it has done so far, finalizes its
    statements and returns, and [main] goes on to print a result line for
    the scenario and to run the next one. *)
Lemma select_step_failure_is_committed :
  (let res := update_rows_pk 10 (start [0; 0; 0; SQLITE_ERROR; 0; 0; 0] []) in
   fst res = Done tt /\
   w_out (snd res)
   = [Call (Exec sql_begin) SQLITE_OK;
      Call (Prepare sql_select_key) SQLITE_OK;
      Call (Prepare sql_update_key) SQLITE_OK;
      Call (Step (Stmt sql_select_key 0)) SQLITE_ERROR;
      Call (Exec sql_commit) SQLITE_OK;
      Call (Finalize (Stmt sql_select_key 0)) SQLITE_OK;
      Call (Finalize (Stmt sql_update_key 0)) SQLITE_OK]) /\
  (let res := update_rows_rowid 10
                (start [0; 0; 0; SQLITE_ROW; 0; 0; 0; 0; 0; SQLITE_DONE; 0; 0;
                        SQLITE_BUSY; 0; 0; 0] []) in
   fst res = Done tt /\
   drop 17 (w_out (snd res))
   = [Call (Step (Stmt sql_select_rowid 0)) SQLITE_BUSY;
      Call (Exec sql_commit) SQLITE_OK;
      Call (Finalize (Stmt sql_select_rowid 0)) SQLITE_OK;
      Call (Finalize (Stmt sql_update_rowid 0)) SQLITE_OK]) /\
  (let res := main 10 (start failing_select_script [0; 1000; 0; 1000; 0; 1000; 0; 1000]) in
   fst res = Done tt /\
   take 7 (drop 92 (w_out (snd res)))
   = [Call (Step (Stmt sql_select_key 0)) SQLITE_ERROR;
      Call (Exec sql_commit) SQLITE_OK;
      Call (Finalize (Stmt sql_select_key 0)) SQLITE_OK;
      Call (Finalize (Stmt sql_update_key 0)) SQLITE_OK;
      Clock 1000;
      Call Close SQLITE_OK;
      Printf (Fmt report_format [AStr "Update Rows PK"; ADbl 1; ADbl 3])]).
Proof. repeat split; vm_compute; reflexivity. Qed.



Lemma keys_fit_the_buffers_witness :
  (forall s i, (i < 3)%nat -> (String.length (generated_key s i) <= 24)%nat) /\
  (forall s (w : world db), table_state w [] -> fst (strategy_prog s w) = Done tt) /\
  (forall fuel (w : world db), (3 < fuel)%nat ->
     let res := bind open_database
                  (fun _ => bind setup_update_test (fun _ => update_rows_pk fuel)) w in
     fst res = Done tt /\
     exists evs, w_out (snd res) = w_out w ++ evs /\
       forall st col o, ColumnText st col o ∈ evs ->
         exists k, o = Some k /\ (String.length k <= 24)%nat).
Proof. refine (@keys_fit_the_buffers small_env _). vm_compute. discriminate. Defined.

End Examples.

(** ** Part 6: further properties of the functions *)

(** *** The order of the calls into SQLite

    The documentation of SQLite says in which order a program may call
    the library: a statement is prepared on an open connection, bound
    while it is ready, stepped, read while it stands on a row, reset
    before it is bound again, and finalized before the connection is
    closed; a transaction is begun once and committed once; the database
    file is removed only while no connection is open.  [session_step]
    follows one event of a run through these rules and gives [None] when
    the event breaks one of them. *)

(** What has last been done with a prepared statement. *)

Inductive phase : Type :=
| Ready      (* prepared or reset: parameters may be bound *)
| OnRow      (* the last step returned [SQLITE_ROW]: columns may be read *)
| Finished.  (* the last step returned another code *)

(** The connection as the rules see it; a statement is known by its SQL
    text. *)
Record session : Type := Session {
  s_open : bool;                   (* a connection is open *)
  s_txn : bool;                    (* a transaction is open *)
  s_live : list (string * phase)   (* the statements not yet finalized *)
}.

Definition closed : session := Session false false [].
Definition opened : session := Session true false [].

Fixpoint find_stmt (q : string) (l : list (string * phase)) : option phase :=
  match l with
  | [] => None
  | (q', ph) :: l' => if String.eqb q q' then Some ph else find_stmt q l'
  end.

Fixpoint set_stmt (q : string) (ph : phase) (l : list (string * phase)) : list (string * phase) :=
  match l with
  | [] => []
  | (q', ph') :: l' =>
      if String.eqb q q' then (q', ph) :: l' else (q', ph') :: set_stmt q ph l'
  end.

Fixpoint drop_stmt (q : string) (l : list (string * phase)) : list (string * phase) :=
  match l with
  | [] => []
  | (q', ph') :: l' => if String.eqb q q' then l' else (q', ph') :: drop_stmt q l'
  end.

(** A call on the statement [st], which must be live. *)
Definition on_stmt (st : sqlite3_stmt) (s : session)
    (f : phase -> option (list (string * phase))) : option session :=
  if s_open s then
    match find_stmt (fmt (stmt_sql st)) (s_live s) with
    | Some ph => Session true (s_txn s) <$> f ph
    | None => None
    end
  else None.

Definition session_step (s : session) (e : event) : option session :=
  match e with
  | Remove _ => if s_open s then None else Some s
  | Call (Open _) rc =>
      if s_open s then None
      else Some (if rc =? SQLITE_OK then opened else s)
  | Call Close rc =>
      match s_open s, s_txn s, s_live s with
      | true, false, [] => Some (if rc =? SQLITE_OK then closed else s)
      | _, _, _ => None
      end
  | Call (Exec q) rc =>
      if s_open s then
        if String.eqb (fmt q) (fmt sql_begin) then
          if s_txn s then None
          else Some (if rc =? SQLITE_OK then Session true true (s_live s) else s)
        else if String.eqb (fmt q) (fmt sql_commit) then
          if s_txn s
          then Some (if rc =? SQLITE_OK then Session true false (s_live s) else s)
          else None
        else Some s
      else None
  | Call (Prepare q) rc =>
      if s_open s then
        match find_stmt (fmt q) (s_live s) with
        | Some _ => None
        | None =>
            Some (if rc =? SQLITE_OK
                  then Session true (s_txn s) (s_live s ++ [(fmt q, Ready)]) else s)
        end
      else None
  | Call (BindText st _ _) _ | Call (BindDouble st _ _) _ | Call (BindInt64 st _ _) _ =>
      on_stmt st s (fun ph => match ph with Ready => Some (s_live s) | _ => None end)
  | Call (Step st) rc =>
      on_stmt st s (fun ph =>
        match ph with
        | Finished => None
        | _ => Some (set_stmt (fmt (stmt_sql st))
                       (if rc =? SQLITE_ROW then OnRow else Finished) (s_live s))
        end)
  | Call (ClearBindings st) _ => on_stmt st s (fun _ => Some (s_live s))
  | Call (Reset st) _ =>
      on_stmt st s (fun _ => Some (set_stmt (fmt (stmt_sql st)) Ready (s_live s)))
  | Call (Finalize st) _ =>
      on_stmt st s (fun _ => Some (drop_stmt (fmt (stmt_sql st)) (s_live s)))
  | ColumnText st _ _ | ColumnDouble st _ _ | ColumnInt64 st _ _ =>
      on_stmt st s (fun ph => match ph with OnRow => Some (s_live s) | _ => None end)
  | Errmsg _ | Clock _ | Printf _ | Getchar => Some s
  end.

(** A whole trace, from the session [s]. *)
Definition session_run (s : session) (t : list event) : option session :=
  foldl (fun o e => o ≫= fun s' => session_step s' e) (Some s) t.

Lemma session_run_None (t : list event) :
  foldl (fun o e => o ≫= fun s' => session_step s' e) None t = None.
Proof. by induction t. Qed.

Lemma session_run_app (s : session) (t u : list event) :
  session_run s (t ++ u) = session_run s t ≫= fun s' => session_run s' u.
Proof.
  unfold session_run. rewrite foldl_app.
  destruct (foldl _ (Some s) t) as [s'|]; [done|]. apply session_run_None.
Qed.

Lemma session_run_die (s : session) (msg : string) :
  session_run s (die_events msg) = Some s.
Proof. reflexivity. Qed.

Section Protocol.
Context {Conn : Type} {SQ : Sqlite3 Conn} {E : Env}.

(** From the session [s], every run of [p] keeps to the rules, and when it
    returns [a] the session is [post a]. *)
Definition obeys {A} (s : session) (post : A -> session) (p : prog Conn A) : Prop :=
  forall w, exists evs s',
    w_out (snd (p w)) = w_out w ++ evs /\
    session_run s evs = Some s' /\
    forall a, fst (p w) = Done a -> s' = post a.

Lemma obeys_ret {A} s (a : A) : obeys s (fun _ => s) (ret a).
Proof. intros w. exists [], s. by rewrite app_nil_r. Qed.

Lemma obeys_ret_post {A} (post : A -> session) (a : A) : obeys (post a) post (ret a).
Proof. intros w. exists [], (post a). rewrite app_nil_r. repeat split. by intros ? [= <-]. Qed.

Lemma obeys_bind {A B} s post post' (p : prog Conn A) (k : A -> prog Conn B) :
  obeys s post p -> (forall a, obeys (post a) post' (k a)) -> obeys s post' (bind p k).
Proof.
  intros Hp Hk w. destruct (Hp w) as (evs & s1 & Hout & Hrun & Hdone). unfold bind.
  destruct (p w) as [[a| | |] w1]; cbn [fst snd] in *;
    try (exists evs, s1; by repeat split).
  rewrite (Hdone a eq_refl) in Hrun.
  destruct (Hk a w1) as (evs' & s2 & Hout' & Hrun' & Hdone').
  exists (evs ++ evs'), s2. rewrite Hout', Hout, <- app_assoc.
  split; [done|]. split; [|done]. rewrite session_run_app, Hrun. exact Hrun'.
Qed.

Lemma obeys_quiet {A} s (p : prog Conn A) :
  (forall w, w_out (snd (p w)) = w_out w) -> obeys s (fun _ => s) p.
Proof. intros Hp w. exists [], s. by rewrite Hp, app_nil_r. Qed.

Lemma obeys_event {A} s s' e (p : prog Conn A) :
  (forall w, w_out (snd (p w)) = w_out w ++ [e]) ->
  session_step s e = Some s' -> obeys s (fun _ => s') p.
Proof.
  intros Hp He w. exists [e], s'. rewrite Hp. split; [done|]. split; [|done].
  unfold session_run. simpl. exact He.
Qed.

Lemma obeys_api s c op (f : Z -> session) :
  (forall rc, session_step s (Call c rc) = Some (f rc)) -> obeys s f (api c op).
Proof.
  intros Hf w. unfold api. destruct (op (w_db w)) as [rc c'].
  exists [Call c rc], (f rc). cbn [fst snd]. split; [done|]. split.
  - unfold session_run. simpl. apply Hf.
  - by intros a [= <-].
Qed.

Lemma obeys_prepare s q (f : Z -> session) :
  (forall rc, session_step s (Call (Prepare q) rc) = Some (f rc)) ->
  obeys s (fun r => f r.1) (sqlite3_prepare_v3 q).
Proof.
  intros Hf w. unfold sqlite3_prepare_v3. destruct (sq_prepare q (w_db w)) as [[rc id] c'].
  exists [Call (Prepare q) rc], (f rc). cbn [fst snd]. split; [done|]. split.
  - unfold session_run. simpl. apply Hf.
  - by intros a [= <-].
Qed.

(** A call that adds one event, which depends on the state, and
    returns. *)
Lemma obeys_read {A} s s' (f : world Conn -> event) (p : prog Conn A) :
  (forall w, w_out (snd (p w)) = w_out w ++ [f w]) ->
  (forall w, session_step s (f w) = Some s') ->
  obeys s (fun _ => s') p.
Proof.
  intros Hp Hs w. exists [f w], s'. split; [apply Hp|]. split; [|done]. exact (Hs w).
Qed.

Lemma obeys_column_text s s' st col :
  (forall o, session_step s (ColumnText st col o) = Some s') ->
  obeys s (fun _ => s') (sqlite3_column_text st col).
Proof.
  intros Hs.
  apply (obeys_read s s' (fun w => ColumnText st col (sq_column_text (stmt_id st) col (w_db w))));
    [done|]. intros w. apply Hs.
Qed.

Lemma obeys_column_double s s' st col :
  (forall d, session_step s (ColumnDouble st col d) = Some s') ->
  obeys s (fun _ => s') (sqlite3_column_double st col).
Proof.
  intros Hs.
  apply (obeys_read s s'
           (fun w => ColumnDouble st col (sq_column_double (stmt_id st) col (w_db w))));
    [done|]. intros w. apply Hs.
Qed.

Lemma obeys_column_int64 s s' st col :
  (forall n, session_step s (ColumnInt64 st col n) = Some s') ->
  obeys s (fun _ => s') (sqlite3_column_int64 st col).
Proof.
  intros Hs.
  apply (obeys_read s s'
           (fun w => ColumnInt64 st col (sq_column_int64 (stmt_id st) col (w_db w))));
    [done|]. intros w. apply Hs.
Qed.

Lemma obeys_clock s : obeys s (fun _ => s) clock.
Proof.
  apply (obeys_read s s (fun w => Clock (hd (-1) (w_clock w)))); [|done].
  intros w. unfold clock. by destruct (w_clock w).
Qed.

Lemma obeys_die {A} s (post : A -> session) (k : unit -> prog Conn A) :
  obeys s post (bind die_db_error k).
Proof.
  intros w. rewrite bind_die. exists (die_events (sq_errmsg (w_db w))), s.
  cbn [fst snd w_out]. by repeat split.
Qed.

Lemma obeys_die_end s (post : unit -> session) : obeys s post die_db_error.
Proof.
  intros w. rewrite die_db_error_run. exists (die_events (sq_errmsg (w_db w))), s.
  cbn [fst snd w_out]. by repeat split.
Qed.

Lemma obeys_prepare_then {B} s q (f : Z -> session) (post : B -> session)
    (k : sqlite3_stmt -> unit -> prog Conn B) :
  (forall rc, session_step s (Call (Prepare q) rc) = Some (f rc)) ->
  (forall id u, obeys (f SQLITE_OK) post (k (Stmt q id) u)) ->
  obeys s post (bind (sqlite3_prepare_v3 q) (fun r =>
                  let '(rc, st) := r in
                  bind (when (negb (rc =? SQLITE_OK)) die_db_error) (k st))).
Proof.
  intros Hf Hk w. rewrite bind_prepare.
  destruct (sq_prepare q (w_db w)) as [[rc id] c'].
  assert (session_run s [Call (Prepare q) rc] = Some (f rc)) as Hstep.
  { unfold session_run. simpl. apply Hf. }
  destruct (rc =? SQLITE_OK) eqn:Hrc; cbn [negb when].
  - apply Z.eqb_eq in Hrc. subst rc. rewrite bind_ret_l.
    destruct (Hk id tt (emit (Call (Prepare q) SQLITE_OK) (set_db c' w)))
      as (evs & s' & Hout & Hrun & Hdone).
    exists (Call (Prepare q) SQLITE_OK :: evs), s'. rewrite Hout. cbn [emit set_db w_out].
    rewrite <- app_assoc. split; [done|]. split; [|done].
    change (Call (Prepare q) SQLITE_OK :: evs) with ([Call (Prepare q) SQLITE_OK] ++ evs).
    rewrite session_run_app, Hstep. exact Hrun.
  - rewrite bind_die. exists (Call (Prepare q) rc :: die_events (sq_errmsg c')), (f rc).
    cbn [fst snd emit set_db w_out w_db]. rewrite <- app_assoc. split; [done|]. split; [|done].
    change (Call (Prepare q) rc :: die_events (sq_errmsg c'))
      with ([Call (Prepare q) rc] ++ die_events (sq_errmsg c')).
    by rewrite session_run_app, Hstep.
Qed.

Lemma obeys_for_loop s (body : nat -> prog Conn unit) n : forall i0,
  (forall i, obeys s (fun _ => s) (body i)) -> obeys s (fun _ => s) (for_loop i0 n body).
Proof.
  induction n as [|n IH]; intros i0 Hbody; cbn [for_loop]; [apply obeys_ret|].
  eapply obeys_bind; [apply Hbody|]. intros ?. by apply IH.
Qed.

Lemma obeys_timeout {A} s (post : A -> session) :
  obeys s post (fun w : world Conn => (Timeout, w)).
Proof. intros w. exists [], s. by rewrite app_nil_r. Qed.

Lemma obeys_while_loop s0 s1 s2 (cond : prog Conn bool) (body : prog Conn unit) fuel :
  obeys s0 (fun b : bool => if b then s1 else s2) cond ->
  obeys s1 (fun b : bool => if b then s1 else s2) cond ->
  obeys s1 (fun _ => s1) body ->
  obeys s0 (fun _ => s2) (while_loop fuel cond body).
Proof.
  intros Hc0 Hc1 Hbody.
  assert (forall fuel, obeys s1 (fun _ => s2) (while_loop fuel cond body)) as Hloop.
  { clear fuel. induction fuel as [|fuel IH]; cbn [while_loop]; [apply obeys_timeout|].
    eapply obeys_bind; [exact Hc1|]. intros [|]; [|apply obeys_ret].
    eapply obeys_bind; [exact Hbody|]. intros ?. apply IH. }
  destruct fuel as [|fuel]; cbn [while_loop]; [apply obeys_timeout|].
  eapply obeys_bind; [exact Hc0|]. intros [|]; [|apply obeys_ret].
  eapply obeys_bind; [exact Hbody|]. intros ?. apply Hloop.
Qed.


Ltac session_steps := intros; cbn; reflexivity.

Ltac obeys_call :=
  lazymatch goal with
  | |- obeys _ _ (ret _) => apply obeys_ret
  | |- obeys _ _ (api _ _) => eapply obeys_api; session_steps
  | |- obeys _ _ (when (negb (?a =? ?ok)) die_db_error) =>
      let H := fresh in
      destruct (a =? ok) eqn:H; cbn [negb when];
      [apply Z.eqb_eq in H; subst a; apply obeys_ret|apply obeys_die_end]
  | |- obeys _ _ (sqlite3_prepare_v3 _) => eapply obeys_prepare; session_steps
  | |- obeys _ _ (printf _ _) => eapply obeys_event; [intros; reflexivity|reflexivity]
  | |- obeys _ _ getchar => eapply obeys_event; [intros; reflexivity|reflexivity]
  | |- obeys _ _ (remove _) => eapply obeys_event; [intros; reflexivity|reflexivity]
  | |- obeys _ _ (sqlite3_column_text _ _) => eapply obeys_column_text; session_steps
  | |- obeys _ _ (sqlite3_column_double _ _) => eapply obeys_column_double; session_steps
  | |- obeys _ _ (sqlite3_column_int64 _ _) => eapply obeys_column_int64; session_steps
  | |- obeys _ _ (write_key _) =>
      apply obeys_quiet; intros; unfold write_key; by destruct (_ <? _)%nat
  | |- obeys _ _ (strcpy_key ?o) =>
      apply obeys_quiet; intros; destruct o; unfold strcpy_key, write_key;
      [by destruct (_ <? _)%nat|done]
  | |- obeys _ _ clock => apply obeys_clock
  | |- obeys _ _ _ => apply obeys_quiet; intros; reflexivity
  end.

Ltac obeys_loop := fail.

Ltac obeys_go :=
  unfold sqlite3_exec, sqlite3_open, sqlite3_close, sqlite3_step,
    sqlite3_bind_text, sqlite3_bind_double, sqlite3_bind_int64,
    sqlite3_clear_bindings, sqlite3_reset, sqlite3_finalize,
    rand_double, sprintf_key;
  repeat lazymatch goal with
  | |- obeys _ _ (bind (sqlite3_prepare_v3 _) _) =>
      eapply obeys_prepare_then; [session_steps|intros; cbv beta]
  | |- obeys _ _ (bind _ _) => eapply obeys_bind; [|intros; cbv beta]
  | |- obeys _ _ (match ?r with pair _ _ => _ end) => destruct r; cbn [fst]
  | |- obeys _ _ (for_loop _ _ _) => apply obeys_for_loop; intros
  | |- obeys _ _ (while_loop _ _ _) => obeys_loop
  | |- obeys _ _ _ => obeys_call
  end.

Lemma obeys_setup_test : obeys opened (fun _ => opened) setup_test.
Proof. unfold setup_test. obeys_go. Qed.


Lemma obeys_insert_rows : obeys opened (fun _ => opened) insert_rows.
Proof. unfold insert_rows, insert_rows_body. obeys_go. Qed.

Lemma obeys_insert_rows_xact : obeys opened (fun _ => opened) insert_rows_xact.
Proof. unfold insert_rows_xact, insert_rows_xact_body. obeys_go. Qed.

Lemma obeys_insert_rows_xact_prepared :
  obeys opened (fun _ => opened) insert_rows_xact_prepared.
Proof. unfold insert_rows_xact_prepared, insert_rows_xact_prepared_body. obeys_go. Qed.


(** Inside the loop of an update function: the transaction is open, the
    SELECT is in phase [ph], the UPDATE is ready. *)
Definition updating (q_sel q_up : text) (ph : phase) : session :=
  Session true true [(fmt q_sel, ph); (fmt q_up, Ready)].

Ltac obeys_select :=
  unfold select_next, sqlite3_step;
  eapply obeys_bind;
  [ eapply obeys_api; session_steps
  | let rc := fresh "rc" in
    intros rc; cbv beta; destruct (rc =? SQLITE_ROW);
    lazymatch goal with
    | |- obeys _ ?post (ret ?b) => apply (obeys_ret_post post b)
    end ].

Lemma obeys_pk_loop fuel id id' :
  obeys (updating sql_select_key sql_update_key Ready)
        (fun _ => updating sql_select_key sql_update_key Finished)
        (while_loop fuel (select_next (Stmt sql_select_key id))
           (update_rows_pk_body (Stmt sql_select_key id) (Stmt sql_update_key id'))).
Proof.
  apply (obeys_while_loop _ (updating sql_select_key sql_update_key OnRow)).
  - obeys_select.
  - obeys_select.
  - unfold update_rows_pk_body. obeys_go.
Qed.

Lemma obeys_rowid_loop fuel id id' :
  obeys (updating sql_select_rowid sql_update_rowid Ready)
        (fun _ => updating sql_select_rowid sql_update_rowid Finished)
        (while_loop fuel (select_next (Stmt sql_select_rowid id))
           (update_rows_rowid_body (Stmt sql_select_rowid id) (Stmt sql_update_rowid id'))).
Proof.
  apply (obeys_while_loop _ (updating sql_select_rowid sql_update_rowid OnRow)).
  - obeys_select.
  - obeys_select.
  - unfold update_rows_rowid_body. obeys_go.
Qed.

Ltac obeys_loop ::= first [apply obeys_pk_loop|apply obeys_rowid_loop].

Lemma obeys_update_rows_pk fuel : obeys opened (fun _ => opened) (update_rows_pk fuel).
Proof. unfold update_rows_pk. obeys_go. Qed.

Lemma obeys_update_rows_rowid fuel : obeys opened (fun _ => opened) (update_rows_rowid fuel).
Proof. unfold update_rows_rowid. obeys_go. Qed.

Lemma obeys_time_test_execution name (fun_ : prog Conn unit) setup_fun :
  obeys opened (fun _ => opened) fun_ ->
  (forall f, setup_fun = Some f -> obeys opened (fun _ => opened) f) ->
  obeys closed (fun _ => closed) (time_test_execution name fun_ setup_fun).
Proof.
  intros Hfun Hsetup. unfold time_test_execution, open_database, close_database.
  eapply obeys_bind; [obeys_go|intros ?; cbv beta].
  eapply obeys_bind; [destruct setup_fun; [by apply Hsetup|apply obeys_ret]|intros ?; cbv beta].
  eapply obeys_bind; [obeys_go|intros ?; cbv beta].
  eapply obeys_bind; [exact Hfun|intros ?; cbv beta].
  obeys_go.
Qed.

Lemma obeys_main fuel : obeys closed (fun _ => closed) (main fuel).
Proof.
  unfold main.
  repeat lazymatch goal with
  | |- obeys _ _ (bind _ _) => eapply obeys_bind; [|intros ?; cbv beta]
  | |- obeys _ _ (time_test_execution _ _ _) =>
      apply obeys_time_test_execution; [|intros f [= <-]]
  | |- obeys _ _ setup_test => apply obeys_setup_test
  | |- obeys _ _ setup_update_test =>
      unfold setup_update_test; eapply obeys_bind; [apply obeys_setup_test|intros ?]
  | |- obeys _ _ insert_rows_xact => apply obeys_insert_rows_xact
  | |- obeys _ _ insert_rows_xact_prepared => apply obeys_insert_rows_xact_prepared
  | |- obeys _ _ (update_rows_pk _) => apply obeys_update_rows_pk
  | |- obeys _ _ (update_rows_rowid _) => apply obeys_update_rows_rowid
  | |- obeys _ _ _ => obeys_call
  end.
Qed.


End Protocol.

(** X1: on every connection, whatever it answers, the calls of a run keep
    to the order SQLite documents: nothing is called on a closed
    connection, a statement is bound only when ready, its columns are read
    (with [sqlite3_column_text], [sqlite3_column_double] or
    [sqlite3_column_int64]) only while it stands on a row, it is never
    stepped again after its last row and never used after it was
    finalized, no transaction is begun twice or committed without being
    open, and the file is removed only while the connection is closed.
    An insert or update function that returns has committed its
    transaction and finalized its statements, and [main], when it returns,
    has closed every connection it opened. *)
Theorem calls_follow_the_sqlite_protocol {Conn : Type} {SQ : Sqlite3 Conn} {E : Env} :
  (forall s, obeys (Conn := Conn) opened (fun _ => opened) (strategy_prog s)) /\
  (forall u fuel, obeys (Conn := Conn) opened (fun _ => opened) (update_prog u fuel)) /\
  (forall fuel, obeys (Conn := Conn) closed (fun _ => closed) (main fuel)).
Proof.
  split; [|split].
  - intros [| |]; [apply obeys_insert_rows|apply obeys_insert_rows_xact
                  |apply obeys_insert_rows_xact_prepared].
  - intros [|] fuel; [apply obeys_update_rows_pk|apply obeys_update_rows_rowid].
  - apply obeys_main.
Qed.

(** *** The result lines of the report *)

Definition reports (t : list event) : list event := List.filter is_report t.

Lemma reports_snoc (t : list event) (e : event) :
  reports (t ++ [e]) = reports t ++ (if is_report e then [e] else []).
Proof. unfold reports. rewrite List.filter_app. simpl. by destruct (is_report e). Qed.

(** The result lines of scenarios that run one after the other: each
    reads the clock twice. *)
Fixpoint scenario_lines {E : Env} (names : list string) (clocks : list Z) : list event :=
  match names with
  | [] => []
  | name :: names' =>
      report_line name (hd (-1) clocks) (hd (-1) (tl clocks))
      :: scenario_lines names' (tl (tl clocks))
  end.

Lemma scenario_lines_length {E : Env} (names : list string) : forall clocks,
  length (scenario_lines names clocks) = length names.
Proof. induction names as [|n ns IH]; intros clocks; simpl; [done|]. by rewrite IH. Qed.

Lemma scenario_lines_app {E : Env} (ns1 ns2 : list string) : forall clocks,
  scenario_lines (ns1 ++ ns2) clocks
  = scenario_lines ns1 clocks ++ scenario_lines ns2 (drop (2 * length ns1) clocks).
Proof.
  induction ns1 as [|n ns1 IH]; intros clocks; [done|].
  cbn [app scenario_lines length]. rewrite IH. f_equal. f_equal. f_equal.
  replace (2 * S (length ns1))%nat with (S (S (2 * length ns1))) by lia.
  by destruct clocks as [|c0 [|c1 clocks]]; cbn [tl drop]; rewrite ?drop_nil.
Qed.

Section Reports.
Context {Conn : Type} {SQ : Sqlite3 Conn} {E : Env}.

(** [p] runs the scenarios [names]: it prints their result lines, as many
    as it gets to, and all of them when it returns. *)
Definition timed {A} (names : list string) (p : prog Conn A) : Prop :=
  forall w, exists k, (k <= length names)%nat /\
    reports (w_out (snd (p w)))
    = reports (w_out w) ++ take k (scenario_lines names (w_clock w)) /\
    forall a, fst (p w) = Done a ->
      k = length names /\ w_clock (snd (p w)) = drop (2 * length names) (w_clock w).

Lemma timed_bind {A B} ns1 ns2 (p : prog Conn A) (k : A -> prog Conn B) :
  timed ns1 p -> (forall a, timed ns2 (k a)) -> timed (ns1 ++ ns2) (bind p k).
Proof.
  intros Hp Hk w. destruct (Hp w) as (k1 & Hk1 & Hrep & Hdone). unfold bind.
  destruct (p w) as [[a| | |] w1]; cbn [fst snd] in *;
    try (exists k1; rewrite length_app, scenario_lines_app;
         rewrite take_app_le by (rewrite scenario_lines_length; lia);
         split; [lia|]; by split).
  destruct (Hdone a eq_refl) as [-> Hclk].
  destruct (Hk a w1) as (k2 & Hk2 & Hrep2 & Hdone2).
  exists (length ns1 + k2)%nat. rewrite length_app. split; [lia|]. split.
  - rewrite Hrep2, Hrep, Hclk, scenario_lines_app, <- app_assoc. f_equal.
    rewrite take_app_ge by (rewrite scenario_lines_length; lia).
    rewrite scenario_lines_length, take_ge by (rewrite scenario_lines_length; lia).
    do 2 f_equal. lia.
  - intros b Hb. destruct (Hdone2 b Hb) as [-> Hclk2]. split; [done|].
    rewrite Hclk2, Hclk, drop_drop. f_equal. lia.
Qed.

Lemma quiet_bind {A B} (p : prog Conn A) (k : A -> prog Conn B) :
  timed [] p -> (forall a, timed [] (k a)) -> timed [] (bind p k).
Proof. apply (timed_bind [] []). Qed.

Lemma quiet_step {A} (p : prog Conn A) :
  (forall w, w_clock (snd (p w)) = w_clock w /\
             (w_out (snd (p w)) = w_out w \/
              exists e, is_report e = false /\ w_out (snd (p w)) = w_out w ++ [e])) ->
  timed [] p.
Proof.
  intros Hp w. exists O. destruct (Hp w) as [Hclk Hout]. split; [done|]. split.
  - rewrite app_nil_r. destruct Hout as [->|(e & He & ->)]; [done|].
    by rewrite reports_snoc, He, app_nil_r.
  - intros a _. by rewrite Hclk.
Qed.

Lemma quiet_api c op : timed [] (api c op).
Proof.
  apply quiet_step. intros w. unfold api. destruct (op (w_db w)) as [rc c'].
  split; [done|]. right. exists (Call c rc). by split.
Qed.

Lemma quiet_prepare q : timed [] (sqlite3_prepare_v3 q).
Proof.
  apply quiet_step. intros w. unfold sqlite3_prepare_v3.
  destruct (sq_prepare q (w_db w)) as [[rc id] c']. split; [done|]. right.
  exists (Call (Prepare q) rc). by split.
Qed.

Lemma quiet_write_key s : timed [] (write_key s).
Proof. apply quiet_step. intros w. unfold write_key. destruct (_ <? _)%nat; by split; [|left]. Qed.

Lemma quiet_for_loop (body : nat -> prog Conn unit) n : forall i0,
  (forall i, timed [] (body i)) -> timed [] (for_loop i0 n body).
Proof.
  induction n as [|n IH]; intros i0 Hbody; cbn [for_loop].
  - apply quiet_step. intros w. by split; [|left].
  - apply quiet_bind; [apply Hbody|]. intros ?. by apply IH.
Qed.

Lemma quiet_while_loop (cond : prog Conn bool) (body : prog Conn unit) fuel :
  timed [] cond -> timed [] body -> timed [] (while_loop fuel cond body).
Proof.
  intros Hcond Hbody. induction fuel as [|fuel IH]; cbn [while_loop].
  - apply quiet_step. intros w. by split; [|left].
  - apply quiet_bind; [exact Hcond|]. intros [|].
    + apply quiet_bind; [exact Hbody|]. intros ?. exact IH.
    + apply quiet_step. intros w. by split; [|left].
Qed.

Ltac quiet_call :=
  first [ apply quiet_api | apply quiet_prepare | apply quiet_write_key
        | apply quiet_step; intros; split; [reflexivity|]; by left
        | apply quiet_step; intros; split; [reflexivity|];
          right; eexists; split; [|reflexivity]; reflexivity ].

Ltac quiet_go :=
  unfold insert_rows_body, insert_rows_xact_body, insert_rows_xact_prepared_body,
    update_rows_pk_body, update_rows_rowid_body, select_next;
  unfold sqlite3_exec, sqlite3_open, sqlite3_close, sqlite3_step,
    sqlite3_bind_text, sqlite3_bind_double, sqlite3_bind_int64,
    sqlite3_clear_bindings, sqlite3_reset, sqlite3_finalize,
    rand_double, sprintf_key, die_db_error;
  repeat lazymatch goal with
  | |- timed [] (bind _ _) => apply quiet_bind; [|intros]
  | |- timed [] (when ?c _) => destruct c; unfold when
  | |- timed [] (for_loop _ _ _) => apply quiet_for_loop; intros; cbv beta
  | |- timed [] (while_loop _ _ _) => apply quiet_while_loop
  | |- timed [] (strcpy_key ?o) => destruct o; unfold strcpy_key
  | |- timed [] (match ?r with pair _ _ => _ end) => destruct r
  | |- timed [] _ => quiet_call
  end.

Lemma quiet_setup_test : timed [] setup_test.
Proof. unfold setup_test. quiet_go. Qed.

Lemma quiet_insert_rows : timed [] insert_rows.
Proof. unfold insert_rows. quiet_go. Qed.

Lemma quiet_insert_rows_xact : timed [] insert_rows_xact.
Proof. unfold insert_rows_xact. quiet_go. Qed.

Lemma quiet_insert_rows_xact_prepared : timed [] insert_rows_xact_prepared.
Proof. unfold insert_rows_xact_prepared. quiet_go. Qed.

Lemma quiet_update_rows_pk fuel : timed [] (update_rows_pk fuel).
Proof. unfold update_rows_pk. quiet_go. Qed.

Lemma quiet_update_rows_rowid fuel : timed [] (update_rows_rowid fuel).
Proof. unfold update_rows_rowid. quiet_go. Qed.


Lemma quiet_open_database : timed [] open_database.
Proof. unfold open_database. quiet_go. Qed.

Lemma quiet_close_database : timed [] close_database.
Proof. unfold close_database. quiet_go. Qed.

(** What a quiet program leaves of the world, as far as the report goes. *)
Lemma quiet_run {A} (p : prog Conn A) (w : world Conn) :
  timed [] p ->
  reports (w_out (snd (p w))) = reports (w_out w) /\
  forall a, fst (p w) = Done a -> w_clock (snd (p w)) = w_clock w.
Proof.
  intros Hp. destruct (Hp w) as (k & Hk & Hrep & Hdone). split.
  - cbn [scenario_lines] in Hrep. by rewrite Hrep, take_nil, app_nil_r.
  - intros a Ha. by destruct (Hdone a Ha) as [_ ->].
Qed.

(** The part of [time_test_execution] from the first clock reading on. *)
Lemma timed_measurement name (fun_ : prog Conn unit) :
  timed [] fun_ ->
  timed [name]
    (bind clock (fun start =>
     bind fun_ (fun _ =>
     bind clock (fun end_ =>
     bind close_database (fun _ =>
     let time_ms := (float_of_Z (end_ - start) / float_of_Z CLOCKS_PER_SEC)%float in
     printf report_format
       [AStr name; ADbl time_ms;
        ADbl (float_of_Z (Z.of_nat NUM_EXECUTIONS) / time_ms)%float]))))).
Proof.
  intros Hfun w.
  assert (forall (w0 : world Conn),
            clock w0 = (Done (hd (-1) (w_clock w0)),
                        World (w_db w0) (w_rand w0) (tl (w_clock w0))
                              (w_out w0 ++ [Clock (hd (-1) (w_clock w0))]))) as Hclock.
  { intros [d r [|t ts] out]; reflexivity. }
  match goal with |- context [?p w] => remember (p w) as res eqn:Hres end.
  unfold bind at 1 in Hres. rewrite Hclock in Hres.
  set (w1 := World (w_db w) (w_rand w) (tl (w_clock w))
                   (w_out w ++ [Clock (hd (-1) (w_clock w))])) in Hres.
  assert (reports (w_out w1) = reports (w_out w)) as Hrep0
    by (unfold w1; cbn [w_out]; by rewrite reports_snoc, app_nil_r).
  destruct (quiet_run fun_ w1 Hfun) as [Hrep1 Hclk1].
  unfold bind at 1 in Hres.
  rewrite Hrep0 in Hrep1.
  destruct (fun_ w1) as [[[]| | |] w2] eqn:Hf; cbn [fst snd] in *;
    try (subst res; cbn [fst snd]; exists O; split; [simpl; lia|]; split;
         [by rewrite take_0, app_nil_r|done]).
  specialize (Hclk1 tt eq_refl).
  unfold bind at 1 in Hres. rewrite Hclock in Hres.
  set (w3 := World (w_db w2) (w_rand w2) (tl (w_clock w2))
                   (w_out w2 ++ [Clock (hd (-1) (w_clock w2))])) in Hres.
  assert (reports (w_out w3) = reports (w_out w)) as Hrep2
    by (unfold w3; cbn [w_out]; by rewrite reports_snoc, app_nil_r).
  destruct (quiet_run close_database w3 quiet_close_database) as [Hrep3 Hclk3].
  unfold bind at 1 in Hres.
  rewrite Hrep2 in Hrep3.
  destruct (close_database w3) as [[[]| | |] w4] eqn:Hc; cbn [fst snd] in *;
    try (subst res; cbn [fst snd]; exists O; split; [simpl; lia|]; split;
         [by rewrite take_0, app_nil_r|done]).
  specialize (Hclk3 tt eq_refl).
  cbv zeta in Hres. unfold printf in Hres. subst res.
  exists 1%nat. split; [done|]. cbn [fst snd emit w_out w_clock].
  split.
  - rewrite reports_snoc, Hrep3.
    cbn [is_report fmt]. rewrite String.eqb_refl. f_equal.
    cbn [scenario_lines take]. unfold report_line. by rewrite Hclk1.
  - intros _ _. split; [done|]. rewrite Hclk3. cbn [w3 w_clock]. rewrite Hclk1.
    cbn [w1 w_clock]. by destruct (w_clock w) as [|c0 [|c1 clocks]].
Qed.

Lemma timed_time_test_execution name (fun_ : prog Conn unit) setup_fun :
  timed [] fun_ ->
  (forall f, setup_fun = Some f -> timed [] f) ->
  timed [name] (time_test_execution name fun_ setup_fun).
Proof.
  intros Hfun Hsetup. unfold time_test_execution.
  apply (timed_bind [] [name]); [apply quiet_open_database|intros ?].
  apply (timed_bind [] [name]);
    [destruct setup_fun; [by apply Hsetup|quiet_go]|intros ?].
  by apply timed_measurement.
Qed.

(** The names of the scenarios [main] runs, in order. *)
Definition scenarios : list string :=
  ["Insert Rows (xact)"; "Insert Rows (xact, prep)"; "Update Rows PK"; "Update Rows ROWID"].

Lemma timed_main fuel : timed scenarios (main fuel).
Proof.
  unfold main, scenarios.
  repeat lazymatch goal with
  | |- timed (?n :: ?ns) (bind (time_test_execution _ _ _) _) =>
      apply (timed_bind [n] ns);
      [apply timed_time_test_execution; [|intros f [= <-]]|intros ?]
  | |- timed ?ns (bind _ _) => apply (timed_bind [] ns); [|intros ?]
  | |- timed [] setup_test => apply quiet_setup_test
  | |- timed [] setup_update_test =>
      unfold setup_update_test; apply quiet_bind; [apply quiet_setup_test|intros ?]
  | |- timed [] insert_rows_xact => apply quiet_insert_rows_xact
  | |- timed [] insert_rows_xact_prepared => apply quiet_insert_rows_xact_prepared
  | |- timed [] (update_rows_pk _) => apply quiet_update_rows_pk
  | |- timed [] (update_rows_rowid _) => apply quiet_update_rows_rowid
  | |- timed [] _ => quiet_call
  end.
Qed.

End Reports.

(** *** The timeline of a run *)

(** The events that give a run its shape, without the result codes and
    the row data: the removal of the file, open and close, every SQL text
    that is executed or compiled (by its format), the finalization of a
    statement, the readings of the clock and the result lines.  What is
    left out are the calls on a prepared statement between its compilation
    and its finalization (bind, step, reset, clear-bindings and the column
    reads), the error report of [die_db_error] and the other lines on the
    console. *)
Inductive mark : Type :=
| MRemove
| MOpen
| MClose
| MExec (sql : string)
| MPrepare (sql : string)
| MFinalize (sql : string)
| MClock (t : Z)
| MReport (line : event).

Definition mark_of (e : event) : option mark :=
  match e with
  | Remove _ => Some MRemove
  | Call (Open _) _ => Some MOpen
  | Call Close _ => Some MClose
  | Call (Exec q) _ => Some (MExec (fmt q))
  | Call (Prepare q) _ => Some (MPrepare (fmt q))
  | Call (Finalize st) _ => Some (MFinalize (fmt (stmt_sql st)))
  | Clock t => Some (MClock t)
  | Printf _ => if is_report e then Some (MReport e) else None
  | _ => None
  end.

Definition timeline (t : list event) : list mark := omap mark_of t.

Lemma timeline_app (t u : list event) : timeline (t ++ u) = timeline t ++ timeline u.
Proof. apply omap_app. Qed.

(** The timeline of [time_test_execution]: the setup comes before the
    first reading [t0] of the clock, the function under test between
    [t0] and the second reading [t1], and the connection is closed and
    the result line printed after [t1]. *)
Definition scenario_timeline {E : Env} (name : string) (setup_marks fun_marks : list mark)
    (t0 t1 : Z) : list mark :=
  [MRemove; MOpen] ++ setup_marks ++ [MClock t0] ++ fun_marks
  ++ [MClock t1; MClose; MReport (report_line name t0 t1)].

(** The format of the INSERT text that [sprintf] fills in for each row. *)
Definition insert_values_format : string := fmt (sql_insert_values "" 0 0 0 0).

(** The timelines of the functions of [main.c]. *)
Definition setup_test_marks : list mark := [MExec (fmt sql_create)].

Definition insert_rows_xact_marks {E : Env} : list mark :=
  [MExec (fmt sql_begin)]
  ++ replicate NUM_EXECUTIONS (MExec insert_values_format)
  ++ [MExec (fmt sql_commit)].

Definition insert_rows_xact_prepared_marks : list mark :=
  [MExec (fmt sql_begin); MPrepare (fmt sql_insert);
   MExec (fmt sql_commit); MFinalize (fmt sql_insert)].

Definition setup_update_test_marks : list mark :=
  setup_test_marks ++ insert_rows_xact_prepared_marks.

Definition update_marks (q_sel q_up : text) : list mark :=
  [MExec (fmt sql_begin); MPrepare (fmt q_sel); MPrepare (fmt q_up);
   MExec (fmt sql_commit); MFinalize (fmt q_sel); MFinalize (fmt q_up)].

Section Timeline.
Context {Conn : Type} {SQ : Sqlite3 Conn} {E : Env}.

(** [paced f n p]: the timeline of a run of [p] is the list [f clocks],
    where [clocks] are the values the clock is going to show, or the part
    of it the run gets to; a run that returns has read the clock [n]
    times. *)
Definition paced {A} (f : list Z -> list mark) (n : nat) (p : prog Conn A) : Prop :=
  forall w, exists k, (k <= length (f (w_clock w)))%nat /\
    timeline (w_out (snd (p w))) = timeline (w_out w) ++ take k (f (w_clock w)) /\
    forall a, fst (p w) = Done a ->
      k = length (f (w_clock w)) /\ w_clock (snd (p w)) = drop n (w_clock w).

(** The same for a program that does not read the clock. *)
Definition notes {A} (l : list mark) (p : prog Conn A) : Prop := paced (fun _ => l) 0 p.

Lemma paced_ext {A} f g n (p : prog Conn A) :
  (forall clk, f clk = g clk) -> paced f n p -> paced g n p.
Proof. intros Hfg Hp w. rewrite <- Hfg. apply Hp. Qed.

Lemma paced_bind {A B} f1 n1 f2 n2 (p : prog Conn A) (k : A -> prog Conn B) :
  paced f1 n1 p -> (forall a, paced f2 n2 (k a)) ->
  paced (fun clk => f1 clk ++ f2 (drop n1 clk)) (n1 + n2) (bind p k).
Proof.
  intros Hp Hk w. destruct (Hp w) as (k1 & Hk1 & Hout1 & Hdone1). unfold bind.
  destruct (p w) as [[a| | |] w1]; cbn [fst snd] in *;
    try (exists k1; rewrite length_app, take_app_le by lia;
         split; [lia|]; split; [done|]; intros; discriminate).
  destruct (Hdone1 a eq_refl) as [-> Hclk1].
  destruct (Hk a w1) as (k2 & Hk2 & Hout2 & Hdone2). rewrite Hclk1 in *.
  exists (length (f1 (w_clock w)) + k2)%nat. rewrite length_app. split; [lia|]. split.
  - rewrite Hout2, Hout1, take_ge by lia. rewrite <- app_assoc. f_equal.
    by rewrite take_app_add.
  - intros b Hb. destruct (Hdone2 b Hb) as [-> Hclk2]. split; [done|].
    by rewrite Hclk2, drop_drop.
Qed.

Lemma notes_paced {A} l (p : prog Conn A) : notes l p -> paced (fun _ => l) 0 p.
Proof. done. Qed.

Lemma notes_eq {A} l l' (p : prog Conn A) : notes l p -> l = l' -> notes l' p.
Proof. by intros Hp <-. Qed.

Lemma notes_bind {A B} l1 l2 (p : prog Conn A) (k : A -> prog Conn B) :
  notes l1 p -> (forall a, notes l2 (k a)) -> notes (l1 ++ l2) (bind p k).
Proof. intros Hp Hk. apply (paced_bind (fun _ => l1) 0 (fun _ => l2) 0); done. Qed.

Lemma notes_bind_nil {A B} (p : prog Conn A) (k : A -> prog Conn B) :
  notes [] p -> (forall a, notes [] (k a)) -> notes [] (bind p k).
Proof. apply (notes_bind [] []). Qed.

(** A program that does not read the clock, followed by one that may. *)
Lemma paced_after {A B} l f n (p : prog Conn A) (k : A -> prog Conn B) :
  notes l p -> (forall a, paced f n (k a)) -> paced (fun clk => l ++ f clk) n (bind p k).
Proof.
  intros Hp Hk. eapply paced_ext; [|apply (paced_bind (fun _ => l) 0 f n); eassumption].
  by intros clk.
Qed.

Lemma paced_skip {A B} f n (p : prog Conn A) (k : A -> prog Conn B) :
  notes [] p -> (forall a, paced f n (k a)) -> paced f n (bind p k).
Proof. apply (paced_after []). Qed.

(** A reading of the clock, followed by the program that uses it. *)
Lemma paced_clock {B} (f : Z -> list Z -> list mark) n (k : Z -> prog Conn B) :
  (forall t, paced (f t) n (k t)) ->
  paced (fun clk => MClock (hd (-1) clk) :: f (hd (-1) clk) (tl clk)) (S n) (bind clock k).
Proof.
  intros Hk w.
  assert (bind clock k w
          = k (hd (-1) (w_clock w))
              (World (w_db w) (w_rand w) (tl (w_clock w))
                     (w_out w ++ [Clock (hd (-1) (w_clock w))]))) as ->
    by (by destruct w as [d r [|c0 clk] out]).
  set (t := hd (-1) (w_clock w)).
  destruct (Hk t (World (w_db w) (w_rand w) (tl (w_clock w)) (w_out w ++ [Clock t])))
    as (k2 & Hk2 & Hout & Hdone). cbn [w_clock w_out] in *.
  exists (S k2). cbn [length take]. split; [lia|]. split.
  - rewrite Hout, timeline_app. cbn. by rewrite <- app_assoc.
  - intros b Hb. destruct (Hdone b Hb) as [-> Hclk]. split; [done|].
    rewrite Hclk. destruct (w_clock w); [cbn [tail]; by rewrite !drop_nil|done].
Qed.

(** A call that leaves the clock alone and adds [l] to the timeline. *)
Lemma notes_step {A} l (p : prog Conn A) :
  (forall w, w_clock (snd (p w)) = w_clock w /\
             timeline (w_out (snd (p w))) = timeline (w_out w) ++ l) ->
  notes l p.
Proof.
  intros Hp w. destruct (Hp w) as [Hclk Hout]. exists (length l).
  split; [done|]. rewrite firstn_all. split; [done|]. intros a _. by rewrite Hclk.
Qed.

(** A call that adds nothing to the timeline, however it ends. *)
Lemma notes_quiet {A} (p : prog Conn A) :
  (forall w, w_clock (snd (p w)) = w_clock w /\
             timeline (w_out (snd (p w))) = timeline (w_out w)) ->
  notes [] p.
Proof. intros Hp. apply notes_step. intros w. rewrite app_nil_r. apply Hp. Qed.

Lemma notes_api c (op : Conn -> Z * Conn) l :
  (forall rc, omap mark_of [Call c rc] = l) -> notes l (api c op).
Proof.
  intros Hl. apply notes_step. intros w. unfold api. destruct (op (w_db w)) as [rc s].
  cbn [fst snd emit set_db w_out w_clock]. split; [done|].
  by rewrite timeline_app, <- (Hl rc).
Qed.

Lemma notes_die : notes [] die_db_error.
Proof. apply notes_quiet. intros w. rewrite die_db_error_run. cbn [snd w_out w_clock].
  split; [done|]. by rewrite timeline_app, app_nil_r. Qed.

Lemma notes_when c : notes [] (when c die_db_error).
Proof. destruct c; [apply notes_die|by apply notes_quiet]. Qed.

Lemma notes_write_key s : notes [] (write_key s).
Proof. apply notes_quiet. intros w. unfold write_key. by destruct (_ <? _)%nat. Qed.

Lemma notes_strcpy_key o : notes [] (strcpy_key o).
Proof. destruct o; [apply notes_write_key|by apply notes_quiet]. Qed.

(** The pattern for [sqlite3_prepare_v3], whose statement the rest of the
    function uses. *)
Lemma notes_prepare_then {B} q l (k : sqlite3_stmt -> unit -> prog Conn B) :
  (forall id u, notes l (k (Stmt q id) u)) ->
  notes (MPrepare (fmt q) :: l)
        (bind (sqlite3_prepare_v3 q) (fun r =>
           let '(rc, st) := r in
           bind (when (negb (rc =? SQLITE_OK)) die_db_error) (k st))).
Proof.
  intros Hk.
  assert (notes [MPrepare (fmt q)] (sqlite3_prepare_v3 q)) as Hp.
  { apply notes_step. intros w. unfold sqlite3_prepare_v3.
    destruct (sq_prepare q (w_db w)) as [[rc id] s]. cbn [fst snd emit set_db w_out w_clock].
    split; [done|]. by rewrite timeline_app. }
  intros w. rewrite bind_prepare. destruct (sq_prepare q (w_db w)) as [[rc id] s] eqn:Hq.
  pose proof (notes_bind [] l (when (negb (rc =? SQLITE_OK)) die_db_error) (k (Stmt q id))
                (notes_when _) (Hk id) (emit (Call (Prepare q) rc) (set_db s w)))
    as (k2 & Hk2 & Hout & Hdone).
  cbn [app emit set_db w_out w_clock] in *.
  exists (S k2). cbn [length take]. split; [lia|]. split.
  - rewrite Hout, timeline_app. cbn. by rewrite <- app_assoc.
  - intros b Hb. destruct (Hdone b Hb) as [-> Hclk]. by split.
Qed.

Lemma notes_for_loop_nil (body : nat -> prog Conn unit) n : forall i0,
  (forall i, notes [] (body i)) -> notes [] (for_loop i0 n body).
Proof.
  induction n as [|n IH]; intros i0 Hbody; cbn [for_loop]; [by apply notes_quiet|].
  apply notes_bind_nil; [apply Hbody|]. intros _. by apply IH.
Qed.

Lemma notes_for_loop_one m (body : nat -> prog Conn unit) n : forall i0,
  (forall i, notes [m] (body i)) -> notes (replicate n m) (for_loop i0 n body).
Proof.
  induction n as [|n IH]; intros i0 Hbody; cbn [for_loop replicate]; [by apply notes_quiet|].
  apply (notes_bind [m]); [apply Hbody|]. intros _. by apply IH.
Qed.

Lemma notes_while_loop (cond : prog Conn bool) (body : prog Conn unit) fuel :
  notes [] cond -> notes [] body -> notes [] (while_loop fuel cond body).
Proof.
  intros Hcond Hbody. induction fuel as [|fuel IH]; cbn [while_loop]; [by apply notes_quiet|].
  apply notes_bind_nil; [exact Hcond|]. intros [|]; [|by apply notes_quiet].
  apply notes_bind_nil; [exact Hbody|]. intros _. exact IH.
Qed.

Ltac notes_call :=
  first [ apply notes_when | apply notes_write_key | apply notes_strcpy_key
        | apply notes_api; intros; cbn; reflexivity
        | apply notes_step; intros; split; [reflexivity|];
          cbv [sqlite3_column_text sqlite3_column_double sqlite3_column_int64
               printf getchar remove rand ret emit set_db snd w_out];
          first [ rewrite app_nil_r; reflexivity
                | rewrite timeline_app; cbn; reflexivity ] ].

(** A loop body, or another stretch that adds nothing to the timeline. *)
Ltac notes_nil :=
  unfold insert_rows_xact_prepared_body, update_rows_pk_body, update_rows_rowid_body,
    select_next;
  unfold sqlite3_step, sqlite3_bind_text, sqlite3_bind_double, sqlite3_bind_int64,
    sqlite3_clear_bindings, sqlite3_reset, rand_double, sprintf_key;
  repeat lazymatch goal with
  | |- notes [] (bind _ _) => apply notes_bind_nil; [|intros]
  | |- notes [] _ => notes_call
  end.

Ltac notes_go :=
  unfold sqlite3_exec, sqlite3_open, sqlite3_close, sqlite3_finalize;
  unfold insert_rows_xact_body, sprintf_key, rand_double;
  repeat lazymatch goal with
  | |- notes ?l ?p =>
      tryif is_evar l then
        lazymatch p with
        | bind (sqlite3_prepare_v3 _) _ => eapply notes_prepare_then; intros
        | bind _ _ => eapply notes_bind; [|intros]
        | for_loop _ _ (insert_rows_xact_prepared_body _) =>
            apply notes_for_loop_nil; intros
        | for_loop _ _ _ =>
            eapply notes_for_loop_one; intros; cbv beta;
            eapply notes_eq; [notes_go|cbn; reflexivity]
        | while_loop _ _ _ => apply notes_while_loop
        | _ => notes_call
        end
      else solve [notes_nil]
  end.

Lemma notes_setup_test : notes setup_test_marks setup_test.
Proof. eapply notes_eq; [unfold setup_test; notes_go|reflexivity]. Qed.

Lemma notes_insert_rows_xact : notes insert_rows_xact_marks insert_rows_xact.
Proof.
  eapply notes_eq; [unfold insert_rows_xact; notes_go|].
  unfold insert_rows_xact_marks. cbn [app]. by rewrite ?app_nil_r.
Qed.

Lemma notes_insert_rows_xact_prepared :
  notes insert_rows_xact_prepared_marks insert_rows_xact_prepared.
Proof. eapply notes_eq; [unfold insert_rows_xact_prepared; notes_go|reflexivity]. Qed.

Lemma notes_setup_update_test : notes setup_update_test_marks setup_update_test.
Proof.
  unfold setup_update_test. apply notes_bind; [apply notes_setup_test|].
  intros _. apply notes_insert_rows_xact_prepared.
Qed.

Lemma notes_update_rows_pk fuel :
  notes (update_marks sql_select_key sql_update_key) (update_rows_pk fuel).
Proof. eapply notes_eq; [unfold update_rows_pk; notes_go|reflexivity]. Qed.

Lemma notes_update_rows_rowid fuel :
  notes (update_marks sql_select_rowid sql_update_rowid) (update_rows_rowid fuel).
Proof. eapply notes_eq; [unfold update_rows_rowid; notes_go|reflexivity]. Qed.

Lemma paced_time_test_execution name (fun_ setup : prog Conn unit) ls lf :
  notes ls setup -> notes lf fun_ ->
  paced (fun clk => scenario_timeline name ls lf (hd (-1) clk) (hd (-1) (tl clk))) 2
        (time_test_execution name fun_ (Some setup)).
Proof.
  intros Hsetup Hfun. unfold time_test_execution.
  eapply paced_ext; cycle 1.
  - eapply paced_after; [unfold open_database; eapply notes_eq; [notes_go|reflexivity]|intros ?].
    eapply paced_after; [exact Hsetup|intros ?].
    apply (paced_clock (fun t0 clk => lf ++ MClock (hd (-1) clk)
                                  :: [MClose; MReport (report_line name t0 (hd (-1) clk))]) 1).
    intros t0. eapply paced_after; [exact Hfun|intros ?].
    apply (paced_clock (fun t1 _ => [MClose; MReport (report_line name t0 t1)]) 0).
    intros t1. unfold close_database.
    eapply notes_eq; [notes_go|]. cbn [app]. unfold report_line. reflexivity.
  - intros clk. reflexivity.
Qed.

(** The timeline of [main]. *)
Definition main_timeline (clk : list Z) : list mark :=
  let at_ (i : nat) := nth i clk (-1) in
  scenario_timeline "Insert Rows (xact)"
    setup_test_marks insert_rows_xact_marks (at_ 0%nat) (at_ 1%nat)
  ++ scenario_timeline "Insert Rows (xact, prep)"
       setup_test_marks insert_rows_xact_prepared_marks (at_ 2%nat) (at_ 3%nat)
  ++ scenario_timeline "Update Rows PK"
       setup_update_test_marks (update_marks sql_select_key sql_update_key)
       (at_ 4%nat) (at_ 5%nat)
  ++ scenario_timeline "Update Rows ROWID"
       setup_update_test_marks (update_marks sql_select_rowid sql_update_rowid)
       (at_ 6%nat) (at_ 7%nat).

Lemma paced_main fuel : paced main_timeline 8 (main fuel).
Proof.
  eapply paced_ext; cycle 1.
  - unfold main.
    do 6 (eapply paced_skip; [solve [notes_nil]|intros ?]).
    eapply (paced_bind _ 2 _ 6);
      [apply paced_time_test_execution; [apply notes_setup_test|apply notes_insert_rows_xact]
      |intros ?].
    eapply (paced_bind _ 2 _ 4);
      [apply paced_time_test_execution;
       [apply notes_setup_test|apply notes_insert_rows_xact_prepared]
      |intros ?].
    do 4 (eapply paced_skip; [solve [notes_nil]|intros ?]).
    eapply (paced_bind _ 2 _ 2);
      [apply paced_time_test_execution;
       [apply notes_setup_update_test|apply notes_update_rows_pk]
      |intros ?].
    eapply (paced_bind _ 2 _ 0);
      [apply paced_time_test_execution;
       [apply notes_setup_update_test|apply notes_update_rows_rowid]
      |intros ?].
    apply (notes_paced []). solve [notes_nil].
  - intros clk. cbn [app]. rewrite !app_nil_r. unfold main_timeline.
    by destruct clk as [|c0 [|c1 [|c2 [|c3 [|c4 [|c5 [|c6 [|c7 clk]]]]]]]].
Qed.

End Timeline.

(** X2: a run of [main] goes through its four scenarios in the order of
    the source, and in each of them the clock is read twice: the first
    time after [open_database] and the setup function have done all their
    calls and before the function under test begins its transaction, the
    second time after the function under test has committed and finalized
    and before the connection is closed; the result line, printed after
    the close, shows the difference of just these two readings.  So the
    timeline of a run is a prefix of [main_timeline], and the whole of it
    when [main] returns; and the result lines a run prints are those of
    the scenarios it gets to, computed from the readings 2k and 2k+1 of the
    process. *)
Theorem main_reports_each_scenario_once {Conn : Type} {SQ : Sqlite3 Conn} {E : Env}
    (fuel : nat) (c : Conn) (clocks : list Z) :
  let res := main fuel (start c clocks) in
  let at_ (i : nat) := nth i clocks (-1) in
  (exists k, timeline (w_out (snd res)) = take k (main_timeline clocks)) /\
  (fst res = Done tt -> timeline (w_out (snd res)) = main_timeline clocks) /\
  exists k, (k <= 4)%nat /\
    reports (w_out (snd res))
    = take k [report_line "Insert Rows (xact)" (at_ 0%nat) (at_ 1%nat);
              report_line "Insert Rows (xact, prep)" (at_ 2%nat) (at_ 3%nat);
              report_line "Update Rows PK" (at_ 4%nat) (at_ 5%nat);
              report_line "Update Rows ROWID" (at_ 6%nat) (at_ 7%nat)] /\
    (fst res = Done tt -> k = 4%nat).
Proof.
  cbv zeta. split; [|split].
  - destruct (paced_main fuel (start c clocks)) as (k & _ & Hout & _). by exists k.
  - intros Hd. destruct (paced_main fuel (start c clocks)) as (k & _ & Hout & Hdone).
    destruct (Hdone tt Hd) as [-> _]. by rewrite Hout, firstn_all.
  - destruct (timed_main fuel (start c clocks)) as (k & Hk & Hrep & Hdone).
    exists k. split; [exact Hk|]. split.
    + rewrite Hrep. cbn [start w_out w_clock reports List.filter app]. f_equal.
      by destruct clocks as [|c0 [|c1 [|c2 [|c3 [|c4 [|c5 [|c6 [|c7 clocks]]]]]]]].
    + intros Hd. by destruct (Hdone tt Hd).
Qed.

(** *** What a run uses: random numbers and SQL texts *)

(** An SQL text is handed to SQLite to be compiled. *)
Definition compiles (e : event) : bool :=
  match e with
  | Call (Exec _) _ | Call (Prepare _) _ => true
  | _ => false
  end.

Definition compiled (t : list event) : nat := length (List.filter compiles t).

Lemma compiled_snoc (t : list event) (e : event) :
  compiled (t ++ [e]) = (compiled t + if compiles e then 1 else 0)%nat.
Proof.
  unfold compiled. rewrite List.filter_app, length_app. simpl. by destruct (compiles e).
Qed.

Section Cost.
Context {Conn : Type} {SQ : Sqlite3 Conn} {E : Env}.

(** A measure of what a run has used so far. *)
Variable m : world Conn -> nat.

(** [p] uses at most [n], and exactly [n] when it returns. *)
Definition uses {A} (n : nat) (p : prog Conn A) : Prop :=
  forall w, (m w <= m (snd (p w)) <= m w + n)%nat /\
            forall a, fst (p w) = Done a -> m (snd (p w)) = (m w + n)%nat.

Lemma uses_bind {A B} n1 n2 (p : prog Conn A) (k : A -> prog Conn B) :
  uses n1 p -> (forall a, uses n2 (k a)) -> uses (n1 + n2) (bind p k).
Proof.
  intros Hp Hk w. destruct (Hp w) as [Hle Hdone]. unfold bind.
  destruct (p w) as [[a| | |] w1]; cbn [fst snd] in *; try (split; [lia|done]).
  specialize (Hdone a eq_refl). destruct (Hk a w1) as [Hle' Hdone'].
  split; [lia|]. intros b Hb. rewrite (Hdone' b Hb). lia.
Qed.

Lemma uses_eq {A} n n' (p : prog Conn A) : uses n p -> n = n' -> uses n' p.
Proof. by intros Hp <-. Qed.

Lemma uses_free {A} (p : prog Conn A) :
  (forall w, m (snd (p w)) = m w) -> uses 0 p.
Proof. intros Hp w. rewrite Hp. split; [lia|]. intros; lia. Qed.

Lemma uses_ret {A} (a : A) : uses 0 (ret a).
Proof. by apply uses_free. Qed.

Lemma uses_bind_free {A B} (p : prog Conn A) (k : A -> prog Conn B) :
  uses 0 p -> (forall a, uses 0 (k a)) -> uses 0 (bind p k).
Proof. apply (uses_bind 0 0). Qed.

Lemma uses_for_loop c (body : nat -> prog Conn unit) n : forall i0,
  (forall i, uses c (body i)) -> uses (n * c) (for_loop i0 n body).
Proof.
  induction n as [|n IH]; intros i0 Hbody; cbn [for_loop].
  - apply uses_ret.
  - apply (uses_bind c (n * c)); [apply Hbody|]. intros _. by apply IH.
Qed.

Lemma uses_while_loop (cond : prog Conn bool) (body : prog Conn unit) fuel :
  uses 0 cond -> uses 0 body -> uses 0 (while_loop fuel cond body).
Proof.
  intros Hcond Hbody. induction fuel as [|fuel IH]; cbn [while_loop].
  - by apply uses_free.
  - apply uses_bind_free; [exact Hcond|]. intros [|]; [|apply uses_ret].
    apply uses_bind_free; [exact Hbody|]. intros _. exact IH.
Qed.

End Cost.

Ltac uses_go call :=
  unfold insert_rows_body, insert_rows_xact_body, insert_rows_xact_prepared_body,
    update_rows_pk_body, update_rows_rowid_body, select_next;
  unfold sqlite3_exec, sqlite3_open, sqlite3_close, sqlite3_step,
    sqlite3_bind_text, sqlite3_bind_double, sqlite3_bind_int64,
    sqlite3_clear_bindings, sqlite3_reset, sqlite3_finalize,
    rand_double, sprintf_key, die_db_error;
  repeat lazymatch goal with
  | |- uses _ 0 (bind _ _) => apply uses_bind_free; [|intros]
  | |- uses _ _ (bind _ _) => eapply uses_bind; [|intros]
  | |- uses _ _ (when ?c _) => destruct c; unfold when
  | |- uses _ _ (for_loop _ _ _) => eapply uses_for_loop; intros; cbv beta
  | |- uses _ _ (while_loop _ _ _) => apply uses_while_loop
  | |- uses _ _ (strcpy_key ?o) => destruct o; unfold strcpy_key
  | |- uses _ _ (match ?r with pair _ _ => _ end) => destruct r
  | |- uses _ _ _ => call
  end.

Section Draws.
Context {Conn : Type} {SQ : Sqlite3 Conn} {E : Env}.

(** The measure is the number of calls of [rand()]. *)
Definition draws {A} (n : nat) (p : prog Conn A) : Prop := uses w_rand n p.

Lemma draws_api c (op : Conn -> Z * Conn) : uses w_rand 0 (api c op).
Proof. apply uses_free. intros w. unfold api. by destruct (op (w_db w)). Qed.

Lemma draws_prepare q : uses (w_rand (Conn := Conn)) 0 (sqlite3_prepare_v3 q).
Proof.
  apply uses_free. intros w. unfold sqlite3_prepare_v3.
  by destruct (sq_prepare q (w_db w)) as [[rc id] c'].
Qed.

Lemma draws_write_key s : uses (w_rand (Conn := Conn)) 0 (write_key s).
Proof. apply uses_free. intros w. unfold write_key. by destruct (_ <? _)%nat. Qed.

Lemma draws_clock : uses (w_rand (Conn := Conn)) 0 clock.
Proof. apply uses_free. intros w. unfold clock. by destruct (w_clock w). Qed.

Lemma draws_rand : uses (w_rand (Conn := Conn)) 1 rand.
Proof. intros w. cbn. split; [lia|]. intros; lia. Qed.

Ltac draws_call :=
  first [ apply uses_ret | apply draws_api | apply draws_prepare | apply draws_write_key
        | apply draws_clock | apply draws_rand
        | apply uses_free; intros; reflexivity ].

Ltac draws_fun :=
  unfold draws; eapply uses_eq;
  [ unfold setup_test, insert_rows, insert_rows_xact, insert_rows_xact_prepared,
      update_rows_pk, update_rows_rowid;
    uses_go draws_call
  | lia ].

Lemma draws_setup_test : draws 0 setup_test.
Proof. draws_fun. Qed.

Lemma draws_insert_rows : draws (4 * NUM_EXECUTIONS) insert_rows.
Proof. draws_fun. Qed.

Lemma draws_insert_rows_xact : draws (4 * NUM_EXECUTIONS) insert_rows_xact.
Proof. draws_fun. Qed.

Lemma draws_insert_rows_xact_prepared : draws (4 * NUM_EXECUTIONS) insert_rows_xact_prepared.
Proof. draws_fun. Qed.

Lemma draws_update_rows_pk fuel : draws 0 (update_rows_pk fuel).
Proof. draws_fun. Qed.

Lemma draws_update_rows_rowid fuel : draws 0 (update_rows_rowid fuel).
Proof. draws_fun. Qed.

Lemma draws_time_test_execution name (fun_ : prog Conn unit) (setup : prog Conn unit) a b :
  draws a setup -> draws b fun_ ->
  draws (a + b) (time_test_execution name fun_ (Some setup)).
Proof.
  unfold draws. intros Hsetup Hfun.
  eapply uses_eq.
  - unfold time_test_execution, open_database, close_database.
    eapply uses_bind; [uses_go draws_call|intros ?].
    eapply uses_bind; [exact Hsetup|intros ?].
    eapply uses_bind; [apply draws_clock|intros ?].
    eapply uses_bind; [exact Hfun|intros ?].
    uses_go draws_call.
  - lia.
Qed.

Lemma draws_main fuel : draws (16 * NUM_EXECUTIONS) (main fuel).
Proof.
  unfold draws. eapply uses_eq.
  - unfold main.
    repeat lazymatch goal with
    | |- uses _ _ (bind _ _) => eapply uses_bind; [|intros ?]
    | |- uses _ _ (time_test_execution _ _ _) => eapply draws_time_test_execution
    | |- draws _ setup_test => apply draws_setup_test
    | |- draws _ setup_update_test =>
        unfold setup_update_test, draws; eapply uses_bind;
        [apply draws_setup_test|intros ?; apply draws_insert_rows_xact_prepared]
    | |- draws _ insert_rows_xact => apply draws_insert_rows_xact
    | |- draws _ insert_rows_xact_prepared => apply draws_insert_rows_xact_prepared
    | |- draws _ (update_rows_pk _) => apply draws_update_rows_pk
    | |- draws _ (update_rows_rowid _) => apply draws_update_rows_rowid
    | |- uses _ _ _ => draws_call
    end.
  - lia.
Qed.

End Draws.

Section Compiles.
Context {Conn : Type} {SQ : Sqlite3 Conn} {E : Env}.

(** The measure is the number of SQL texts handed to SQLite. *)
Definition parsed (w : world Conn) : nat := compiled (w_out w).

Definition parses {A} (n : nat) (p : prog Conn A) : Prop := uses parsed n p.

Lemma parses_exec q : uses parsed 1 (api (Exec q) (sq_exec q)).
Proof.
  intros w. unfold api, parsed. destruct (sq_exec q (w_db w)) as [rc c'].
  cbn [fst snd emit set_db w_out]. rewrite compiled_snoc. cbn [compiles].
  split; [lia|]. intros; lia.
Qed.

Lemma parses_prepare q : uses parsed 1 (sqlite3_prepare_v3 q).
Proof.
  intros w. unfold sqlite3_prepare_v3, parsed. destruct (sq_prepare q (w_db w)) as [[rc id] c'].
  cbn [fst snd emit set_db w_out]. rewrite compiled_snoc. cbn [compiles].
  split; [lia|]. intros; lia.
Qed.

Lemma parses_api c (op : Conn -> Z * Conn) :
  (forall rc, compiles (Call c rc) = false) -> uses parsed 0 (api c op).
Proof.
  intros Hc. apply uses_free. intros w. unfold api, parsed.
  destruct (op (w_db w)) as [rc c']. cbn [fst snd emit set_db w_out].
  rewrite compiled_snoc, Hc. lia.
Qed.

Lemma parses_event {A} (p : prog Conn A) :
  (forall w, w_out (snd (p w)) = w_out w \/
             exists e, compiles e = false /\ w_out (snd (p w)) = w_out w ++ [e]) ->
  uses parsed 0 p.
Proof.
  intros Hp. apply uses_free. intros w. unfold parsed.
  destruct (Hp w) as [->|(e & He & ->)]; [done|]. rewrite compiled_snoc, He. lia.
Qed.

Lemma parses_write_key s : uses parsed 0 (write_key s).
Proof. apply parses_event. intros w. left. unfold write_key. by destruct (_ <? _)%nat. Qed.

Lemma parses_clock : uses parsed 0 clock.
Proof.
  apply parses_event. intros w. right. unfold clock.
  destruct (w_clock w); eexists; (split; [|reflexivity]); reflexivity.
Qed.

Ltac parses_call :=
  first [ apply uses_ret | apply parses_exec | apply parses_prepare
        | apply parses_api; intros; reflexivity
        | apply parses_write_key | apply parses_clock
        | apply parses_event; intros; by left
        | apply parses_event; intros; right; eexists; split; [|reflexivity]; reflexivity ].

Ltac parses_fun :=
  unfold parses; eapply uses_eq;
  [ unfold setup_test, insert_rows, insert_rows_xact, insert_rows_xact_prepared,
      update_rows_pk, update_rows_rowid;
    uses_go parses_call
  | lia ].

Lemma parses_insert_rows : parses NUM_EXECUTIONS insert_rows.
Proof. parses_fun. Qed.

Lemma parses_insert_rows_xact : parses (NUM_EXECUTIONS + 2) insert_rows_xact.
Proof. parses_fun. Qed.

Lemma parses_insert_rows_xact_prepared : parses 3 insert_rows_xact_prepared.
Proof. parses_fun. Qed.

Lemma parses_update_rows_pk fuel : parses 4 (update_rows_pk fuel).
Proof. parses_fun. Qed.

Lemma parses_update_rows_rowid fuel : parses 4 (update_rows_rowid fuel).
Proof. parses_fun. Qed.

End Compiles.

(** X3: on every connection, an insert function that returns has called
    [rand()] exactly four times for each row, and never more when it ends
    early; the update functions never call it; a run of [main] that
    returns has called it [16 * NUM_EXECUTIONS] times. *)
Theorem rand_is_called_four_times_per_row {Conn : Type} {SQ : Sqlite3 Conn} {E : Env} :
  (forall s, draws (Conn := Conn) (4 * NUM_EXECUTIONS) (strategy_prog s)) /\
  (forall u fuel, draws (Conn := Conn) 0 (update_prog u fuel)) /\
  (forall fuel, draws (Conn := Conn) (16 * NUM_EXECUTIONS) (main fuel)).
Proof.
  split; [|split].
  - intros [| |]; [apply draws_insert_rows|apply draws_insert_rows_xact
                  |apply draws_insert_rows_xact_prepared].
  - intros [|] fuel; [apply draws_update_rows_pk|apply draws_update_rows_rowid].
  - apply draws_main.
Qed.

(** X4: on every connection, [insert_rows] and [insert_rows_xact] hand
    SQLite one SQL text per row to compile ([NUM_EXECUTIONS] texts, and
    two more for the transaction), whereas [insert_rows_xact_prepared]
    hands it three texts and each update function four, whatever the
    number of rows. *)
Theorem prepared_statements_are_compiled_once {Conn : Type} {SQ : Sqlite3 Conn} {E : Env} :
  parses (Conn := Conn) NUM_EXECUTIONS insert_rows /\
  parses (Conn := Conn) (NUM_EXECUTIONS + 2) insert_rows_xact /\
  parses (Conn := Conn) 3 insert_rows_xact_prepared /\
  (forall fuel, parses (Conn := Conn) 4 (update_rows_pk fuel)) /\
  (forall fuel, parses (Conn := Conn) 4 (update_rows_rowid fuel)).
Proof.
  split; [apply parses_insert_rows|]. split; [apply parses_insert_rows_xact|].
  split; [apply parses_insert_rows_xact_prepared|].
  split; [apply parses_update_rows_pk|apply parses_update_rows_rowid].
Qed.

(** *** The generated keys and the buffer *)

(** The keys a run of the insert function [s] generates fit the buffer. *)
Definition keys_in_bounds {E : Env} (s : strategy) : Prop :=
  forall i, (i < NUM_EXECUTIONS)%nat -> (String.length (generated_key s i) < KEY_SIZE)%nat.

Lemma keys_in_bounds_below {E : Env} (s : strategy) :
  Z.of_nat NUM_EXECUTIONS <= 10 ^ 22 -> keys_in_bounds s.
Proof.
  intros Hn i Hi. pose proof (generated_key_length s 22 i) as Hlen. unfold KEY_SIZE.
  assert (String.length (generated_key s i) <= 2 + 22)%nat; [|lia].
  apply Hlen; lia.
Qed.

(** *** Buffer overruns on any connection *)

(** A text that [strcpy] cannot copy into [row.key]: a NULL pointer, or
    more than 24 characters. *)
Definition unfit (o : option string) : Prop :=
  match o with
  | Some k => (24 < String.length k)%nat
  | None => True
  end.

Section Safety.
Context {Conn : Type} {SQ : Sqlite3 Conn} {E : Env}.

(** [p] never runs into undefined behaviour. *)
Definition safe {A} (p : prog Conn A) : Prop := forall w, fst (p w) <> Undefined.

Lemma safe_bind {A B} (p : prog Conn A) (k : A -> prog Conn B) :
  safe p -> (forall a, safe (k a)) -> safe (bind p k).
Proof.
  intros Hp Hk w. unfold bind. specialize (Hp w).
  destruct (p w) as [[a| | |] w1]; cbn [fst] in *; try done. apply Hk.
Qed.

Lemma safe_done {A} (p : prog Conn A) :
  (forall w, exists a, fst (p w) = Done a) -> safe p.
Proof. intros Hp w. by destruct (Hp w) as [a ->]. Qed.

Lemma safe_api c (op : Conn -> Z * Conn) : safe (api c op).
Proof. intros w. unfold api. by destruct (op (w_db w)). Qed.

Lemma safe_prepare q : safe (sqlite3_prepare_v3 (Conn := Conn) q).
Proof. intros w. unfold sqlite3_prepare_v3. by destruct (sq_prepare q (w_db w)) as [[rc id] c']. Qed.

Lemma safe_clock : safe (clock (Conn := Conn)).
Proof. intros w. unfold clock. by destruct (w_clock w). Qed.

Lemma safe_write_key s : (String.length s < KEY_SIZE)%nat -> safe (write_key (Conn := Conn) s).
Proof. intros Hs w. unfold write_key. by rewrite (proj2 (Nat.ltb_lt _ _) Hs). Qed.

Lemma safe_for_loop (body : nat -> prog Conn unit) n : forall i0,
  (forall i, (i0 <= i < i0 + n)%nat -> safe (body i)) -> safe (for_loop i0 n body).
Proof.
  induction n as [|n IH]; intros i0 Hbody; cbn [for_loop]; [by apply safe_done; eexists|].
  apply safe_bind; [apply Hbody; lia|]. intros _. apply IH. intros i Hi. apply Hbody. lia.
Qed.

Lemma safe_while_loop (cond : prog Conn bool) (body : prog Conn unit) fuel :
  safe cond -> safe body -> safe (while_loop fuel cond body).
Proof.
  intros Hcond Hbody. induction fuel as [|fuel IH]; cbn [while_loop]; [done|].
  apply safe_bind; [exact Hcond|]. intros [|]; [|by apply safe_done; eexists].
  apply safe_bind; [exact Hbody|]. intros _. exact IH.
Qed.

Ltac safe_call :=
  first [ apply safe_api | apply safe_prepare | apply safe_clock
        | apply safe_done; intros; eexists; reflexivity
        | intros ?; discriminate ].

Ltac safe_go :=
  unfold insert_rows_body, insert_rows_xact_body, insert_rows_xact_prepared_body,
    update_rows_pk_body, update_rows_rowid_body, select_next;
  unfold sqlite3_exec, sqlite3_open, sqlite3_close, sqlite3_step,
    sqlite3_bind_text, sqlite3_bind_double, sqlite3_bind_int64,
    sqlite3_clear_bindings, sqlite3_reset, sqlite3_finalize,
    rand_double, sprintf_key, die_db_error;
  repeat lazymatch goal with
  | |- safe (bind (write_key _) _) =>
      apply safe_bind; [apply safe_write_key; auto|intros]
  | |- safe (bind _ _) => apply safe_bind; [|intros]
  | |- safe (when ?c _) => destruct c; unfold when
  | |- safe (for_loop _ _ _) => apply safe_for_loop; intros; cbv beta
  | |- safe (while_loop _ _ _) => apply safe_while_loop
  | |- safe (match ?r with pair _ _ => _ end) => destruct r
  | |- safe _ => safe_call
  end.

Lemma safe_setup_test : safe setup_test.
Proof. unfold setup_test. safe_go. Qed.

Lemma safe_insert_rows : keys_in_bounds InsertRows -> safe insert_rows.
Proof.
  intros Hfit. unfold insert_rows.
  assert (forall i, (0 <= i < 0 + NUM_EXECUTIONS)%nat ->
            (String.length (sprintf_d "%d" (Z.of_nat i)) < KEY_SIZE)%nat)
    by (intros i Hi; apply Hfit; lia).
  safe_go.
Qed.

Lemma safe_insert_rows_xact : keys_in_bounds InsertRowsXact -> safe insert_rows_xact.
Proof.
  intros Hfit. unfold insert_rows_xact.
  assert (forall i, (0 <= i < 0 + NUM_EXECUTIONS)%nat ->
            (String.length (sprintf_d "K-%d" (Z.of_nat i)) < KEY_SIZE)%nat)
    by (intros i Hi; apply Hfit; lia).
  safe_go.
Qed.

Lemma safe_insert_rows_xact_prepared :
  keys_in_bounds InsertRowsXactPrepared -> safe insert_rows_xact_prepared.
Proof.
  intros Hfit. unfold insert_rows_xact_prepared.
  assert (forall i, (0 <= i < 0 + NUM_EXECUTIONS)%nat ->
            (String.length (sprintf_d "K-%d" (Z.of_nat i)) < KEY_SIZE)%nat)
    by (intros i Hi; apply Hfit; lia).
  safe_go.
Qed.

Lemma safe_update_rows_rowid fuel : safe (update_rows_rowid fuel).
Proof. unfold update_rows_rowid. safe_go. Qed.

(** [p] runs into undefined behaviour only by copying a key it has just
    read from the SELECT of [update_rows_pk]: the last event before it is
    that read, and the text read is [unfit]. *)
Definition guarded {A} (p : prog Conn A) : Prop :=
  forall w, exists t, w_out (snd (p w)) = w_out w ++ t /\
    (fst (p w) = Undefined ->
       exists pre id o,
         t = pre ++ [ColumnText (Stmt sql_select_key id) 0 o] /\ unfit o).

Lemma guarded_bind {A B} (p : prog Conn A) (k : A -> prog Conn B) :
  guarded p -> (forall a, guarded (k a)) -> guarded (bind p k).
Proof.
  intros Hp Hk w. unfold bind. destruct (Hp w) as (t1 & Hout1 & Hc1).
  destruct (p w) as [[a| | |] w1]; cbn [fst snd] in *;
    try (exists t1; split; [done|]; first [discriminate|intros _; by apply Hc1]).
  destruct (Hk a w1) as (t2 & Hout2 & Hc2). exists (t1 ++ t2).
  split; [by rewrite Hout2, Hout1, app_assoc|].
  intros Hundef. destruct (Hc2 Hundef) as (pre & id & o & -> & Ho).
  exists (t1 ++ pre), id, o. split; [by rewrite app_assoc|done].
Qed.

(** A call that never runs into undefined behaviour and only adds
    events. *)
Lemma guarded_step {A} (p : prog Conn A) :
  (forall w, fst (p w) <> Undefined /\ exists t, w_out (snd (p w)) = w_out w ++ t) ->
  guarded p.
Proof.
  intros Hp w. destruct (Hp w) as [Hsafe (t & Hout)]. exists t. by split.
Qed.

Lemma guarded_api c (op : Conn -> Z * Conn) : guarded (api c op).
Proof.
  apply guarded_step. intros w. unfold api. destruct (op (w_db w)) as [rc s].
  split; [done|]. by eexists [_].
Qed.

Lemma guarded_clock : guarded (clock (Conn := Conn)).
Proof.
  apply guarded_step. intros w. unfold clock.
  destruct (w_clock w); (split; [done|]); by eexists [_].
Qed.

Lemma guarded_when_die c : guarded (when c die_db_error).
Proof.
  apply guarded_step. intros w. destruct c; unfold when.
  - rewrite die_db_error_run. split; [done|]. by eexists.
  - split; [done|]. exists []. by rewrite app_nil_r.
Qed.

(** A program that never runs into undefined behaviour. *)
Lemma guarded_safe {A} (p : prog Conn A) : safe p -> fatal_ok p -> guarded p.
Proof.
  intros Hsafe Hp w. destruct (Hp w) as (t & Hout & _). exists t. split; [done|].
  intros Hundef. by destruct (Hsafe w).
Qed.

(** The read of the key and its copy, followed by the rest [k] of the
    loop body. *)
Lemma guarded_read_key {B} id (k : string -> prog Conn B) :
  (forall s, guarded (k s)) ->
  guarded (bind (sqlite3_column_text (Stmt sql_select_key id) 0)
                (fun tmp => bind (strcpy_key tmp) k)).
Proof.
  intros Hk w.
  assert (forall o, o = sq_column_text id 0 (w_db w) ->
            bind (sqlite3_column_text (Stmt sql_select_key id) 0)
                 (fun tmp => bind (strcpy_key tmp) k) w
            = bind (strcpy_key o) k (emit (ColumnText (Stmt sql_select_key id) 0 o) w))
    as Hrun by (by intros o ->).
  rewrite (Hrun _ eq_refl). clear Hrun.
  destruct (sq_column_text id 0 (w_db w)) as [s|]; unfold strcpy_key, bind, write_key.
  - set (e := ColumnText (Stmt sql_select_key id) 0 (Some s)).
    destruct (String.length s <? KEY_SIZE)%nat eqn:Hlen.
    + destruct (Hk s (emit e w)) as (t & Hout & Hc). exists (e :: t).
      split; [by rewrite Hout; cbn [emit w_out]; rewrite <- app_assoc|].
      intros Hundef. destruct (Hc Hundef) as (pre & id' & o' & -> & Ho').
      by exists (e :: pre), id', o'.
    + apply Nat.ltb_nlt in Hlen. exists [e]. split; [done|]. intros _.
      exists [], id, (Some s). split; [done|]. cbn [unfit]. unfold KEY_SIZE in Hlen. lia.
  - eexists [_]. split; [done|]. intros _. by exists [], id, None.
Qed.

Lemma guarded_prepare_then {B} q (k : sqlite3_stmt -> unit -> prog Conn B) :
  (forall id u, guarded (k (Stmt q id) u)) ->
  guarded (bind (sqlite3_prepare_v3 q) (fun r =>
             let '(rc, st) := r in
             bind (when (negb (rc =? SQLITE_OK)) die_db_error) (k st))).
Proof.
  intros Hk w. rewrite bind_prepare. destruct (sq_prepare q (w_db w)) as [[rc id] s].
  destruct (negb (rc =? SQLITE_OK)); cbn [when].
  - rewrite bind_die. eexists. cbn [fst snd w_out emit]. rewrite <- app_assoc.
    split; [reflexivity|discriminate].
  - rewrite bind_ret_l.
    destruct (Hk id tt (emit (Call (Prepare q) rc) (set_db s w))) as (t & Hout & Hc).
    exists (Call (Prepare q) rc :: t).
    split; [by rewrite Hout; cbn [emit w_out]; rewrite <- app_assoc|].
    intros Hundef. destruct (Hc Hundef) as (pre & id' & o' & -> & Ho').
    by exists (Call (Prepare q) rc :: pre), id', o'.
Qed.

Lemma guarded_while_loop (cond : prog Conn bool) (body : prog Conn unit) fuel :
  guarded cond -> guarded body -> guarded (while_loop fuel cond body).
Proof.
  intros Hcond Hbody. induction fuel as [|fuel IH]; cbn [while_loop].
  - intros w. exists []. rewrite app_nil_r. split; [done|discriminate].
  - apply guarded_bind; [exact Hcond|]. intros [|].
    + apply guarded_bind; [exact Hbody|]. intros _. exact IH.
    + apply guarded_step. intros w. split; [done|]. exists []. by rewrite app_nil_r.
Qed.

Ltac guarded_call :=
  first [ apply guarded_api | apply guarded_clock | apply guarded_when_die
        | apply guarded_step; intros; split; [discriminate|];
          first [by eexists [_]|exists []; by rewrite app_nil_r] ].

Ltac guarded_go :=
  unfold select_next;
  unfold sqlite3_exec, sqlite3_open, sqlite3_close, sqlite3_step,
    sqlite3_bind_text, sqlite3_bind_double, sqlite3_bind_int64,
    sqlite3_clear_bindings, sqlite3_reset, sqlite3_finalize;
  repeat lazymatch goal with
  | |- guarded (bind (sqlite3_column_text _ _) (fun tmp => bind (strcpy_key tmp) _)) =>
      apply guarded_read_key; intros
  | |- guarded (bind (sqlite3_prepare_v3 _) _) => apply guarded_prepare_then; intros
  | |- guarded (bind _ _) => apply guarded_bind; [|intros]
  | |- guarded (while_loop _ _ _) => apply guarded_while_loop
  | |- guarded _ => guarded_call
  end.

Lemma guarded_update_rows_pk fuel : guarded (update_rows_pk fuel).
Proof. unfold update_rows_pk, update_rows_pk_body. guarded_go. Qed.

Lemma guarded_time_test_execution name (fun_ : prog Conn unit) setup_fun :
  guarded fun_ -> (forall f, setup_fun = Some f -> guarded f) ->
  guarded (time_test_execution name fun_ setup_fun).
Proof.
  intros Hfun Hsetup. unfold time_test_execution, open_database, close_database.
  apply guarded_bind; [guarded_go|intros ?].
  apply guarded_bind;
    [destruct setup_fun; [by apply Hsetup|guarded_call]|intros ?].
  apply guarded_bind; [guarded_call|intros ?].
  apply guarded_bind; [exact Hfun|intros ?].
  guarded_go.
Qed.

Lemma guarded_main fuel : (forall s, keys_in_bounds s) -> guarded (main fuel).
Proof.
  intros Hkeys. unfold main.
  repeat lazymatch goal with
  | |- guarded (bind _ _) => apply guarded_bind; [|intros ?]
  | |- guarded (time_test_execution _ _ _) =>
      apply guarded_time_test_execution; [|intros f [= <-]]
  | |- guarded setup_test => apply guarded_safe; [apply safe_setup_test|apply fatal_setup_test]
  | |- guarded setup_update_test => unfold setup_update_test
  | |- guarded insert_rows_xact =>
      apply guarded_safe; [by apply safe_insert_rows_xact|apply fatal_insert_rows_xact]
  | |- guarded insert_rows_xact_prepared =>
      apply guarded_safe;
      [by apply safe_insert_rows_xact_prepared|apply fatal_insert_rows_xact_prepared]
  | |- guarded (update_rows_pk _) => apply guarded_update_rows_pk
  | |- guarded (update_rows_rowid _) =>
      apply guarded_safe; [apply safe_update_rows_rowid|apply fatal_update_rows_rowid]
  | |- guarded _ => guarded_call
  end.
Qed.

End Safety.

(** X5: on every connection, whatever it answers, a run can write past a
    [key] buffer at one place only.  [update_rows_rowid] never does; the
    insert functions do not for any row count up to 10^22; and when
    [update_rows_pk], or [main] with such a row count, does, then the last
    thing it did was to read the key column of its SELECT with
    [sqlite3_column_text], and the text it got was NULL or longer than 24
    characters: the [strcpy] of a key read from the database is the only
    unguarded copy. *)
Theorem buffer_overrun_only_at_a_key_read {Conn : Type} {SQ : Sqlite3 Conn} {E : Env} :
  (forall fuel (w : world Conn), fst (update_rows_rowid fuel w) <> Undefined) /\
  (Z.of_nat NUM_EXECUTIONS <= 10 ^ 22 ->
   forall s (w : world Conn), fst (strategy_prog s w) <> Undefined) /\
  (forall fuel (w : world Conn),
     fst (update_rows_pk fuel w) = Undefined ->
     exists pre id o,
       w_out (snd (update_rows_pk fuel w))
       = w_out w ++ pre ++ [ColumnText (Stmt sql_select_key id) 0 o] /\ unfit o) /\
  (Z.of_nat NUM_EXECUTIONS <= 10 ^ 22 ->
   forall fuel (w : world Conn),
     fst (main fuel w) = Undefined ->
     exists pre id o,
       w_out (snd (main fuel w))
       = w_out w ++ pre ++ [ColumnText (Stmt sql_select_key id) 0 o] /\ unfit o).
Proof.
  split; [intros fuel; apply safe_update_rows_rowid|]. split; [|split].
  - intros Hn [| |];
      [apply safe_insert_rows|apply safe_insert_rows_xact
      |apply safe_insert_rows_xact_prepared]; by apply keys_in_bounds_below.
  - intros fuel w Hundef. destruct (guarded_update_rows_pk fuel w) as (t & Hout & Hc).
    destruct (Hc Hundef) as (pre & id & o & -> & Ho). by exists pre, id, o.
  - intros Hn fuel w Hundef.
    destruct (guarded_main fuel (fun s => keys_in_bounds_below s Hn) w) as (t & Hout & Hc).
    destruct (Hc Hundef) as (pre & id & o & -> & Ho). by exists pre, id, o.
Qed.

(** *** The keys [main] inserts *)

Section MainKeys.
Context {Conn : Type} {SQ : Sqlite3 Conn} {E : Env}.

(** An event that hands SQLite a key to insert hands it a key ["K-<i>"]. *)
Definition prefixed_key (e : event) : Prop :=
  forall k, sent_key e = Some k ->
    exists i, (i < NUM_EXECUTIONS)%nat /\ k = "K-" +:+ pretty (Z.of_nat i).

Lemma emits_for_loop_below P (body : nat -> prog Conn unit) n : forall i0,
  (forall i, (i0 <= i < i0 + n)%nat -> emits P (body i)) -> emits P (for_loop i0 n body).
Proof.
  induction n as [|n IH]; intros i0 Hbody; cbn [for_loop]; [by apply emits_ret|].
  apply emits_bind; [apply Hbody; lia|]. intros _. apply IH. intros i Hi. apply Hbody. lia.
Qed.

Lemma emits_write_key_then {B} P s (k : string -> prog Conn B) :
  emits P (k s) -> emits P (bind (write_key s) k).
Proof.
  intros Hk w Hw. unfold bind, write_key. destruct (_ <? _)%nat; [by apply Hk|done].
Qed.

Lemma sprintf_key_prefixed (i : nat) : sprintf_d "K-%d" (Z.of_nat i) = "K-" +:+ pretty (Z.of_nat i).
Proof. exact (generated_key_prefix InsertRowsXact i). Qed.

Ltac keys_call :=
  first [ apply emits_ret | apply emits_write_key
        | apply emits_clock; intros; by intros ?
        | apply emits_quiet; intros; reflexivity
        | apply emits_event; intros; right; eexists; split; [|reflexivity]; by intros ?
        | apply emits_api; intros; by intros ?
        | apply emits_prepare; intros; by intros ?
        | apply emits_printf; by intros ? ].

Ltac keys_go :=
  unfold insert_rows_xact_body, insert_rows_xact_prepared_body,
    update_rows_pk_body, update_rows_rowid_body, select_next;
  unfold sqlite3_exec, sqlite3_open, sqlite3_close, sqlite3_step,
    sqlite3_bind_text, sqlite3_bind_double, sqlite3_bind_int64,
    sqlite3_clear_bindings, sqlite3_reset, sqlite3_finalize,
    rand_double, rand, sprintf_key, die_db_error;
  repeat lazymatch goal with
  | |- emits _ (bind (write_key _) _) => apply emits_write_key_then
  | |- emits _ (bind _ _) => apply emits_bind; [|intros]
  | |- emits _ (when ?c _) => destruct c; unfold when
  | |- emits _ (for_loop _ _ _) => apply emits_for_loop_below; intros; cbv beta
  | |- emits _ (while_loop _ _ _) => apply emits_while_loop
  | |- emits _ (strcpy_key ?o) => destruct o; unfold strcpy_key
  | |- emits _ (match ?r with pair _ _ => _ end) => destruct r
  | |- emits _ (api (Exec (sql_insert_values _ _ _ _ _)) _) =>
      apply emits_api; intros ? ? [= <-]; eexists; split; [|apply sprintf_key_prefixed]; lia
  | |- emits _ (api (BindText _ 1 _) _) =>
      apply emits_api; intros ? ? [= <-]; eexists; split; [|apply sprintf_key_prefixed]; lia
  | |- emits _ _ => keys_call
  end.

Lemma keys_setup_test : emits prefixed_key setup_test.
Proof. unfold setup_test. keys_go. Qed.

Lemma keys_insert_rows_xact : emits prefixed_key insert_rows_xact.
Proof. unfold insert_rows_xact. keys_go. Qed.

Lemma keys_insert_rows_xact_prepared : emits prefixed_key insert_rows_xact_prepared.
Proof. unfold insert_rows_xact_prepared. keys_go. Qed.

Lemma keys_update_rows_pk fuel : emits prefixed_key (update_rows_pk fuel).
Proof. unfold update_rows_pk. keys_go. Qed.

Lemma keys_update_rows_rowid fuel : emits prefixed_key (update_rows_rowid fuel).
Proof. unfold update_rows_rowid. keys_go. Qed.

Lemma keys_time_test_execution name (fun_ : prog Conn unit) setup_fun :
  emits prefixed_key fun_ ->
  (forall f, setup_fun = Some f -> emits prefixed_key f) ->
  emits prefixed_key (time_test_execution name fun_ setup_fun).
Proof.
  intros Hfun Hsetup. unfold time_test_execution, open_database, close_database.
  apply emits_bind; [keys_go|intros ?].
  apply emits_bind; [destruct setup_fun; [by apply Hsetup|keys_go]|intros ?].
  apply emits_bind; [keys_call|intros ?].
  apply emits_bind; [exact Hfun|intros ?].
  keys_go.
Qed.

Lemma keys_main fuel : emits prefixed_key (main fuel).
Proof.
  unfold main.
  repeat lazymatch goal with
  | |- emits _ (bind _ _) => apply emits_bind; [|intros ?]
  | |- emits _ (time_test_execution _ _ _) =>
      apply keys_time_test_execution; [|intros f [= <-]]
  | |- emits _ setup_test => apply keys_setup_test
  | |- emits _ setup_update_test =>
      unfold setup_update_test; apply emits_bind; [apply keys_setup_test|intros ?]
  | |- emits _ insert_rows_xact => apply keys_insert_rows_xact
  | |- emits _ insert_rows_xact_prepared => apply keys_insert_rows_xact_prepared
  | |- emits _ (update_rows_pk _) => apply keys_update_rows_pk
  | |- emits _ (update_rows_rowid _) => apply keys_update_rows_rowid
  | |- emits _ _ => keys_call
  end.
Qed.

End MainKeys.

(** X6: on every connection, every key [main] hands to an INSERT has the
    form ["K-<i>"] with [i] below the row count: [main] never runs the
    function [insert_rows], whose keys have no prefix. *)
Theorem main_inserts_only_prefixed_keys {Conn : Type} {SQ : Sqlite3 Conn} {E : Env}
    (fuel : nat) (c : Conn) (clocks : list Z) (k : string) :
  k ∈ sent_keys (w_out (snd (main fuel (start c clocks)))) ->
  exists i, (i < NUM_EXECUTIONS)%nat /\ k = "K-" +:+ pretty (Z.of_nat i).
Proof.
  intros Hk. unfold sent_keys in Hk. apply list_elem_of_omap in Hk as (e & He & Hkey).
  pose proof (keys_main fuel (start c clocks) (Forall_nil_2 _)) as Hall.
  rewrite Forall_forall in Hall. exact (Hall e He k Hkey).
Qed.

(** X7: on every connection, a run of [main] ends in [exit] only through
    [die_db_error]: the status is -1, and the last events of the run are
    a call whose result the source checks and that failed, the fetch of
    the error message, its two lines on the console and the wait for a
    key; a run that does not end in [exit] has seen no such failure. *)
Theorem exit_only_after_a_checked_failure {Conn : Type} {SQ : Sqlite3 Conn} {E : Env}
    (fuel : nat) (w : world Conn) :
  exists t, w_out (snd (main fuel w)) = w_out w ++ t /\
    match fst (main fuel w) with
    | Exit status =>
        status = -1 /\
        exists t0 e msg, t = t0 ++ e :: die_events msg /\
          Forall (fun e' => checked_failure e' = false) t0 /\ checked_failure e = true
    | _ => Forall (fun e' => checked_failure e' = false) t
    end.
Proof. exact (fatal_main fuel w). Qed.

(** *** The rows an insert function stores *)

(** The value of the [k]-th call of [rand_double] of a process. *)
Definition drawn {E : Env} (k : nat) : float := rand_double_of RAND_MAX (rand_seq k).

(** What becomes of a number on its way into the table: [sprintf] renders
    it with [%f] into the SQL text, a bound parameter is stored as it is. *)
Definition stored {E : Env} (s : strategy) (d : float) : float :=
  match s with
  | InsertRows | InsertRowsXact => text_real d
  | InsertRowsXactPrepared => d
  end.

(** The row for index [i], built when [r] calls of [rand()] have been
    made, with the rowid [id]. *)
Definition built_row {E : Env} (s : strategy) (id : Z) (r i : nat) : test_t :=
  Test_t id (generated_key s i)
         (stored s (drawn r)) (stored s (drawn (1 + r)))
         (stored s (drawn (2 + r))) (stored s (drawn (3 + r))).

(** The row for index [i] of a run that starts on an empty table when [r]
    calls of [rand()] have been made. *)
Definition generated_row {E : Env} (s : strategy) (r i : nat) : test_t :=
  built_row s (Z.of_nat i + 1) (r + 4 * i) i.

Lemma next_rowid_snoc (rows : list test_t) (r : test_t) :
  (forall r', r' ∈ rows -> rowid r' <= rowid r) ->
  next_rowid (rows ++ [r]) = 1 + rowid r.
Proof.
  intros Hle. unfold next_rowid.
  destruct rows as [|r0 rows]; [done|]. cbn [app]. f_equal.
  assert (forall init, init <= rowid r ->
            foldr (fun r' m => Z.max (rowid r') m) init (rows ++ [r]) = rowid r) as Hfold.
  { intros init Hinit. induction rows as [|r1 rows IH]; cbn [app foldr]; [lia|].
    rewrite IH.
    - assert (rowid r1 <= rowid r) by (apply Hle; right; left). lia.
    - intros r' Hr'. apply Hle. apply elem_of_cons in Hr' as [->|Hr']; [left|right; by right]. }
  apply Hfold. apply Hle. left.
Qed.

Lemma next_rowid_generated {E : Env} (s : strategy) (r i : nat) :
  next_rowid (map (generated_row s r) (seq 0 i)) = Z.of_nat i + 1.
Proof.
  destruct i as [|i]; [done|]. rewrite seq_S, map_app. cbn [map].
  rewrite next_rowid_snoc; [cbn [generated_row built_row rowid]; lia|].
  intros r' (j & -> & Hj)%list_elem_of_fmap. apply elem_of_seq in Hj.
  cbn [generated_row built_row rowid]. lia.
Qed.

Lemma generated_rows_keys {E : Env} (s : strategy) (r n : nat) :
  map key (map (generated_row s r) (seq 0 n)) = map (generated_key s) (seq 0 n).
Proof. by rewrite map_map. Qed.

Section ExactInsertLoop.
Context {E : Env}.
Variable s : strategy.
Variable W : list test_t -> nat -> list event -> world db.
Variable body : nat -> prog db unit.

Hypothesis body_exact : forall i rows r out,
  has_key (generated_key s i) rows = false ->
  (String.length (generated_key s i) < KEY_SIZE)%nat ->
  exists evs,
    body i (W rows r out)
    = (Done tt, W (rows ++ [built_row s (next_rowid rows) r i]) (4 + r) (out ++ evs)).

(** With keys that fit, the loop adds the generated rows in order. *)
Lemma insert_loop_exact r0 n : forall i0 out,
  (forall i, (i < i0 + n)%nat -> (String.length (generated_key s i) < KEY_SIZE)%nat) ->
  exists evs,
    for_loop i0 n body (W (map (generated_row s r0) (seq 0 i0)) (r0 + 4 * i0) out)
    = (Done tt, W (map (generated_row s r0) (seq 0 (i0 + n))) (r0 + 4 * (i0 + n)) (out ++ evs)).
Proof.
  induction n as [|n IH]; intros i0 out Hfit; cbn [for_loop].
  - exists []. by rewrite app_nil_r, !Nat.add_0_r.
  - destruct (body_exact i0 (map (generated_row s r0) (seq 0 i0)) (r0 + 4 * i0) out)
      as (evs & Hbody).
    { apply generated_key_fresh, generated_rows_keys. }
    { apply Hfit. lia. }
    rewrite next_rowid_generated in Hbody. fold (generated_row s r0 i0) in Hbody.
    replace (map (generated_row s r0) (seq 0 i0) ++ [generated_row s r0 i0])
      with (map (generated_row s r0) (seq 0 (S i0))) in Hbody
      by (by rewrite seq_S, map_app).
    replace (4 + (r0 + 4 * i0))%nat with (r0 + 4 * S i0)%nat in Hbody by lia.
    destruct (IH (S i0) (out ++ evs)) as (evs' & Hloop).
    { intros i Hi. apply Hfit. lia. }
    exists (evs ++ evs'). unfold bind. rewrite Hbody, Hloop.
    by rewrite app_assoc, Nat.add_succ_comm.
Qed.

End ExactInsertLoop.

Section ExactInsert.
Context {E : Env}.

Ltac run_binds :=
  unfold sqlite3_bind_text, sqlite3_bind_double, sqlite3_bind_int64;
  cbn [sq_bind_text sq_bind_double sq_bind_int64 rel_sqlite3 stmt_id];
  repeat (erewrite run_bind; [|first [eassumption|apply lookup_insert_eq]|done];
          rewrite ?insert_insert_eq; cbn [st_kind st_binds st_pos]).

Lemma insert_rows_body_exact stmts next err clk i rows r out :
  has_key (generated_key InsertRows i) rows = false ->
  (String.length (generated_key InsertRows i) < KEY_SIZE)%nat ->
  exists evs,
    insert_rows_body i (World (Db true (Some rows) None stmts next err) r clk out)
    = (Done tt,
       World (Db true (Some (rows ++ [built_row InsertRows (next_rowid rows) r i])) None
                 stmts next err)
             (4 + r) clk (out ++ evs)).
Proof.
  intros Hkey Hlen. eexists. unfold insert_rows_body, sprintf_key.
  rewrite run_write_key by exact Hlen. rewrite !run_rand_double.
  rewrite run_exec_insert_values by exact Hkey. reflexivity.
Qed.

Lemma insert_rows_xact_body_exact disk stmts next err clk i rows r out :
  has_key (generated_key InsertRowsXact i) rows = false ->
  (String.length (generated_key InsertRowsXact i) < KEY_SIZE)%nat ->
  exists evs,
    insert_rows_xact_body i (World (Db true disk (Some (Some rows)) stmts next err) r clk out)
    = (Done tt,
       World (Db true disk (Some (Some (rows ++ [built_row InsertRowsXact (next_rowid rows) r i])))
                 stmts next err)
             (4 + r) clk (out ++ evs)).
Proof.
  intros Hkey Hlen. eexists. unfold insert_rows_xact_body, sprintf_key.
  rewrite run_write_key by exact Hlen. rewrite !run_rand_double.
  rewrite run_exec_insert_values_txn by exact Hkey. reflexivity.
Qed.

Lemma insert_rows_xact_prepared_body_exact q id disk stmts next err clk i rows r out :
  stmts !! id = Some (StmtState KInsert ∅ Before) ->
  has_key (generated_key InsertRowsXactPrepared i) rows = false ->
  (String.length (generated_key InsertRowsXactPrepared i) < KEY_SIZE)%nat ->
  exists evs,
    insert_rows_xact_prepared_body (Stmt q id) i
      (World (Db true disk (Some (Some rows)) stmts next err) r clk out)
    = (Done tt,
       World (Db true disk
                 (Some (Some (rows ++ [built_row InsertRowsXactPrepared (next_rowid rows) r i])))
                 stmts next err)
             (4 + r) clk (out ++ evs)).
Proof.
  intros Hst Hkey Hlen. eexists. unfold insert_rows_xact_prepared_body, sprintf_key.
  rewrite run_write_key by exact Hlen. rewrite !run_rand_double.
  run_binds.
  erewrite run_step_insert; [|apply lookup_insert_eq|by simplify_map_eq..|exact Hkey].
  change (negb (SQLITE_DONE =? SQLITE_DONE)) with false. rewrite run_when_ok.
  erewrite run_clear_bindings by apply lookup_insert_eq.
  rewrite insert_insert_eq. cbn [st_kind st_binds st_pos].
  erewrite run_reset by apply lookup_insert_eq.
  rewrite insert_insert_eq. cbn [st_kind st_binds st_pos].
  rewrite (insert_id _ _ _ Hst). unfold ret. rewrite <- !app_assoc. reflexivity.
Qed.

Lemma insert_rows_exact stmts next err r clk out :
  keys_in_bounds InsertRows ->
  exists evs,
    insert_rows (World (Db true (Some []) None stmts next err) r clk out)
    = (Done tt,
       World (Db true (Some (map (generated_row InsertRows r) (seq 0 NUM_EXECUTIONS))) None
                 stmts next err)
             (r + 4 * NUM_EXECUTIONS) clk (out ++ evs)).
Proof.
  intros Hfit. unfold insert_rows.
  destruct (insert_loop_exact InsertRows
              (fun rows r out => World (Db true (Some rows) None stmts next err) r clk out)
              insert_rows_body) with (r0 := r) (n := NUM_EXECUTIONS) (i0 := O) (out := out)
    as (evs & Hloop).
  { intros. by apply insert_rows_body_exact. }
  { exact Hfit. }
  exists evs. cbn [seq map] in Hloop.
  by rewrite Nat.mul_0_r, Nat.add_0_r in Hloop.
Qed.

Lemma insert_rows_xact_exact stmts next err r clk out :
  keys_in_bounds InsertRowsXact ->
  exists evs,
    insert_rows_xact (World (Db true (Some []) None stmts next err) r clk out)
    = (Done tt,
       World (Db true (Some (map (generated_row InsertRowsXact r) (seq 0 NUM_EXECUTIONS))) None
                 stmts next err)
             (r + 4 * NUM_EXECUTIONS) clk (out ++ evs)).
Proof.
  intros Hfit. unfold insert_rows_xact. rewrite run_exec_begin.
  change (negb (SQLITE_OK =? SQLITE_OK)) with false. rewrite run_when_ok.
  destruct (insert_loop_exact InsertRowsXact
              (fun rows r out => World (Db true (Some []) (Some (Some rows)) stmts next err) r clk out)
              insert_rows_xact_body) with (r0 := r) (n := NUM_EXECUTIONS) (i0 := O)
              (out := out ++ [Call (Exec sql_begin) SQLITE_OK])
    as (evs & Hloop).
  { intros. by apply insert_rows_xact_body_exact. }
  { exact Hfit. }
  cbn [seq map] in Hloop. rewrite Nat.mul_0_r, Nat.add_0_r in Hloop.
  unfold bind at 1. rewrite Hloop. rewrite run_exec_commit.
  change (negb (SQLITE_OK =? SQLITE_OK)) with false. cbn [when ret Nat.add].
  eexists. by rewrite <- !app_assoc.
Qed.

Lemma insert_rows_xact_prepared_exact stmts next err r clk out :
  keys_in_bounds InsertRowsXactPrepared ->
  exists evs,
    insert_rows_xact_prepared (World (Db true (Some []) None stmts next err) r clk out)
    = (Done tt,
       World (Db true (Some (map (generated_row InsertRowsXactPrepared r) (seq 0 NUM_EXECUTIONS)))
                 None (delete next stmts) (S next) err)
             (r + 4 * NUM_EXECUTIONS) clk (out ++ evs)).
Proof.
  intros Hfit. unfold insert_rows_xact_prepared. rewrite run_exec_begin.
  change (negb (SQLITE_OK =? SQLITE_OK)) with false. rewrite run_when_ok.
  erewrite run_prepare by reflexivity. cbv beta iota.
  change (negb (SQLITE_OK =? SQLITE_OK)) with false. rewrite run_when_ok.
  destruct (insert_loop_exact InsertRowsXactPrepared
              (fun rows r out =>
                 World (Db true (Some []) (Some (Some rows))
                           (<[next := StmtState KInsert ∅ Before]> stmts) (S next) err)
                       r clk out)
              (insert_rows_xact_prepared_body (Stmt sql_insert next)))
    with (r0 := r) (n := NUM_EXECUTIONS) (i0 := O)
         (out := (out ++ [Call (Exec sql_begin) SQLITE_OK])
                   ++ [Call (Prepare sql_insert) SQLITE_OK])
    as (evs & Hloop).
  { intros. apply insert_rows_xact_prepared_body_exact; [apply lookup_insert_eq|done..]. }
  { exact Hfit. }
  cbn [seq map] in Hloop. rewrite Nat.mul_0_r, Nat.add_0_r in Hloop.
  unfold bind at 1. rewrite Hloop. rewrite run_exec_commit.
  change (negb (SQLITE_OK =? SQLITE_OK)) with false.
  rewrite run_when_ok. erewrite run_finalize by apply lookup_insert_eq.
  rewrite delete_insert_eq. cbn [ret Nat.add]. eexists. by rewrite <- !app_assoc.
Qed.

End ExactInsert.

(** X8: started on an empty table, with a row count of at most 10^22, an
    insert function returns and leaves the rows of the indices 0 ..
    N-1 in order: row [i] has the rowid [i + 1], the generated key, and
    as its four numbers the values of the calls [4i] .. [4i + 3] of
    [rand_double] counted from the start of the function; the prepared
    statement stores them as they are, the two functions that print the
    SQL text store what SQLite reads in the [%f] rendering. *)
Theorem insert_stores_the_generated_rows {E : Env} (s : strategy) (w : world db) :
  table_state w [] ->
  Z.of_nat NUM_EXECUTIONS <= 10 ^ 22 ->
  fst (strategy_prog s w) = Done tt /\
  table_after (strategy_prog s w)
  = Some (map (generated_row s (w_rand w)) (seq 0 NUM_EXECUTIONS)) /\
  w_rand (snd (strategy_prog s w)) = (w_rand w + 4 * NUM_EXECUTIONS)%nat.
Proof.
  intros (stmts & next & err & r & clk & out & ->)%table_state_inv Hn.
  pose proof (keys_in_bounds_below s Hn) as Hfit. unfold table_after. cbn [w_rand].
  destruct s; cbn [strategy_prog].
  - destruct (insert_rows_exact stmts next err r clk out Hfit) as (evs & ->). done.
  - destruct (insert_rows_xact_exact stmts next err r clk out Hfit) as (evs & ->). done.
  - destruct (insert_rows_xact_prepared_exact stmts next err r clk out Hfit) as (evs & ->).
    done.
Qed.

(** *** The update functions, exactly *)

Section ExactUpdate.
Context {E : Env}.

Lemma keys_fit_elem (rows : list test_t) (k : string) :
  keys_fit rows -> k ∈ map key rows -> (String.length k < KEY_SIZE)%nat.
Proof.
  intros Hfit (r & -> & Hr)%list_elem_of_fmap.
  unfold keys_fit in Hfit. rewrite Forall_forall in Hfit. by apply Hfit.
Qed.

(** The statements that are left when the two statements of an update
    function have been finalized. *)
Lemma finalized_both {A} (m : gmap nat A) (next : nat) (x y : A) :
  delete (S next) (delete next (<[next := x]> (<[S next := y]> m)))
  = delete (S next) (delete next m).
Proof.
  rewrite delete_insert_eq, delete_insert_ne by lia. by rewrite delete_insert_eq.
Qed.

Lemma update_rows_pk_exact fuel rows0 stmts next err r clk out :
  NoDup (map key rows0) -> keys_fit rows0 -> (length rows0 < fuel)%nat ->
  exists evs,
    update_rows_pk fuel (World (Db true (Some rows0) None stmts next err) r clk out)
    = (Done tt,
       World (Db true (Some (map bump rows0)) None (delete (S next) (delete next stmts))
                 (S (S next)) err)
             r clk (out ++ evs)).
Proof.
  intros Hnd Hfit Hfuel. unfold update_rows_pk. rewrite run_exec_begin.
  change (negb (SQLITE_OK =? SQLITE_OK)) with false. rewrite run_when_ok.
  erewrite run_prepare by reflexivity. cbv beta iota.
  change (negb (SQLITE_OK =? SQLITE_OK)) with false. rewrite run_when_ok.
  erewrite run_prepare by reflexivity. cbv beta iota.
  change (negb (SQLITE_OK =? SQLITE_OK)) with false. rewrite run_when_ok.
  rewrite insert_insert_ne by lia.
  set (m := <[S next := StmtState KUpdateKey ∅ Before]> stmts).
  destruct (pk_loop (Some rows0) m next (S next) (S (S next)) err r clk
              (lookup_insert_eq _ _ _) (Nat.neq_succ_diag_r next) rows0 Hnd fuel Before rows0
              ((out ++ [Call (Exec sql_begin) SQLITE_OK] ++ [Call (Prepare sql_select_key) SQLITE_OK])
                 ++ [Call (Prepare sql_update_key) SQLITE_OK]))
    as (o & w' & Hloop & Ho).
  { symmetry. apply walked_start. }
  unfold Wpk in Hloop. rewrite <- !app_assoc in Hloop |- *.
  unfold bind at 1. cbn [app] in Hloop |- *. rewrite Hloop.
  destruct o as [[]| | |]; cbn [fst]; try done.
  - destruct Ho as (evs & -> & Hevs). unfold Wpk.
    rewrite run_exec_commit. change (negb (SQLITE_OK =? SQLITE_OK)) with false.
    rewrite run_when_ok.
    erewrite run_finalize by apply lookup_insert_eq.
    erewrite run_finalize by (rewrite lookup_delete_ne by lia; rewrite lookup_insert_ne by lia;
                              apply lookup_insert_eq).
    unfold m. rewrite finalized_both. eexists. cbn [ret]. by rewrite <- !app_assoc.
  - destruct Ho as (k & Hk & Hlen). destruct Hlen. by apply (keys_fit_elem rows0).
  - cbn [pos_key pos_rowid] in Ho. rewrite remaining_all, length_map in Ho. lia.
Qed.

Lemma update_rows_rowid_exact fuel rows0 stmts next err r clk out :
  NoDup (map rowid rows0) -> (length rows0 < fuel)%nat ->
  exists evs,
    update_rows_rowid fuel (World (Db true (Some rows0) None stmts next err) r clk out)
    = (Done tt,
       World (Db true (Some (map bump rows0)) None (delete (S next) (delete next stmts))
                 (S (S next)) err)
             r clk (out ++ evs)).
Proof.
  intros Hnd Hfuel. unfold update_rows_rowid. rewrite run_exec_begin.
  change (negb (SQLITE_OK =? SQLITE_OK)) with false. rewrite run_when_ok.
  erewrite run_prepare by reflexivity. cbv beta iota.
  change (negb (SQLITE_OK =? SQLITE_OK)) with false. rewrite run_when_ok.
  erewrite run_prepare by reflexivity. cbv beta iota.
  change (negb (SQLITE_OK =? SQLITE_OK)) with false. rewrite run_when_ok.
  rewrite insert_insert_ne by lia.
  set (m := <[S next := StmtState KUpdateRowid ∅ Before]> stmts).
  destruct (rowid_loop (Some rows0) m next (S next) (S (S next)) err r clk
              (lookup_insert_eq _ _ _) (Nat.neq_succ_diag_r next) rows0 Hnd fuel Before rows0
              ((out ++ [Call (Exec sql_begin) SQLITE_OK] ++ [Call (Prepare sql_select_rowid) SQLITE_OK])
                 ++ [Call (Prepare sql_update_rowid) SQLITE_OK]))
    as (o & w' & Hloop & Ho).
  { symmetry. apply walked_start. }
  unfold Wrowid in Hloop. rewrite <- !app_assoc in Hloop |- *.
  unfold bind at 1. cbn [app] in Hloop |- *. rewrite Hloop.
  destruct o as [[]| | |]; cbn [fst]; try done.
  - destruct Ho as (evs & -> & Hevs). unfold Wrowid.
    rewrite run_exec_commit. change (negb (SQLITE_OK =? SQLITE_OK)) with false.
    rewrite run_when_ok.
    erewrite run_finalize by apply lookup_insert_eq.
    erewrite run_finalize by (rewrite lookup_delete_ne by lia; rewrite lookup_insert_ne by lia;
                              apply lookup_insert_eq).
    unfold m. rewrite finalized_both. eexists. cbn [ret]. by rewrite <- !app_assoc.
  - cbn [pos_key pos_rowid] in Ho. rewrite remaining_all, length_map in Ho. lia.
Qed.

Lemma update_prog_exact (u : update_strategy) fuel rows0 stmts next err r clk out :
  valid_table rows0 -> (u = UpdateRowsPk -> keys_fit rows0) -> (length rows0 < fuel)%nat ->
  exists evs,
    update_prog u fuel (World (Db true (Some rows0) None stmts next err) r clk out)
    = (Done tt,
       World (Db true (Some (map bump rows0)) None (delete (S next) (delete next stmts))
                 (S (S next)) err)
             r clk (out ++ evs)).
Proof.
  intros [Hkeys Hrowids] Hfit Hfuel. destruct u; cbn [update_prog].
  - apply update_rows_pk_exact; auto.
  - by apply update_rows_rowid_exact.
Qed.

Lemma bump_key (rows : list test_t) : map key (map bump rows) = map key rows.
Proof. rewrite map_map. by apply map_ext. Qed.

Lemma bump_rowid (rows : list test_t) : map rowid (map bump rows) = map rowid rows.
Proof. rewrite map_map. by apply map_ext. Qed.

Lemma valid_table_bump (rows : list test_t) : valid_table rows -> valid_table (map bump rows).
Proof. intros [Hk Hr]. split; by rewrite ?bump_key, ?bump_rowid. Qed.

Lemma keys_fit_bump (rows : list test_t) : keys_fit rows -> keys_fit (map bump rows).
Proof. unfold keys_fit. rewrite Forall_map. intros H. eapply Forall_impl; [exact H|]. by intros r. Qed.

End ExactUpdate.

(** X9: an update function leaves the connection as the next one needs
    it: whichever two update functions run one after the other on a table
    with unique keys and rowids, the second one returns too, and every
    row has been updated twice. *)
Theorem updates_can_be_chained {E : Env} (u1 u2 : update_strategy) (fuel1 fuel2 : nat)
    (w : world db) (rows0 : list test_t) :
  valid_table rows0 -> table_state w rows0 ->
  (u1 = UpdateRowsPk \/ u2 = UpdateRowsPk -> keys_fit rows0) ->
  (length rows0 < fuel1)%nat -> (length rows0 < fuel2)%nat ->
  let res := bind (update_prog u1 fuel1) (fun _ => update_prog u2 fuel2) w in
  fst res = Done tt /\ table_after res = Some (map bump (map bump rows0)).
Proof.
  intros Hvalid (stmts & next & err & r & clk & out & ->)%table_state_inv Hfit Hf1 Hf2.
  cbv zeta. unfold bind, table_after.
  destruct (update_prog_exact u1 fuel1 rows0 stmts next err r clk out Hvalid) as (evs1 & ->);
    [auto|done|].
  destruct (update_prog_exact u2 fuel2 (map bump rows0)
              (delete (S next) (delete next stmts)) (S (S next)) err r clk (out ++ evs1))
    as (evs2 & ->).
  - by apply valid_table_bump.
  - intros Hu. apply keys_fit_bump. auto.
  - by rewrite length_map.
  - done.
Qed.

(** *** A key that does not fit the buffer of [update_rows_pk] *)

Section PkOverrun.
Context {E : Env}.
Variables (disk : option (list test_t)) (m : gmap nat stmt_state).
Variables (sel up next : nat) (err : string) (r : nat) (clk : list Z).
Hypothesis Hup : m !! up = Some (StmtState KUpdateKey ∅ Before).
Hypothesis Hne : sel ≠ up.
Variable rows0 : list test_t.
Hypothesis Hnd : NoDup (map key rows0).



End PkOverrun.



(** *** An insert that meets a key the table already has *)

(** The message SQLite gives for a second row with the same key. *)
Definition key_conflict : string := "UNIQUE constraint failed: Test.key".

Lemma has_key_app (k : string) (rows rows' : list test_t) :
  has_key k (rows ++ rows') = has_key k rows || has_key k rows'.
Proof. apply existsb_app. Qed.

Section RelConflictRuns.
Context {E : Env}.

Lemma run_exec_insert_values_conflict {B} (k : Z -> prog db B) key_ n1 n2 n3 n4
    rows stmts next err r clk out :
  has_key key_ rows = true ->
  bind (sqlite3_exec (sql_insert_values key_ n1 n2 n3 n4)) k
       (World (Db true (Some rows) None stmts next err) r clk out)
  = k SQLITE_CONSTRAINT
      (World (Db true (Some rows) None stmts next key_conflict) r clk
             (out ++ [Call (Exec (sql_insert_values key_ n1 n2 n3 n4)) SQLITE_CONSTRAINT])).
Proof.
  intros Hkey. unfold sqlite3_exec. rewrite bind_api.
  cbn [w_db sq_exec rel_sqlite3]. unfold rel_exec. cbn [db_open].
  change (parse_sql (sql_insert_values key_ n1 n2 n3 n4))
    with (Some (KInsertValues key_ (text_real n1) (text_real n2) (text_real n3) (text_real n4))).
  cbn [rel_run]. unfold rel_insert. cbn [view db_txn db_disk]. by rewrite Hkey.
Qed.

Lemma run_exec_insert_values_txn_conflict {B} (k : Z -> prog db B) key_ n1 n2 n3 n4
    disk rows stmts next err r clk out :
  has_key key_ rows = true ->
  bind (sqlite3_exec (sql_insert_values key_ n1 n2 n3 n4)) k
       (World (Db true disk (Some (Some rows)) stmts next err) r clk out)
  = k SQLITE_CONSTRAINT
      (World (Db true disk (Some (Some rows)) stmts next key_conflict) r clk
             (out ++ [Call (Exec (sql_insert_values key_ n1 n2 n3 n4)) SQLITE_CONSTRAINT])).
Proof.
  intros Hkey. unfold sqlite3_exec. rewrite bind_api.
  cbn [w_db sq_exec rel_sqlite3]. unfold rel_exec. cbn [db_open].
  change (parse_sql (sql_insert_values key_ n1 n2 n3 n4))
    with (Some (KInsertValues key_ (text_real n1) (text_real n2) (text_real n3) (text_real n4))).
  cbn [rel_run]. unfold rel_insert. cbn [view db_txn db_disk]. by rewrite Hkey.
Qed.

Lemma run_step_insert_conflict {B} q id b pos key_ n1 n2 n3 n4 (k : Z -> prog db B)
    disk rows stmts next err r clk out :
  stmts !! id = Some (StmtState KInsert b pos) ->
  b !! 1 = Some (VText key_) -> b !! 2 = Some (VReal n1) -> b !! 3 = Some (VReal n2) ->
  b !! 4 = Some (VReal n3) -> b !! 5 = Some (VReal n4) ->
  has_key key_ rows = true ->
  bind (sqlite3_step (Stmt q id)) k
       (World (Db true disk (Some (Some rows)) stmts next err) r clk out)
  = k SQLITE_CONSTRAINT
      (World (Db true disk (Some (Some rows)) stmts next key_conflict) r clk
             (out ++ [Call (Step (Stmt q id)) SQLITE_CONSTRAINT])).
Proof.
  intros Hst H1 H2 H3 H4 H5 Hkey. unfold sqlite3_step. rewrite bind_api.
  cbn [w_db sq_step rel_sqlite3 stmt_id]. unfold rel_step. cbn [db_stmts].
  rewrite Hst. cbn [st_kind st_binds]. rewrite H1, H2, H3, H4, H5.
  unfold rel_insert. cbn [view db_txn db_disk]. by rewrite Hkey.
Qed.

End RelConflictRuns.

(** How the run of an insert function ends that meets a key the table
    already has: [exit(-1)] after the error report for the refused call. *)
Definition refused (out : list event) (w' : world db) : Prop :=
  exists pre c,
    w_out w' = out ++ pre ++ Call c SQLITE_CONSTRAINT :: die_events key_conflict.

Section ConflictLoop.
Context {E : Env}.
Variable s : strategy.
Variable W : list test_t -> nat -> list event -> world db.
Variable body : nat -> prog db unit.
Variable j : nat.

Hypothesis body_ok : forall i rows r out,
  has_key (generated_key s i) rows = false ->
  (String.length (generated_key s i) < KEY_SIZE)%nat ->
  exists row evs,
    body i (W rows r out) = (Done tt, W (rows ++ [row]) (4 + r) (out ++ evs)) /\
    key row = generated_key s i /\ forallb key_read_ok evs = true.

Hypothesis body_refused : forall i rows r out,
  has_key (generated_key s i) rows = true ->
  (String.length (generated_key s i) < KEY_SIZE)%nat ->
  exists w',
    body i (W rows r out) = (Exit (-1), w') /\
    db_disk (w_db w') = db_disk (w_db (W rows r out)) /\ refused out w'.

Variable rows0 : list test_t.
Hypothesis fits : forall i, (i <= j)%nat -> (String.length (generated_key s i) < KEY_SIZE)%nat.
Hypothesis fresh : forall i, (i < j)%nat -> has_key (generated_key s i) rows0 = false.
Hypothesis taken : has_key (generated_key s j) rows0 = true.

(** The loop adds the rows before index [j] and stops at index [j]. *)
Lemma conflict_loop n : forall i0 added r out,
  (i0 <= j < i0 + n)%nat ->
  map key added = map (generated_key s) (seq 0 i0) ->
  exists added' r' out' w',
    for_loop i0 n body (W (rows0 ++ added) r out) = (Exit (-1), w') /\
    db_disk (w_db w') = db_disk (w_db (W (rows0 ++ added') r' out')) /\
    map key added' = map (generated_key s) (seq 0 j) /\
    refused out w'.
Proof.
  induction n as [|n IH]; intros i0 added r out Hj Hadded; [lia|]. cbn [for_loop].
  destruct (decide (i0 = j)) as [->|Hne].
  - destruct (body_refused j (rows0 ++ added) r out) as (w' & Hbody & Hdisk & Href).
    { by rewrite has_key_app, taken. }
    { apply fits. lia. }
    exists added, r, out, w'. unfold bind. by rewrite Hbody.
  - destruct (body_ok i0 (rows0 ++ added) r out) as (row & evs & Hbody & Hkey & Hevs).
    { rewrite has_key_app, fresh by lia. by rewrite (generated_key_fresh s i0 added). }
    { apply fits. lia. }
    destruct (IH (S i0) (added ++ [row]) (4 + r)%nat (out ++ evs))
      as (added' & r' & out' & w' & Hloop & Hdisk & Hkeys & (pre & c & Hout)).
    { lia. }
    { rewrite map_app, Hadded, seq_S, map_app. simpl. by rewrite Hkey. }
    exists added', r', out', w'. unfold bind. rewrite Hbody, <- app_assoc, Hloop.
    split; [done|]. split; [done|]. split; [done|].
    exists (evs ++ pre), c. by rewrite Hout, <- !app_assoc.
Qed.

End ConflictLoop.

Section RelConflict.
Context {E : Env}.

Ltac run_binds :=
  unfold sqlite3_bind_text, sqlite3_bind_double, sqlite3_bind_int64;
  cbn [sq_bind_text sq_bind_double sq_bind_int64 rel_sqlite3 stmt_id];
  repeat (erewrite run_bind; [|first [eassumption|apply lookup_insert_eq]|done];
          rewrite ?insert_insert_eq; cbn [st_kind st_binds st_pos]).

Lemma insert_rows_body_refused stmts next err clk i rows r out :
  has_key (generated_key InsertRows i) rows = true ->
  (String.length (generated_key InsertRows i) < KEY_SIZE)%nat ->
  exists w',
    insert_rows_body i (World (Db true (Some rows) None stmts next err) r clk out)
    = (Exit (-1), w') /\
    db_disk (w_db w') = Some rows /\ refused out w'.
Proof.
  intros Hkey Hlen. eexists. unfold insert_rows_body, sprintf_key.
  rewrite run_write_key by exact Hlen. rewrite !run_rand_double.
  rewrite run_exec_insert_values_conflict by exact Hkey.
  change (negb (SQLITE_CONSTRAINT =? SQLITE_OK)) with true. cbn [when].
  rewrite die_db_error_run. split; [reflexivity|]. split; [done|].
  cbn [w_out w_db sq_errmsg rel_sqlite3 db_err]. rewrite <- app_assoc.
  eexists [], (Exec _). reflexivity.
Qed.

Lemma insert_rows_xact_body_refused disk stmts next err clk i rows r out :
  has_key (generated_key InsertRowsXact i) rows = true ->
  (String.length (generated_key InsertRowsXact i) < KEY_SIZE)%nat ->
  exists w',
    insert_rows_xact_body i (World (Db true disk (Some (Some rows)) stmts next err) r clk out)
    = (Exit (-1), w') /\
    db_disk (w_db w') = disk /\ refused out w'.
Proof.
  intros Hkey Hlen. eexists. unfold insert_rows_xact_body, sprintf_key.
  rewrite run_write_key by exact Hlen. rewrite !run_rand_double.
  rewrite run_exec_insert_values_txn_conflict by exact Hkey.
  change (negb (SQLITE_CONSTRAINT =? SQLITE_OK)) with true. cbn [when].
  rewrite die_db_error_run. split; [reflexivity|]. split; [done|].
  cbn [w_out w_db sq_errmsg rel_sqlite3 db_err]. rewrite <- app_assoc.
  eexists [], (Exec _). reflexivity.
Qed.

Lemma insert_rows_xact_prepared_body_refused q id disk stmts next err clk i rows r out :
  stmts !! id = Some (StmtState KInsert ∅ Before) ->
  has_key (generated_key InsertRowsXactPrepared i) rows = true ->
  (String.length (generated_key InsertRowsXactPrepared i) < KEY_SIZE)%nat ->
  exists w',
    insert_rows_xact_prepared_body (Stmt q id) i
      (World (Db true disk (Some (Some rows)) stmts next err) r clk out)
    = (Exit (-1), w') /\
    db_disk (w_db w') = disk /\ refused out w'.
Proof.
  intros Hst Hkey Hlen. eexists. unfold insert_rows_xact_prepared_body, sprintf_key.
  rewrite run_write_key by exact Hlen. rewrite !run_rand_double.
  run_binds.
  erewrite run_step_insert_conflict; [|apply lookup_insert_eq|by simplify_map_eq..|exact Hkey].
  change (negb (SQLITE_CONSTRAINT =? SQLITE_DONE)) with true. cbn [when].
  rewrite bind_die. split; [reflexivity|]. split; [done|].
  cbn [w_out w_db sq_errmsg rel_sqlite3 db_err]. rewrite <- !app_assoc.
  eexists [_; _; _; _; _], (Step (Stmt q id)). reflexivity.
Qed.

End RelConflict.

Section RelConflictRun.
Context {E : Env}.
Variables (rows0 : list test_t) (j : nat).
Hypothesis below : (j < NUM_EXECUTIONS)%nat.

Lemma insert_rows_refused stmts next err r clk out :
  (forall i, (i <= j)%nat -> (String.length (generated_key InsertRows i) < KEY_SIZE)%nat) ->
  (forall i, (i < j)%nat -> has_key (generated_key InsertRows i) rows0 = false) ->
  has_key (generated_key InsertRows j) rows0 = true ->
  exists w' added,
    insert_rows (World (Db true (Some rows0) None stmts next err) r clk out) = (Exit (-1), w') /\
    db_disk (w_db w') = Some (rows0 ++ added) /\
    map key added = map (generated_key InsertRows) (seq 0 j) /\
    refused out w'.
Proof.
  intros fits fresh taken. unfold insert_rows.
  destruct (conflict_loop InsertRows
              (fun rows r out => World (Db true (Some rows) None stmts next err) r clk out)
              insert_rows_body j) with (rows0 := rows0) (n := NUM_EXECUTIONS) (i0 := O)
              (added := @nil test_t) (r := r) (out := out)
    as (added' & r' & out' & w' & Hloop & Hdisk & Hkeys & Href); try done.
  { intros. by apply insert_rows_body_ok. }
  { intros. by apply insert_rows_body_refused. }
  { lia. }
  rewrite app_nil_r in Hloop. by exists w', added'.
Qed.

Lemma insert_rows_xact_refused stmts next err r clk out :
  (forall i, (i <= j)%nat -> (String.length (generated_key InsertRowsXact i) < KEY_SIZE)%nat) ->
  (forall i, (i < j)%nat -> has_key (generated_key InsertRowsXact i) rows0 = false) ->
  has_key (generated_key InsertRowsXact j) rows0 = true ->
  exists w',
    insert_rows_xact (World (Db true (Some rows0) None stmts next err) r clk out)
    = (Exit (-1), w') /\
    db_disk (w_db w') = Some rows0 /\ refused out w'.
Proof.
  intros fits fresh taken. unfold insert_rows_xact. rewrite run_exec_begin.
  change (negb (SQLITE_OK =? SQLITE_OK)) with false. rewrite run_when_ok.
  destruct (conflict_loop InsertRowsXact
              (fun rows r out => World (Db true (Some rows0) (Some (Some rows)) stmts next err) r clk out)
              insert_rows_xact_body j) with (rows0 := rows0) (n := NUM_EXECUTIONS) (i0 := O)
              (added := @nil test_t) (r := r) (out := out ++ [Call (Exec sql_begin) SQLITE_OK])
    as (added' & r' & out' & w' & Hloop & Hdisk & Hkeys & (pre & c & Hout)); try done.
  { intros. by apply insert_rows_xact_body_ok. }
  { intros. by apply insert_rows_xact_body_refused. }
  { lia. }
  rewrite app_nil_r in Hloop. unfold bind at 1. rewrite Hloop.
  exists w'. split; [done|]. split; [done|].
  exists (Call (Exec sql_begin) SQLITE_OK :: pre), c. by rewrite Hout, <- app_assoc.
Qed.

Lemma insert_rows_xact_prepared_refused stmts next err r clk out :
  (forall i, (i <= j)%nat ->
     (String.length (generated_key InsertRowsXactPrepared i) < KEY_SIZE)%nat) ->
  (forall i, (i < j)%nat -> has_key (generated_key InsertRowsXactPrepared i) rows0 = false) ->
  has_key (generated_key InsertRowsXactPrepared j) rows0 = true ->
  exists w',
    insert_rows_xact_prepared (World (Db true (Some rows0) None stmts next err) r clk out)
    = (Exit (-1), w') /\
    db_disk (w_db w') = Some rows0 /\ refused out w'.
Proof.
  intros fits fresh taken. unfold insert_rows_xact_prepared. rewrite run_exec_begin.
  change (negb (SQLITE_OK =? SQLITE_OK)) with false. rewrite run_when_ok.
  erewrite run_prepare by reflexivity. cbv beta iota.
  change (negb (SQLITE_OK =? SQLITE_OK)) with false. rewrite run_when_ok.
  destruct (conflict_loop InsertRowsXactPrepared
              (fun rows r out =>
                 World (Db true (Some rows0) (Some (Some rows))
                           (<[next := StmtState KInsert ∅ Before]> stmts) (S next) err)
                       r clk out)
              (insert_rows_xact_prepared_body (Stmt sql_insert next)) j)
    with (rows0 := rows0) (n := NUM_EXECUTIONS) (i0 := O) (added := @nil test_t) (r := r)
         (out := (out ++ [Call (Exec sql_begin) SQLITE_OK])
                   ++ [Call (Prepare sql_insert) SQLITE_OK])
    as (added' & r' & out' & w' & Hloop & Hdisk & Hkeys & (pre & c & Hout)); try done.
  { intros. apply insert_rows_xact_prepared_body_ok; [apply lookup_insert_eq|done..]. }
  { intros. apply insert_rows_xact_prepared_body_refused; [apply lookup_insert_eq|done..]. }
  { lia. }
  rewrite app_nil_r in Hloop. unfold bind at 1. rewrite Hloop.
  exists w'. split; [done|]. split; [done|].
  exists (Call (Exec sql_begin) SQLITE_OK :: Call (Prepare sql_insert) SQLITE_OK :: pre), c.
  by rewrite Hout, <- !app_assoc.
Qed.

End RelConflictRun.

(** X11: an insert function that is run on a table which already holds
    one of its keys stops at the first such key, index [j]: SQLite
    refuses the row, and the run ends in [exit(-1)] after the report of
    the UNIQUE constraint.  The two functions that work in a transaction
    leave the committed table as it was, since they never get to their
    COMMIT; [insert_rows], which has no transaction, leaves the [j] rows
    before the refused one in the table. *)
Theorem insert_stops_at_a_key_the_table_has {E : Env} (s : strategy) (w : world db)
    (rows0 : list test_t) (j : nat) :
  table_state w rows0 -> (j < NUM_EXECUTIONS)%nat ->
  (forall i, (i <= j)%nat -> (String.length (generated_key s i) <= 24)%nat) ->
  (forall i, (i < j)%nat -> has_key (generated_key s i) rows0 = false) ->
  has_key (generated_key s j) rows0 = true ->
  let res := strategy_prog s w in
  fst res = Exit (-1) /\
  (exists pre c,
     w_out (snd res)
     = w_out w ++ pre ++ Call c SQLITE_CONSTRAINT :: die_events key_conflict) /\
  match s with
  | InsertRows =>
      exists added, table_after res = Some (rows0 ++ added) /\
        map key added = map (generated_key s) (seq 0 j)
  | InsertRowsXact | InsertRowsXactPrepared => table_after res = Some rows0
  end.
Proof.
  intros (stmts & next & err & r & clk & out & ->)%table_state_inv Hj Hfit Hfresh Htaken.
  assert (forall i, (i <= j)%nat -> (String.length (generated_key s i) < KEY_SIZE)%nat) as Hfit'.
  { intros i Hi. specialize (Hfit i Hi). unfold KEY_SIZE. lia. }
  cbv zeta. unfold table_after. destruct s; cbn [strategy_prog].
  - destruct (insert_rows_refused rows0 j Hj stmts next err r clk out Hfit' Hfresh Htaken)
      as (w' & added & -> & Hdisk & Hkeys & Href).
    split; [done|]. split; [exact Href|]. by exists added.
  - destruct (insert_rows_xact_refused rows0 j Hj stmts next err r clk out Hfit' Hfresh Htaken)
      as (w' & -> & Hdisk & Href).
    by repeat split.
  - destruct (insert_rows_xact_prepared_refused rows0 j Hj stmts next err r clk out
                Hfit' Hfresh Htaken) as (w' & -> & Hdisk & Href).
    by repeat split.
Qed.

(** *** A whole run on the relational model *)

(** The connection [open_database] leaves: open, no table yet. *)
Definition fresh_db : db := Db true None None ∅ 0 "not an error".

(** The connection after [sqlite3_close]. *)
Definition closed_db (d : db) : db := Db false (db_disk d) None ∅ (db_next d) (db_err d).

Section RelMain.
Context {E : Env}.

Lemma run_clock {Conn : Type} {B} (k : Z -> prog Conn B) d r clk out :
  bind clock k (World d r clk out)
  = k (hd (-1) clk) (World d r (tl clk) (out ++ [Clock (hd (-1) clk)])).
Proof. by destruct clk. Qed.

Lemma run_close_database {B} (k : unit -> prog db B) disk txn next err r clk out :
  bind close_database k (World (Db true disk txn ∅ next err) r clk out)
  = k tt (World (Db false disk None ∅ next err) r clk (out ++ [Call Close SQLITE_OK])).
Proof. unfold close_database. rewrite bind_assoc. reflexivity. Qed.

(** [p] runs to its end from the connection [d] after [r] calls of
    [rand()], and leaves the connection [d'] after [r'] calls. *)
Definition runs (p : prog db unit) (d : db) (r : nat) (d' : db) (r' : nat) : Prop :=
  forall clk out, exists evs,
    p (World d r clk out) = (Done tt, World d' r' clk (out ++ evs)).

Lemma runs_bind (p q : prog db unit) d r d1 r1 d2 r2 :
  runs p d r d1 r1 -> runs q d1 r1 d2 r2 -> runs (bind p (fun _ => q)) d r d2 r2.
Proof.
  intros Hp Hq clk out. destruct (Hp clk out) as (evs & Hp').
  destruct (Hq clk (out ++ evs)) as (evs' & Hq').
  exists (evs ++ evs'). unfold bind. by rewrite Hp', Hq', app_assoc.
Qed.

Lemma runs_setup_test disk stmts next err r :
  runs setup_test (Db true disk None stmts next err) r
       (Db true (Some (default [] disk)) None stmts next err) r.
Proof.
  intros clk out. unfold setup_test. rewrite run_exec_create. by eexists.
Qed.

(** A scenario of [main]: from any connection, when the setup and the
    function run to their ends and leave no statement behind. *)
Lemma runs_time_test_execution name (setup fun_ : prog db unit) d r d1 r1 d2 r2 clk out :
  runs setup fresh_db r d1 r1 -> runs fun_ d1 r1 d2 r2 ->
  db_open d2 = true -> db_stmts d2 = ∅ ->
  exists evs,
    time_test_execution name fun_ (Some setup) (World d r clk out)
    = (Done tt, World (closed_db d2) r2 (tl (tl clk)) (out ++ evs)).
Proof.
  intros Hsetup Hfun Hopen Hstmts. unfold time_test_execution.
  rewrite run_open_database. fold fresh_db.
  destruct (Hsetup clk (out ++ [Remove DB_FILE_PATH; Call (Open DB_FILE_PATH) SQLITE_OK]))
    as (evs1 & Hs).
  unfold bind at 1. rewrite Hs. rewrite run_clock.
  destruct (Hfun (tl clk) (((out ++ [Remove DB_FILE_PATH; Call (Open DB_FILE_PATH) SQLITE_OK])
                              ++ evs1) ++ [Clock (hd (-1) clk)])) as (evs2 & Hf).
  unfold bind at 1. rewrite Hf. rewrite run_clock.
  destruct d2 as [o2 disk2 txn2 stmts2 next2 err2]. cbn [db_open db_stmts] in *. subst.
  rewrite run_close_database. unfold printf, closed_db, emit.
  cbn [w_db w_rand w_clock w_out db_disk db_next db_err].
  rewrite <- !app_assoc. eexists. reflexivity.
Qed.


Lemma runs_insert_rows_xact r :
  keys_in_bounds InsertRowsXact ->
  runs insert_rows_xact (Db true (Some []) None ∅ 0 "not an error") r
       (Db true (Some (map (generated_row InsertRowsXact r) (seq 0 NUM_EXECUTIONS))) None ∅ 0
           "not an error")
       (r + 4 * NUM_EXECUTIONS).
Proof. intros Hfit clk out. by apply insert_rows_xact_exact. Qed.

Lemma runs_insert_rows_xact_prepared r :
  keys_in_bounds InsertRowsXactPrepared ->
  runs insert_rows_xact_prepared (Db true (Some []) None ∅ 0 "not an error") r
       (Db true (Some (map (generated_row InsertRowsXactPrepared r) (seq 0 NUM_EXECUTIONS)))
           None ∅ 1 "not an error")
       (r + 4 * NUM_EXECUTIONS).
Proof.
  intros Hfit clk out.
  destruct (insert_rows_xact_prepared_exact ∅ 0 "not an error" r clk out Hfit) as (evs & Hrun).
  exists evs. by rewrite delete_empty in Hrun.
Qed.

Lemma runs_setup_update_test r :
  keys_in_bounds InsertRowsXactPrepared ->
  runs setup_update_test fresh_db r
       (Db true (Some (map (generated_row InsertRowsXactPrepared r) (seq 0 NUM_EXECUTIONS)))
           None ∅ 1 "not an error")
       (r + 4 * NUM_EXECUTIONS).
Proof.
  intros Hfit. unfold setup_update_test.
  eapply runs_bind; [apply runs_setup_test|]. by apply runs_insert_rows_xact_prepared.
Qed.

Lemma generated_rows_valid (s : strategy) (r n : nat) :
  valid_table (map (generated_row s r) (seq 0 n)).
Proof.
  split.
  - rewrite generated_rows_keys. apply generated_keys_NoDup.
  - rewrite map_map. apply NoDup_fmap_2; [|apply NoDup_seq].
    intros i j Hij. cbn [generated_row built_row rowid] in Hij. lia.
Qed.

Lemma generated_rows_fit (s : strategy) (r : nat) :
  keys_in_bounds s -> keys_fit (map (generated_row s r) (seq 0 NUM_EXECUTIONS)).
Proof.
  intros Hfit. unfold keys_fit. rewrite Forall_map. apply Forall_forall.
  intros i Hi%elem_of_seq. apply Hfit. lia.
Qed.

Lemma runs_update_prog (u : update_strategy) fuel r :
  keys_in_bounds InsertRowsXactPrepared -> (NUM_EXECUTIONS < fuel)%nat ->
  runs (update_prog u fuel)
       (Db true (Some (map (generated_row InsertRowsXactPrepared r) (seq 0 NUM_EXECUTIONS)))
           None ∅ 1 "not an error")
       (r + 4 * NUM_EXECUTIONS)
       (Db true (Some (map bump (map (generated_row InsertRowsXactPrepared r)
                                     (seq 0 NUM_EXECUTIONS))))
           None ∅ 3 "not an error")
       (r + 4 * NUM_EXECUTIONS).
Proof.
  intros Hfit Hfuel clk out.
  destruct (update_prog_exact u fuel
              (map (generated_row InsertRowsXactPrepared r) (seq 0 NUM_EXECUTIONS))
              ∅ 1 "not an error" (r + 4 * NUM_EXECUTIONS) clk out) as (evs & Hrun).
  - apply generated_rows_valid.
  - intros _. by apply generated_rows_fit.
  - by rewrite length_map, length_seq.
  - exists evs. by rewrite !delete_empty in Hrun.
Qed.

End RelMain.

Ltac scenario lemma_setup lemma_fun :=
  rewrite ?run_printf; unfold bind at 1;
  lazymatch goal with
  | |- context [time_test_execution ?n ?f (Some ?s) (World ?d ?r ?clk ?out)] =>
      let evs := fresh "evs" in
      let Hrun := fresh "Hrun" in
      let H := fresh in
      pose proof (fun d1 r1 d2 r2 =>
                    runs_time_test_execution n s f d r d1 r1 d2 r2 clk out) as H;
      edestruct H as (evs & Hrun); [lemma_setup|lemma_fun|done..|];
      rewrite Hrun; clear Hrun H
  end.

Lemma main_runs {E : Env} (fuel : nat) (d : db) (clocks : list Z) :
  Z.of_nat NUM_EXECUTIONS <= 10 ^ 22 -> (NUM_EXECUTIONS < fuel)%nat ->
  exists disk r evs,
    main fuel (start d clocks)
    = (Done tt, World (Db false (Some disk) None ∅ 3 "not an error") r (drop 8 clocks) evs) /\
    disk = map bump (map (generated_row InsertRowsXactPrepared (12 * NUM_EXECUTIONS))
                         (seq 0 NUM_EXECUTIONS)) /\
    r = (16 * NUM_EXECUTIONS)%nat.
Proof.
  intros Hn Hfuel.
  pose proof (keys_in_bounds_below InsertRowsXact Hn) as Hfit1.
  pose proof (keys_in_bounds_below InsertRowsXactPrepared Hn) as Hfit2.
  unfold main, start.
  scenario ltac:(apply runs_setup_test) ltac:(by apply runs_insert_rows_xact).
  scenario ltac:(apply runs_setup_test) ltac:(by apply runs_insert_rows_xact_prepared).
  scenario ltac:(by apply runs_setup_update_test)
           ltac:(by apply (runs_update_prog UpdateRowsPk)).
  scenario ltac:(by apply runs_setup_update_test)
           ltac:(by apply (runs_update_prog UpdateRowsRowid)).
  rewrite !run_printf. unfold getchar, emit, closed_db.
  cbn [w_db w_rand w_clock w_out db_disk db_next db_err].
  replace (0 + 4 * NUM_EXECUTIONS + 4 * NUM_EXECUTIONS + 4 * NUM_EXECUTIONS)%nat
    with (12 * NUM_EXECUTIONS)%nat by lia.
  replace (12 * NUM_EXECUTIONS + 4 * NUM_EXECUTIONS)%nat with (16 * NUM_EXECUTIONS)%nat by lia.
  replace (tl (tl (tl (tl (tl (tl (tl (tl clocks)))))))) with (drop 8 clocks)
    by (by destruct clocks as [|c0 [|c1 [|c2 [|c3 [|c4 [|c5 [|c6 [|c7 clocks]]]]]]]]).
  by eexists _, _, _.
Qed.

(** X12: on the relational model, with a row count of at most 10^22 and
    whatever database file and clock it finds, [main] runs all four
    scenarios to the end, closes the connection, and leaves in the
    database file the fixture of the last scenario, updated once: row [i]
    has the key ["K-<i>"] and, as its numbers, the values of the calls
    [12N + 4i] .. [12N + 4i + 3] of [rand_double], each plus 1.0. *)
Theorem main_leaves_the_updated_fixture {E : Env} (fuel : nat) (d : db) (clocks : list Z) :
  Z.of_nat NUM_EXECUTIONS <= 10 ^ 22 -> (NUM_EXECUTIONS < fuel)%nat ->
  let res := main fuel (start d clocks) in
  fst res = Done tt /\
  db_open (w_db (snd res)) = false /\
  db_disk (w_db (snd res))
  = Some (map bump (map (generated_row InsertRowsXactPrepared (12 * NUM_EXECUTIONS))
                        (seq 0 NUM_EXECUTIONS))) /\
  w_rand (snd res) = (16 * NUM_EXECUTIONS)%nat.
Proof.
  intros Hn Hfuel. destruct (main_runs fuel d clocks Hn Hfuel) as (disk & r & evs & -> & -> & ->).
  done.
Qed.

(** *** A missing table, and a table that is set up twice *)

(** The message SQLite gives when the table does not exist. *)
Definition no_table : string := "no such table: Test".

(** A run ends in [exit(-1)] after the report that the table is missing,
    and the database file still has no table. *)
Definition misses_the_table (w : world db) (res : outcome unit * world db) : Prop :=
  fst res = Exit (-1) /\ db_disk (w_db (snd res)) = None /\
  exists pre c rc, w_out (snd res) = w_out w ++ pre ++ Call c rc :: die_events no_table.

Section RelNoTable.
Context {E : Env}.

Lemma run_exec_begin_any {B} (k : Z -> prog db B) disk stmts next err r clk out :
  bind (sqlite3_exec sql_begin) k (World (Db true disk None stmts next err) r clk out)
  = k SQLITE_OK
      (World (Db true disk (Some disk) stmts next err) r clk
             (out ++ [Call (Exec sql_begin) SQLITE_OK])).
Proof. apply run_exec_begin. Qed.

Lemma run_prepare_no_table {B} q kind (k : Z * sqlite3_stmt -> prog db B)
    stmts next err r clk out :
  parse_sql q = Some kind ->
  match kind with
  | KInsert | KSelectKey | KUpdateKey | KSelectRowid | KUpdateRowid => True
  | _ => False
  end ->
  bind (sqlite3_prepare_v3 q) k (World (Db true None (Some None) stmts next err) r clk out)
  = k (SQLITE_ERROR, Stmt q O)
      (World (Db true None (Some None) stmts next no_table) r clk
             (out ++ [Call (Prepare q) SQLITE_ERROR])).
Proof.
  intros Hq Hkind. rewrite bind_prepare. cbn [w_db sq_prepare rel_sqlite3].
  unfold rel_prepare. cbn [db_open]. rewrite Hq. by destruct kind.
Qed.

Lemma run_exec_insert_values_no_table {B} (k : Z -> prog db B) key_ n1 n2 n3 n4
    txn stmts next err r clk out :
  txn = None \/ txn = Some None ->
  bind (sqlite3_exec (sql_insert_values key_ n1 n2 n3 n4)) k
       (World (Db true None txn stmts next err) r clk out)
  = k SQLITE_ERROR
      (World (Db true None txn stmts next no_table) r clk
             (out ++ [Call (Exec (sql_insert_values key_ n1 n2 n3 n4)) SQLITE_ERROR])).
Proof.
  intros Htxn. unfold sqlite3_exec. rewrite bind_api.
  cbn [w_db sq_exec rel_sqlite3]. unfold rel_exec. cbn [db_open].
  change (parse_sql (sql_insert_values key_ n1 n2 n3 n4))
    with (Some (KInsertValues key_ (text_real n1) (text_real n2) (text_real n3) (text_real n4))).
  cbn [rel_run]. unfold rel_insert. by destruct Htxn as [->| ->].
Qed.

Lemma insert_rows_body_no_table i stmts next err r clk out :
  (String.length (generated_key InsertRows i) < KEY_SIZE)%nat ->
  misses_the_table (World (Db true None None stmts next err) r clk out)
    (insert_rows_body i (World (Db true None None stmts next err) r clk out)).
Proof.
  intros Hlen. unfold insert_rows_body, sprintf_key.
  rewrite run_write_key by exact Hlen. rewrite !run_rand_double.
  rewrite run_exec_insert_values_no_table by (by left).
  change (negb (SQLITE_ERROR =? SQLITE_OK)) with true. cbn [when].
  rewrite die_db_error_run. split; [done|]. split; [done|].
  cbn [snd w_out w_db sq_errmsg rel_sqlite3 db_err].
  rewrite <- app_assoc. by eexists [], _, _.
Qed.

Lemma insert_rows_xact_body_no_table i stmts next err r clk out :
  (String.length (generated_key InsertRowsXact i) < KEY_SIZE)%nat ->
  misses_the_table (World (Db true None (Some None) stmts next err) r clk out)
    (insert_rows_xact_body i (World (Db true None (Some None) stmts next err) r clk out)).
Proof.
  intros Hlen. unfold insert_rows_xact_body, sprintf_key.
  rewrite run_write_key by exact Hlen. rewrite !run_rand_double.
  rewrite run_exec_insert_values_no_table by (by right).
  change (negb (SQLITE_ERROR =? SQLITE_OK)) with true. cbn [when].
  rewrite die_db_error_run. split; [done|]. split; [done|].
  cbn [snd w_out w_db sq_errmsg rel_sqlite3 db_err].
  rewrite <- app_assoc. by eexists [], _, _.
Qed.

Lemma misses_the_table_bind (p : prog db unit) (k : unit -> prog db unit)
    (w0 w : world db) pre :
  w_out w = w_out w0 ++ pre ->
  misses_the_table w (p w) -> misses_the_table w0 (bind p k w).
Proof.
  intros Hout (Hexit & Hdisk & pre' & c & rc & Hw). unfold bind.
  destruct (p w) as [[a|status| |] w']; cbn [fst snd] in *; try discriminate.
  unfold misses_the_table. cbn [fst snd].
  split; [done|]. split; [done|]. exists (pre ++ pre'), c, rc.
  rewrite Hw, Hout. by rewrite <- !app_assoc.
Qed.

Lemma insert_rows_no_table stmts next err r clk out :
  (0 < NUM_EXECUTIONS)%nat ->
  misses_the_table (World (Db true None None stmts next err) r clk out)
    (insert_rows (World (Db true None None stmts next err) r clk out)).
Proof.
  intros Hn. unfold insert_rows. destruct NUM_EXECUTIONS as [|n]; [lia|].
  cbn [for_loop]. eapply misses_the_table_bind with (pre := []).
  - by rewrite app_nil_r.
  - apply insert_rows_body_no_table. vm_compute. lia.
Qed.

Lemma insert_rows_xact_no_table stmts next err r clk out :
  (0 < NUM_EXECUTIONS)%nat ->
  misses_the_table (World (Db true None None stmts next err) r clk out)
    (insert_rows_xact (World (Db true None None stmts next err) r clk out)).
Proof.
  intros Hn. unfold insert_rows_xact. rewrite run_exec_begin_any.
  change (negb (SQLITE_OK =? SQLITE_OK)) with false. rewrite run_when_ok.
  destruct NUM_EXECUTIONS as [|n]; [lia|].
  cbn [for_loop]. rewrite bind_assoc.
  eapply misses_the_table_bind with (pre := [_]).
  - reflexivity.
  - apply insert_rows_xact_body_no_table. vm_compute. lia.
Qed.

Lemma insert_rows_xact_prepared_no_table stmts next err r clk out :
  misses_the_table (World (Db true None None stmts next err) r clk out)
    (insert_rows_xact_prepared (World (Db true None None stmts next err) r clk out)).
Proof.
  unfold insert_rows_xact_prepared. rewrite run_exec_begin_any.
  change (negb (SQLITE_OK =? SQLITE_OK)) with false. rewrite run_when_ok.
  erewrite run_prepare_no_table; [|reflexivity|exact I]. cbv beta iota.
  change (negb (SQLITE_ERROR =? SQLITE_OK)) with true. cbn [when]. rewrite bind_die.
  split; [done|]. split; [done|]. cbn [snd w_out w_db sq_errmsg rel_sqlite3 db_err].
  rewrite <- !app_assoc. by eexists [_], _, _.
Qed.

Lemma update_rows_pk_no_table fuel stmts next err r clk out :
  misses_the_table (World (Db true None None stmts next err) r clk out)
    (update_rows_pk fuel (World (Db true None None stmts next err) r clk out)).
Proof.
  unfold update_rows_pk. rewrite run_exec_begin_any.
  change (negb (SQLITE_OK =? SQLITE_OK)) with false. rewrite run_when_ok.
  erewrite run_prepare_no_table; [|reflexivity|exact I]. cbv beta iota.
  change (negb (SQLITE_ERROR =? SQLITE_OK)) with true. cbn [when]. rewrite bind_die.
  split; [done|]. split; [done|]. cbn [snd w_out w_db sq_errmsg rel_sqlite3 db_err].
  rewrite <- !app_assoc. by eexists [_], _, _.
Qed.

Lemma update_rows_rowid_no_table fuel stmts next err r clk out :
  misses_the_table (World (Db true None None stmts next err) r clk out)
    (update_rows_rowid fuel (World (Db true None None stmts next err) r clk out)).
Proof.
  unfold update_rows_rowid. rewrite run_exec_begin_any.
  change (negb (SQLITE_OK =? SQLITE_OK)) with false. rewrite run_when_ok.
  erewrite run_prepare_no_table; [|reflexivity|exact I]. cbv beta iota.
  change (negb (SQLITE_ERROR =? SQLITE_OK)) with true. cbn [when]. rewrite bind_die.
  split; [done|]. split; [done|]. cbn [snd w_out w_db sq_errmsg rel_sqlite3 db_err].
  rewrite <- !app_assoc. by eexists [_], _, _.
Qed.

End RelNoTable.

(** X14: on the relational model, on an open connection whose database
    has no table [Test] (that is, without [setup_test]), every insert and
    update function ends in [exit(-1)] after printing SQLite's message
    that the table is missing, and creates no table: the update functions
    and [insert_rows_xact_prepared] at their first
    [sqlite3_prepare_v3], [insert_rows] and [insert_rows_xact] at the
    [sqlite3_exec] of their first row, so for them only when the row count
    is not 0. *)
Theorem functions_need_the_table {E : Env} (w : world db) :
  db_open (w_db w) = true -> db_txn (w_db w) = None -> db_disk (w_db w) = None ->
  (forall s, (0 < NUM_EXECUTIONS)%nat \/ s = InsertRowsXactPrepared ->
     misses_the_table w (strategy_prog s w)) /\
  (forall u fuel, misses_the_table w (update_prog u fuel w)).
Proof.
  destruct w as [[o disk txn stmts next err] r clk out]. cbn [w_db db_open db_txn db_disk].
  intros -> -> ->. split.
  - intros [| |] Hn; cbn [strategy_prog].
    + apply insert_rows_no_table. by destruct Hn.
    + apply insert_rows_xact_no_table. by destruct Hn.
    + apply insert_rows_xact_prepared_no_table.
  - intros [|] fuel; [apply update_rows_pk_no_table|apply update_rows_rowid_no_table].
Qed.

Section RelRepeat.
Context {E : Env}.

Lemma has_key_generated (s : strategy) (r n i : nat) :
  (i < n)%nat -> has_key (generated_key s i) (map (generated_row s r) (seq 0 n)) = true.
Proof.
  intros Hi. unfold has_key. apply existsb_exists. exists (generated_row s r i). split.
  - apply in_map, in_seq. lia.
  - apply String.eqb_refl.
Qed.

Lemma setup_update_test_twice (w : world db) :
  (0 < NUM_EXECUTIONS)%nat -> keys_in_bounds InsertRowsXactPrepared ->
  exists w',
    bind open_database (fun _ => bind setup_update_test (fun _ => setup_update_test)) w
    = (Exit (-1), w') /\
    db_disk (w_db w')
    = Some (map (generated_row InsertRowsXactPrepared (w_rand w)) (seq 0 NUM_EXECUTIONS)) /\
    refused (w_out w) w'.
Proof.
  intros Hn Hfit. destruct w as [d r clk out]. rewrite run_open_database. fold fresh_db.
  destruct (runs_setup_update_test r Hfit clk
              (out ++ [Remove DB_FILE_PATH; Call (Open DB_FILE_PATH) SQLITE_OK]))
    as (evs & Hfirst).
  unfold bind at 1. rewrite Hfirst. unfold setup_update_test, setup_test.
  rewrite !bind_assoc, run_exec_create.
  change (negb (SQLITE_OK =? SQLITE_OK)) with false. rewrite run_when_ok. cbn [default].
  edestruct (insert_rows_xact_prepared_refused
               (map (generated_row InsertRowsXactPrepared r) (seq 0 NUM_EXECUTIONS)) 0 Hn)
    as (w' & Hrun & Hdisk & (pre & c & Hout)).
  { intros i Hi. apply Hfit. lia. }
  { intros i Hi. lia. }
  { by apply has_key_generated. }
  rewrite Hrun. exists w'. split; [done|]. split; [done|].
  exists ([Remove DB_FILE_PATH; Call (Open DB_FILE_PATH) SQLITE_OK] ++ evs
          ++ [Call (Exec sql_create) SQLITE_OK] ++ pre), c.
  rewrite Hout. cbn [w_out]. by rewrite <- !app_assoc.
Qed.

End RelRepeat.

(** X15: on the relational model, with a row count between 1 and 10^22,
    [setup_update_test] cannot be run twice on one connection:
    [CREATE TABLE IF NOT EXISTS] keeps the rows of the first run, so the
    second run meets its own first key, reports the failed unique
    constraint and ends in [exit(-1)]; the database file keeps the rows of
    the first run.  An empty table at the start of a scenario comes from
    [open_database], which removes the file, not from [setup_test]. *)
Theorem setup_update_test_cannot_be_repeated {E : Env} (w : world db) :
  (0 < NUM_EXECUTIONS)%nat -> Z.of_nat NUM_EXECUTIONS <= 10 ^ 22 ->
  let res := bind open_database
               (fun _ => bind setup_update_test (fun _ => setup_update_test)) w in
  fst res = Exit (-1) /\
  db_disk (w_db (snd res))
  = Some (map (generated_row InsertRowsXactPrepared (w_rand w)) (seq 0 NUM_EXECUTIONS)) /\
  exists pre c,
    w_out (snd res) = w_out w ++ pre ++ Call c SQLITE_CONSTRAINT :: die_events key_conflict.
Proof.
  intros Hn Hmax. cbv zeta.
  destruct (setup_update_test_twice w Hn (keys_in_bounds_below _ Hmax))
    as (w' & -> & Hdisk & Href).
  by repeat split.
Qed.

(** *** Distinct values of [rand_double] *)

(** The exponent and the mantissa of a double. *)
Definition parts (d : float) : int * int :=
  let '(f, e) := PrimFloat.frshiftexp d in (e, PrimFloat.normfr_mantissa f).

(** The order of the pairs, first by exponent. *)
Definition parts_ltb (a b : int * int) : bool :=
  (a.1 <? b.1)%uint63 || ((a.1 =? b.1)%uint63 && (a.2 <? b.2)%uint63).

Lemma parts_ltb_irrefl (a : int * int) : parts_ltb a a = false.
Proof.
  unfold parts_ltb. apply orb_false_iff. split.
  - apply not_true_is_false. rewrite Uint63.ltb_spec. lia.
  - apply andb_false_iff. right. apply not_true_is_false. rewrite Uint63.ltb_spec. lia.
Qed.

Lemma parts_ltb_trans (a b c : int * int) :
  parts_ltb a b = true -> parts_ltb b c = true -> parts_ltb a c = true.
Proof.
  unfold parts_ltb.
  rewrite !orb_true_iff, !andb_true_iff, !Uint63.ltb_spec, !Uint63.eqb_spec.
  intros [H1|[H1 H1']] [H2|[H2 H2']].
  - left. lia.
  - left. rewrite <- H2. done.
  - left. rewrite H1. done.
  - right. split; [congruence|lia].
Qed.

Definition rand_double_steps_up (r : Z) : bool :=
  (rand_double_of RAND_MAX_min r <? rand_double_of RAND_MAX_min (r + 1))%float &&
  parts_ltb (parts (rand_double_of RAND_MAX_min r))
            (parts (rand_double_of RAND_MAX_min (r + 1))).

Lemma rand_double_steps_up_all : all_from (Z.to_nat 32767) 0 rand_double_steps_up = true.
Proof. vm_compute. reflexivity. Qed.

Lemma rand_double_steps_up_below (r : Z) :
  0 <= r < RAND_MAX_min -> rand_double_steps_up r = true.
Proof.
  intros Hr. apply (all_from_spec _ _ 0 rand_double_steps_up_all).
  rewrite Z2Nat.id by done. unfold RAND_MAX_min in Hr. lia.
Qed.

Lemma rand_double_parts_mono (r1 r2 : Z) :
  0 <= r1 -> r1 < r2 -> r2 <= RAND_MAX_min ->
  parts_ltb (parts (rand_double_of RAND_MAX_min r1))
            (parts (rand_double_of RAND_MAX_min r2)) = true.
Proof.
  intros H0 Hlt Hmax.
  assert (forall n, 0 <= n -> r1 + 1 + n <= RAND_MAX_min ->
            parts_ltb (parts (rand_double_of RAND_MAX_min r1))
                      (parts (rand_double_of RAND_MAX_min (r1 + 1 + n))) = true) as Hall.
  { apply (natlike_ind (fun n => r1 + 1 + n <= RAND_MAX_min -> _)).
    - intros Hle. rewrite Z.add_0_r.
      pose proof (rand_double_steps_up_below r1 ltac:(lia)) as Hstep.
      unfold rand_double_steps_up in Hstep. by apply andb_prop in Hstep as [_ Hs].
    - intros n Hn IH Hle. specialize (IH ltac:(lia)).
      pose proof (rand_double_steps_up_below (r1 + 1 + n) ltac:(lia)) as Hstep.
      unfold rand_double_steps_up in Hstep. apply andb_prop in Hstep as [_ Hs].
      replace (r1 + 1 + Z.succ n) with (r1 + 1 + n + 1) by lia.
      exact (parts_ltb_trans _ _ _ IH Hs). }
  replace r2 with (r1 + 1 + (r2 - r1 - 1)) by lia. apply Hall; lia.
Qed.

(** X13: with [RAND_MAX] = 32767, [rand_double] maps the 32768 values
    [rand()] can return to 32768 different doubles, and a value of
    [rand()] that is larger by one gives a strictly larger double. *)
Theorem rand_double_values_are_distinct (r1 r2 : Z) :
  0 <= r1 <= RAND_MAX_min -> 0 <= r2 <= RAND_MAX_min ->
  (rand_double_of RAND_MAX_min r1 = rand_double_of RAND_MAX_min r2 -> r1 = r2) /\
  (r2 = r1 + 1 ->
   (rand_double_of RAND_MAX_min r1 <? rand_double_of RAND_MAX_min r2)%float = true).
Proof.
  intros H1 H2. split.
  - intros Heq. destruct (Z.lt_trichotomy r1 r2) as [Hlt|[->|Hlt]]; [|done|].
    + pose proof (rand_double_parts_mono r1 r2 ltac:(lia) Hlt ltac:(lia)) as Hm.
      rewrite Heq, parts_ltb_irrefl in Hm. done.
    + pose proof (rand_double_parts_mono r2 r1 ltac:(lia) Hlt ltac:(lia)) as Hm.
      rewrite Heq, parts_ltb_irrefl in Hm. done.
  - intros ->.
    pose proof (rand_double_steps_up_below r1 ltac:(lia)) as Hstep.
    unfold rand_double_steps_up in Hstep. by apply andb_prop in Hstep as [Hs _].
Qed.

(** *** Examples and witnesses for the further properties *)

Section FurtherExamples.
Local Existing Instance small_env.

(** Traces the rules of the protocol refuse: a call on a connection that
    is not open, closing with a statement that is not finalized, reading
    a column before the first step, after the last row or after the
    statement was finalized, binding after a step without a reset,
    committing with no transaction, and stepping past the last row. *)
Example protocol_refuses :
  session_run closed [Call (Exec sql_begin) SQLITE_OK] = None /\
  session_run opened [Call (Prepare sql_insert) SQLITE_OK; Call Close SQLITE_OK] = None /\
  session_run opened
    [Call (Prepare sql_select_key) SQLITE_OK;
     ColumnText (Stmt sql_select_key 0) 0 None] = None /\
  session_run opened
    [Call (Prepare sql_select_rowid) SQLITE_OK;
     Call (Step (Stmt sql_select_rowid 0)) SQLITE_DONE;
     ColumnInt64 (Stmt sql_select_rowid 0) 0 0] = None /\
  session_run opened
    [Call (Prepare sql_select_rowid) SQLITE_OK;
     Call (Step (Stmt sql_select_rowid 0)) SQLITE_ROW;
     Call (Finalize (Stmt sql_select_rowid 0)) SQLITE_OK;
     ColumnDouble (Stmt sql_select_rowid 0) 1 0] = None /\
  session_run opened
    [Call (Prepare sql_insert) SQLITE_OK;
     Call (Step (Stmt sql_insert 0)) SQLITE_DONE;
     Call (BindText (Stmt sql_insert 0) 1 "K-0") SQLITE_OK] = None /\
  session_run opened [Call (Exec sql_commit) SQLITE_OK] = None /\
  session_run opened
    [Call (Prepare sql_select_key) SQLITE_OK;
     Call (Step (Stmt sql_select_key 0)) SQLITE_DONE;
     Call (Step (Stmt sql_select_key 0)) SQLITE_DONE] = None.
Proof. repeat split; reflexivity. Qed.

(** The trace of a whole run on the relational model is accepted and ends
    with every connection closed. *)
Example protocol_accepts_a_run :
  session_run closed (w_out (snd (main 10 (start no_db [])))) = Some closed.
Proof. vm_compute. reflexivity. Qed.

(** The timeline of a run on the relational model, and that of a run in
    which the second [sqlite3_open] fails. *)
Example scenario_timeline_of_a_run :
  timeline (w_out (snd (main 10 (start no_db [0; 500; 1000; 2000; 0; 0; 7; 8]))))
  = main_timeline [0; 500; 1000; 2000; 0; 0; 7; 8].
Proof. vm_compute. reflexivity. Qed.

Example scenario_timeline_of_a_failed_run :
  let res := main 10 (start [0; 0; 0; 0; 0; 0; 0; 0; SQLITE_CANTOPEN] [3; 4; 5]) in
  fst res = Exit (-1) /\
  timeline (w_out (snd res)) = take 14 (main_timeline [3; 4; 5]).
Proof. split; vm_compute; reflexivity. Qed.

(** The result lines of a run on the relational model. *)
Example scenario_report_lines :
  reports (w_out (snd (main 10 (start no_db [0; 500; 1000; 2000; 0; 0; 7; 8]))))
  = [report_line "Insert Rows (xact)" 0 500;
     report_line "Insert Rows (xact, prep)" 1000 2000;
     report_line "Update Rows PK" 0 0;
     report_line "Update Rows ROWID" 7 8].
Proof. vm_compute. reflexivity. Qed.

Lemma main_inserts_only_prefixed_keys_witness :
  exists i, (i < NUM_EXECUTIONS)%nat /\ "K-1"%string = "K-" +:+ pretty (Z.of_nat i).
Proof.
  apply (main_inserts_only_prefixed_keys 10 no_db [] "K-1").
  apply (list_elem_of_lookup_2 _ 1%nat). vm_compute. reflexivity.
Defined.

Lemma insert_stores_the_generated_rows_witness :
  fst (strategy_prog InsertRowsXactPrepared (with_table [])) = Done tt /\
  table_after (strategy_prog InsertRowsXactPrepared (with_table []))
  = Some (map (generated_row InsertRowsXactPrepared 0) (seq 0 NUM_EXECUTIONS)) /\
  w_rand (snd (strategy_prog InsertRowsXactPrepared (with_table [])))
  = (0 + 4 * NUM_EXECUTIONS)%nat.
Proof.
  apply (insert_stores_the_generated_rows InsertRowsXactPrepared (with_table [])).
  - apply with_table_state.
  - vm_compute. discriminate.
Defined.

Lemma fixture3_keys_fit : keys_fit fixture3.
Proof. repeat constructor; vm_compute; lia. Defined.

Lemma updates_can_be_chained_witness :
  let res := bind (update_prog UpdateRowsPk 10) (fun _ => update_prog UpdateRowsRowid 10)
                  (with_table fixture3) in
  fst res = Done tt /\ table_after res = Some (map bump (map bump fixture3)).
Proof.
  apply (updates_can_be_chained UpdateRowsPk UpdateRowsRowid 10 10 (with_table fixture3)
           fixture3).
  - apply fixture3_valid.
  - apply with_table_state.
  - intros _. apply fixture3_keys_fit.
  - simpl. lia.
  - simpl. lia.
Defined.

(** A table with a key of 26 characters. *)
Definition long_key_fixture : list test_t :=
  [Test_t 1 "K-0" 1 1 1 1; Test_t 2 "abcdefghijklmnopqrstuvwxyz" 2 2 2 2].



Lemma buffer_overrun_only_at_a_key_read_witness :
  exists pre id o,
    w_out (snd (update_rows_pk 10 (with_table long_key_fixture)))
    = w_out (with_table long_key_fixture) ++ pre
        ++ [ColumnText (Stmt sql_select_key id) 0 o] /\ unfit o.
Proof.
  apply (proj1 (proj2 (proj2 (@buffer_overrun_only_at_a_key_read db _ small_env)))
           10%nat (with_table long_key_fixture)).
  vm_compute. reflexivity.
Defined.


(** The key that is copied past the end of [row.key] is the one read
    second; the row read first has been updated by then. *)
Example scenario_overrun :
  let res := update_rows_pk 10 (with_table long_key_fixture) in
  fst res = Undefined /\
  last (w_out (snd res))
  = Some (ColumnText (Stmt sql_select_key 0) 0 (Some "abcdefghijklmnopqrstuvwxyz")) /\
  Call (Step (Stmt sql_update_key 1)) SQLITE_DONE ∈ w_out (snd res).
Proof.
  split; [vm_compute; reflexivity|]. split; [vm_compute; reflexivity|].
  apply (list_elem_of_lookup_2 _ 14%nat). vm_compute. reflexivity.
Qed.

(** A table that already holds the key of index 1. *)
Definition taken_fixture : list test_t := [Test_t 7 "K-1" 0 0 0 0].

Lemma insert_stops_at_a_key_the_table_has_witness :
  let res := strategy_prog InsertRowsXact (with_table taken_fixture) in
  fst res = Exit (-1) /\
  (exists pre c,
     w_out (snd res)
     = w_out (with_table taken_fixture) ++ pre
         ++ Call c SQLITE_CONSTRAINT :: die_events key_conflict) /\
  table_after res = Some taken_fixture.
Proof.
  apply (insert_stops_at_a_key_the_table_has InsertRowsXact (with_table taken_fixture)
           taken_fixture 1).
  - apply with_table_state.
  - simpl. lia.
  - intros [|[|i]] Hi; [vm_compute; lia..|lia].
  - intros [|i] Hi; [reflexivity|lia].
  - reflexivity.
Defined.

(** Without a transaction the row of index 0 stays in the table. *)
Example scenario_refused_insert_rows :
  let res := insert_rows (with_table [Test_t 7 "1" 0 0 0 0]) in
  fst res = Exit (-1) /\
  map key (default [] (table_after res)) = ["1"; "0"]%string /\
  db_err (w_db (snd res)) = key_conflict.
Proof. vm_compute. repeat split; reflexivity. Qed.

Lemma main_leaves_the_updated_fixture_witness :
  let res := main 10 (start no_db []) in
  fst res = Done tt /\
  db_open (w_db (snd res)) = false /\
  db_disk (w_db (snd res))
  = Some (map bump (map (generated_row InsertRowsXactPrepared (12 * NUM_EXECUTIONS))
                        (seq 0 NUM_EXECUTIONS))) /\
  w_rand (snd res) = (16 * NUM_EXECUTIONS)%nat.
Proof.
  apply (main_leaves_the_updated_fixture 10 no_db []).
  - vm_compute. discriminate.
  - simpl. lia.
Defined.

Lemma rand_double_values_are_distinct_witness :
  (rand_double_of RAND_MAX_min 41 = rand_double_of RAND_MAX_min 42 -> 41 = 42) /\
  (42 = 41 + 1 ->
   (rand_double_of RAND_MAX_min 41 <? rand_double_of RAND_MAX_min 42)%float = true).
Proof. apply (rand_double_values_are_distinct 41 42); vm_compute; split; discriminate. Defined.

(** An open connection to a database without the table. *)
Definition no_table_world : world db :=
  World (Db true None None ∅ 0 "not an error") 0 [] [].

Lemma functions_need_the_table_witness :
  (forall s, (0 < NUM_EXECUTIONS)%nat \/ s = InsertRowsXactPrepared ->
     misses_the_table no_table_world (strategy_prog s no_table_world)) /\
  (forall u fuel, misses_the_table no_table_world (update_prog u fuel no_table_world)).
Proof. apply (functions_need_the_table no_table_world); reflexivity. Defined.

(** The message and the call that fails, for [update_rows_rowid]. *)
Example scenario_no_table :
  let res := update_rows_rowid 10 no_table_world in
  fst res = Exit (-1) /\
  w_out (snd res)
  = [Call (Exec sql_begin) SQLITE_OK; Call (Prepare sql_select_rowid) SQLITE_ERROR]
      ++ die_events no_table.
Proof. vm_compute. split; reflexivity. Qed.

Lemma setup_update_test_cannot_be_repeated_witness :
  let res := bind open_database
               (fun _ => bind setup_update_test (fun _ => setup_update_test))
               (start no_db []) in
  fst res = Exit (-1) /\
  db_disk (w_db (snd res))
  = Some (map (generated_row InsertRowsXactPrepared (w_rand (start no_db [])))
              (seq 0 NUM_EXECUTIONS)) /\
  exists pre c,
    w_out (snd res)
    = w_out (start no_db []) ++ pre ++ Call c SQLITE_CONSTRAINT :: die_events key_conflict.
Proof.
  apply (setup_update_test_cannot_be_repeated (start no_db [])).
  - simpl. lia.
  - vm_compute. discriminate.
Defined.

End FurtherExamples.
